(** * sing-box-rules: the rule parser, the rule-set builder and the validator

    A shallow embedding of the classes [RuleParser]
    ([scripts/utils/rule-parser.js]), [FileUtils]
    ([scripts/utils/file-utils.js]), [SrsBuilder]
    ([scripts/utils/srs-builder.js]), [RuleValidator] and [RuleBuilder]
    (the validation and the build script), followed by the properties
    of the pipeline that the specification states.

    JavaScript strings are modelled as [string] (code units below 256),
    arrays as lists, [Set] as [gset], parsed JSON and object literals as
    [value], and the synchronous, exception-throwing calls into Node
    ([fs], [path], [child_process], [JSON], [Date]) as an interface
    [NodeEnv] over an abstract world. *)

From Stdlib Require Import Ascii ZArith Lia.
From stdpp Require Import base list strings gmap sets pretty.
From Stdlib Require HexadecimalString.

Set Warnings "-clear-no-such-hyp,-register-all".

(** ** String primitives of the language *)

Module JsString.

Definition chars (s : string) : list ascii := String.list_ascii_of_string s.
Definition of_chars (l : list ascii) : string := String.string_of_list_ascii l.

(** WhiteSpace and LineTerminator code units below 256:
    TAB, LF, VT, FF, CR, SP and NBSP. *)
Definition is_white_space (c : ascii) : bool :=
  let n := N_of_ascii c in
  ((9 <=? n) && (n <=? 13) || (n =? 32) || (n =? 160))%N.

Fixpoint trim_start (l : list ascii) : list ascii :=
  match l with
  | c :: l' => if is_white_space c then trim_start l' else l
  | [] => []
  end.

Definition trim_end (l : list ascii) : list ascii :=
  rev (trim_start (rev l)).

(** [s.trim()] *)
Definition trim (s : string) : string :=
  of_chars (trim_end (trim_start (chars s))).

(** [s.startsWith(p)] *)
Definition startsWith (s p : string) : bool := String.prefix p s.

(** [s.slice(n)] for a non-negative [n] *)
Definition slice (s : string) (n : nat) : string :=
  of_chars (drop n (chars s)).

(** Pieces of [l] between the occurrences of [sep]; never empty. *)
Fixpoint split_on (sep : ascii) (l : list ascii) : list (list ascii) :=
  match l with
  | [] => [[]]
  | c :: l' =>
      if decide (c = sep) then [] :: split_on sep l'
      else match split_on sep l' with
           | p :: ps => (c :: p) :: ps
           | [] => [[c]]
           end
  end.

(** [s.split(sep)] for a one-character separator *)
Definition split (s : string) (sep : ascii) : list string :=
  of_chars <$> split_on sep (chars s).

Fixpoint is_prefix (p l : list ascii) : bool :=
  match p, l with
  | [], _ => true
  | a :: p', b :: l' => bool_decide (a = b) && is_prefix p' l'
  | _ :: _, [] => false
  end.

Fixpoint replace_first (pat rep l : list ascii) : list ascii :=
  if is_prefix pat l then rep ++ drop (length pat) l
  else match l with
       | [] => []
       | c :: l' => c :: replace_first pat rep l'
       end.

(** [s.replace(pat, rep)] for a string pattern and a replacement
    without [$]: the first occurrence only. *)
Definition replace (s pat rep : string) : string :=
  of_chars (replace_first (chars pat) (chars rep) (chars s)).

End JsString.

(** ** Regular expressions

    The three patterns of the parser are anchored at both ends ([^...$],
    no flags) and use neither back-references nor look-around, so
    [RegExp.prototype.test] answers whether the whole string belongs to
    the regular language of the pattern.  [test] decides that with
    derivatives; [lang] is the language itself. *)

Module Regex.

(** A class [[a-zA-Z0-9\-]] is the list of its ranges. *)
Definition range : Type := ascii * ascii.

Inductive regex : Type :=
| Void
| Eps
| Cls (rs : list range)
| Cat (a b : regex)
| Alt (a b : regex)
| Star (a : regex).

Definition in_range (c : ascii) (r : range) : bool :=
  ((N_of_ascii r.1 <=? N_of_ascii c) && (N_of_ascii c <=? N_of_ascii r.2))%N.

Definition in_class (rs : list range) (c : ascii) : bool :=
  existsb (in_range c) rs.

(** Derived forms: a literal character, [r?], [r+], [r{n}], [r{0,n}]
    and [r{lo,hi}]. *)
Definition Chr (c : ascii) : regex := Cls [(c, c)].
Global Arguments Chr c%_char.
Definition Opt (r : regex) : regex := Alt r Eps.
Definition Plus (r : regex) : regex := Cat r (Star r).

Fixpoint Times (n : nat) (r : regex) : regex :=
  match n with
  | O => Eps
  | S n' => Cat r (Times n' r)
  end.

Fixpoint UpTo (n : nat) (r : regex) : regex :=
  match n with
  | O => Eps
  | S n' => Opt (Cat r (UpTo n' r))
  end.

Definition Rep (r : regex) (lo hi : nat) : regex :=
  Cat (Times lo r) (UpTo (hi - lo) r).

(** The language of a pattern. *)
Fixpoint lang (r : regex) (w : list ascii) : Prop :=
  match r with
  | Void => False
  | Eps => w = []
  | Cls rs => ∃ c, w = [c] ∧ in_class rs c = true
  | Cat a b => ∃ u v, w = u ++ v ∧ lang a u ∧ lang b v
  | Alt a b => lang a w ∨ lang b w
  | Star a => ∃ us, w = concat us ∧ Forall (lang a) us
  end.

Fixpoint nullable (r : regex) : bool :=
  match r with
  | Void => false
  | Eps => true
  | Cls _ => false
  | Cat a b => nullable a && nullable b
  | Alt a b => nullable a || nullable b
  | Star _ => true
  end.

(** Constructors that drop [Void] and a leading [Eps]. *)
Definition cat (a b : regex) : regex :=
  match a with
  | Void => Void
  | Eps => b
  | _ => match b with Void => Void | _ => Cat a b end
  end.

Definition alt (a b : regex) : regex :=
  match a with
  | Void => b
  | _ => match b with Void => a | _ => Alt a b end
  end.

Fixpoint der (c : ascii) (r : regex) : regex :=
  match r with
  | Void => Void
  | Eps => Void
  | Cls rs => if in_class rs c then Eps else Void
  | Cat a b => alt (cat (der c a) b) (if nullable a then der c b else Void)
  | Alt a b => alt (der c a) (der c b)
  | Star a => cat (der c a) (Star a)
  end.

Definition matches (r : regex) (w : list ascii) : bool :=
  nullable (foldl (λ r c, der c r) r w).

(** [/^r$/.test(s)] *)
Definition test (r : regex) (s : string) : bool :=
  matches r (JsString.chars s).

End Regex.

(** ** [scripts/utils/rule-parser.js]: the pure part *)

Module RuleParser.
Import Regex.

Definition alnum : list range := [("a", "z"); ("A", "Z"); ("0", "9")]%char.
Definition alnum_hyphen : list range :=
  [("a", "z"); ("A", "Z"); ("0", "9"); ("-", "-")]%char.
Definition digit : list range := [("0", "9")]%char.
Definition hexdigit : list range := [("0", "9"); ("a", "f"); ("A", "F")]%char.
Definition process_char : list range :=
  [("a", "z"); ("A", "Z"); ("0", "9"); ("_", "_"); ("-", "-"); (".", ".")]%char.

(** [[a-zA-Z0-9]([a-zA-Z0-9\-]{0,61}[a-zA-Z0-9])?] *)
Definition labelRegex : regex :=
  Cat (Cls alnum) (Opt (Cat (Rep (Cls alnum_hyphen) 0 61) (Cls alnum))).

(** [/^label(\.label)*$/] *)
Definition domainRegex : regex :=
  Cat labelRegex (Star (Cat (Chr ".") labelRegex)).

(** The guard [!domain || typeof domain !== 'string'] of the three
    predicates holds of the empty string only: a rule is a string. *)
Definition isValidDomain (domain : string) : bool :=
  if bool_decide (domain = "") then false
  else
    let cleanDomain :=
      if JsString.startsWith domain "." then JsString.slice domain 1
      else domain in
    test domainRegex cleanDomain.

(** [/^(\d{1,3}\.){3}\d{1,3}\/\d{1,2}$/] *)
Definition ipv4Regex : regex :=
  Cat (Rep (Cat (Rep (Cls digit) 1 3) (Chr ".")) 3 3)
    (Cat (Rep (Cls digit) 1 3) (Cat (Chr "/") (Rep (Cls digit) 1 2))).

(** [[0-9a-fA-F]{1,4}], then [h:] and [:h] *)
Definition hextet : regex := Rep (Cls hexdigit) 1 4.
Definition hc : regex := Cat hextet (Chr ":").
Definition ch : regex := Cat (Chr ":") hextet.

Definition ipv6Regex : regex :=
  Cat
    (Alt (Cat (Rep hc 7 7) hextet)
    (Alt (Cat (Rep hc 1 7) (Chr ":"))
    (Alt (Cat (Rep hc 1 6) ch)
    (Alt (Cat (Rep hc 1 5) (Rep ch 1 2))
    (Alt (Cat (Rep hc 1 4) (Rep ch 1 3))
    (Alt (Cat (Rep hc 1 3) (Rep ch 1 4))
    (Alt (Cat (Rep hc 1 2) (Rep ch 1 5))
    (Alt (Cat hc (Rep ch 1 6))
         (Cat (Chr ":") (Alt (Rep ch 1 7) (Chr ":")))))))))))
    (Cat (Chr "/") (Rep (Cls digit) 1 3)).

Definition isValidCidr (cidr : string) : bool :=
  if bool_decide (cidr = "") then false
  else test ipv4Regex cidr || test ipv6Regex cidr.

(** [/^[a-zA-Z0-9_\-\.]+$/] *)
Definition processNameRegex : regex := Plus (Cls process_char).

Definition isValidProcessName (processName : string) : bool :=
  if bool_decide (processName = "") then false
  else test processNameRegex processName.

(** [rules.filter(rule => { switch (type) { ... default: return true } })] *)
Definition filterValidRules (rules : list string) (type : string)
  : list string :=
  List.filter
    (λ rule,
      if String.eqb type "domain-suffix" then isValidDomain rule
      else if String.eqb type "ip-cidr" then isValidCidr rule
      else if String.eqb type "process-name" then isValidProcessName rule
      else true)
    rules.

Record RuleStats : Type := mkStats
  { total : nat; empty : nat; duplicate : nat; valid : nat }.

(** [!rule || rule.trim() === ''] *)
Definition is_blank (rule : string) : bool :=
  bool_decide (rule = "") || bool_decide (JsString.trim rule = "").

(** One iteration of the loop over [rules]: the counters and the
    [uniqueRules] set. *)
Definition getRuleStats_step (acc : RuleStats * gset string) (rule : string)
  : RuleStats * gset string :=
  let '(stats, uniqueRules) := acc in
  if is_blank rule then
    (mkStats (total stats) (S (empty stats)) (duplicate stats) (valid stats),
     uniqueRules)
  else if bool_decide (rule ∈ uniqueRules) then
    (mkStats (total stats) (empty stats) (S (duplicate stats)) (valid stats),
     uniqueRules)
  else
    (mkStats (total stats) (empty stats) (duplicate stats) (S (valid stats)),
     {[rule]} ∪ uniqueRules).

Definition getRuleStats (rules : list string) : RuleStats :=
  (foldl getRuleStats_step (mkStats (length rules) 0 0 0, ∅) rules).1.

(** The filter of [parseTextFile]:
    [line && !line.startsWith('#') && !line.startsWith('//')] *)
Definition is_rule_line (line : string) : bool :=
  negb (bool_decide (line = ""))
  && negb (JsString.startsWith line "#")
  && negb (JsString.startsWith line "//").

(** [content.split('\n').map(line => line.trim()).filter(...)] *)
Definition parseContent (content : string) : list string :=
  List.filter is_rule_line
    (JsString.trim <$> JsString.split content "010"%char).

End RuleParser.

(** ** The hostname grammar, in the words of the specification

    "Strip a single leading [.], then match against a label-based hostname
    grammar (labels are 1-63 alphanumeric-or-hyphen characters, no
    leading/trailing hyphen, labels joined by dots)."  These definitions
    do not mention the pattern of [isValidDomain]; they are what it is
    compared with. *)

Module DomainGrammar.

Definition is_alnum (c : ascii) : bool :=
  let n := N_of_ascii c in
  ((97 <=? n) && (n <=? 122) || (65 <=? n) && (n <=? 90)
   || (48 <=? n) && (n <=? 57))%N.

Definition is_hyphen (c : ascii) : bool := bool_decide (c = "-"%char).

Definition is_label (l : list ascii) : bool :=
  (1 <=? length l) && (length l <=? 63)
  && forallb (λ c, is_alnum c || is_hyphen c) l
  && negb (bool_decide (head l = Some "-"%char))
  && negb (bool_decide (last l = Some "-"%char)).

Definition strip_leading_dot (s : string) : string :=
  match s with
  | String "."%char s' => s'
  | _ => s
  end.

(** The labels of a name: the pieces between its dots. *)
Definition labels (s : string) : list (list ascii) :=
  JsString.split_on "." (JsString.chars s).

Definition is_hostname (s : string) : bool := forallb is_label (labels s).

Definition is_domain_suffix (s : string) : bool :=
  is_hostname (strip_leading_dot s).

End DomainGrammar.

(** ** Values of the language

    What [JSON.parse] returns and what the object literals of the scripts
    build.  The properties of an object are kept in the order in which
    [Object.keys] lists them.  Numbers are the integers (the scripts
    only count, and compare a version with [1]). *)

Inductive value : Type :=
| VUndefined
| VNull
| VBool (b : bool)
| VNum (n : Z)
| VStr (s : string)
| VArr (elems : list value)
| VObj (props : list (string * value)).

Inductive exn : Type :=
| Error (message : string)
| TypeError (message : string).

Definition message (e : exn) : string :=
  match e with
  | Error m => m
  | TypeError m => m
  end.

(** A call either returns or throws. *)
Inductive outcome (A : Type) : Type :=
| Ret (a : A)
| Throw (e : exn).
Global Arguments Ret {A} a.
Global Arguments Throw {A} e.

Module Js.

(** [ToBoolean] *)
Definition truthy (v : value) : bool :=
  match v with
  | VUndefined | VNull => false
  | VBool b => b
  | VNum n => negb (n =? 0)%Z
  | VStr s => negb (bool_decide (s = ""))
  | VArr _ | VObj _ => true
  end.

(** [typeof v] *)
Definition typeof (v : value) : string :=
  match v with
  | VUndefined => "undefined"
  | VNull | VArr _ | VObj _ => "object"
  | VBool _ => "boolean"
  | VNum _ => "number"
  | VStr _ => "string"
  end.

(** [v === n] for a number literal [n] *)
Definition strict_equals_number (v : value) (n : Z) : bool :=
  match v with
  | VNum m => (m =? n)%Z
  | _ => false
  end.

Fixpoint join (sep : string) (l : list string) : string :=
  match l with
  | [] => ""
  | [x] => x
  | x :: l' => x +:+ sep +:+ join sep l'
  end.

(** [ToString], as used for template literals and property keys. *)
Fixpoint ToString (v : value) : string :=
  match v with
  | VUndefined => "undefined"
  | VNull => "null"
  | VBool true => "true"
  | VBool false => "false"
  | VNum n => pretty n
  | VStr s => s
  | VArr elems =>
      join ","
        (map (λ e, match e with
                   | VUndefined | VNull => ""
                   | _ => ToString e
                   end) elems)
  | VObj _ => "[object Object]"
  end.

Fixpoint lookup_prop (k : string) (props : list (string * value))
  : option value :=
  match props with
  | [] => None
  | (k', v) :: props' =>
      if String.eqb k k' then Some v else lookup_prop k props'
  end.

(** The index that the key [k] denotes in an array of length [len]. *)
Definition index_of_key (k : string) (len : nat) : option nat :=
  List.find (λ i, String.eqb k (pretty i)) (seq 0 len).

Definition indices (len : nat) : list string := pretty <$> seq 0 len.

(** [v[k]] and [v.k].  Reading a property of [undefined] or [null]
    throws; a missing property reads as [undefined].  Own properties
    only: none of the names that the scripts read ([type], [rules],
    [version], [description], [metadata], and the key under which
    [buildRule] has just stored the rules) is looked up on a built-in
    prototype.  The one inherited member that the scripts use,
    [hasOwnProperty], is [call_hasOwnProperty] below. *)
Definition get (v : value) (k : string) : outcome value :=
  match v with
  | VUndefined =>
      Throw (TypeError ("Cannot read properties of undefined (reading '"
                        +:+ k +:+ "')"))
  | VNull =>
      Throw (TypeError ("Cannot read properties of null (reading '"
                        +:+ k +:+ "')"))
  | VObj props => Ret (default VUndefined (lookup_prop k props))
  | VArr elems =>
      if String.eqb k "length" then Ret (VNum (Z.of_nat (length elems)))
      else Ret (default VUndefined
                  (i ← index_of_key k (length elems); elems !! i))
  | VStr s =>
      let cs := JsString.chars s in
      if String.eqb k "length" then Ret (VNum (Z.of_nat (length cs)))
      else Ret (default VUndefined
                  (i ← index_of_key k (length cs);
                   c ← cs !! i; Some (VStr (String c ""))))
  | VBool _ | VNum _ => Ret VUndefined
  end.

(** [Object.keys(v)] *)
Definition keys (v : value) : outcome (list string) :=
  match v with
  | VUndefined | VNull =>
      Throw (TypeError "Cannot convert undefined or null to object")
  | VObj props => Ret props.*1
  | VArr elems => Ret (indices (length elems))
  | VStr s => Ret (indices (length (JsString.chars s)))
  | VBool _ | VNum _ => Ret []
  end.

(** [v.hasOwnProperty(field)]: the method is looked up on [v] first,
    so an own property of that name, which parsed JSON can only fill
    with data, is what gets called. *)
Definition call_hasOwnProperty (v : value) (field : string) : outcome bool :=
  match v with
  | VUndefined =>
      Throw (TypeError
        "Cannot read properties of undefined (reading 'hasOwnProperty')")
  | VNull =>
      Throw (TypeError
        "Cannot read properties of null (reading 'hasOwnProperty')")
  | VObj props =>
      match lookup_prop "hasOwnProperty" props with
      | Some _ => Throw (TypeError "template.hasOwnProperty is not a function")
      | None => Ret (bool_decide (is_Some (lookup_prop field props)))
      end
  | VArr elems =>
      Ret (String.eqb field "length"
           || bool_decide (is_Some (index_of_key field (length elems))))
  | VStr s =>
      Ret (String.eqb field "length"
           || bool_decide
                (is_Some (index_of_key field (length (JsString.chars s)))))
  | VBool _ | VNum _ => Ret false
  end.

End Js.

(** ** The state and error monad of the scripts *)

Section Monad.
Context {S : Type}.

Definition M (A : Type) : Type := S → outcome A * S.

Definition ret {A} (a : A) : M A := λ s, (Ret a, s).

Definition bind {A B} (m : M A) (k : A → M B) : M B :=
  λ s, match m s with
       | (Ret a, s') => k a s'
       | (Throw e, s') => (Throw e, s')
       end.

Definition throw {A} (e : exn) : M A := λ s, (Throw e, s).

(** A pure operation of the language that may throw. *)
Definition prim {A} (o : outcome A) : M A := λ s, (o, s).

(** [try { body } catch (error) { handler }] *)
Definition try_catch {A} (body : M A) (handler : exn → M A) : M A :=
  λ s, match body s with
       | (Ret a, s') => (Ret a, s')
       | (Throw e, s') => handler e s'
       end.

(** [try { body } finally { fin }]: [fin] always runs, and what it
    throws replaces the outcome of [body]. *)
Definition try_finally {A} (body : M A) (fin : M unit) : M A :=
  λ s, match body s with
       | (r, s') =>
           match fin s' with
           | (Ret _, s'') => (r, s'')
           | (Throw e, s'') => (Throw e, s'')
           end
       end.

(** [for (const x of l) { body }] *)
Fixpoint for_each {A} (l : list A) (body : A → M unit) : M unit :=
  match l with
  | [] => ret tt
  | x :: l' => bind (body x) (λ _, for_each l' body)
  end.

End Monad.
Global Arguments M : clear implicits.

(** A computation that always returns. *)
Definition never_throws {S A} (m : M S A) : Prop :=
  ∀ s, ∃ a s', m s = (Ret a, s').


(** [x ← m; k] and [m;; k] are stdpp's notations for [bind]. *)
Global Instance M_ret {S} : MRet (M S) := λ A, ret.
Global Instance M_bind {S} : MBind (M S) := λ A B k m, bind m k.

(** A mutable local (the [result] objects of the scripts) lives next to
    the state, so that what was stored before a throw is still there in
    the handler. *)
Section Local.
Context {S L : Type}.

Definition lift {A} (m : M S A) : M (S * L) A :=
  λ sl, match m sl.1 with (r, s') => (r, (s', sl.2)) end.

Definition read : M (S * L) L := λ sl, (Ret sl.2, sl).

Definition update (f : L → L) : M (S * L) unit :=
  λ sl, (Ret tt, (sl.1, f sl.2)).

Definition with_local {A} (init : L) (m : M (S * L) A) : M S A :=
  λ s, match m (s, init) with (r, sl) => (r, sl.1) end.

End Local.

(** ** The Node runtime

    [W] is everything outside the process: the file system, the
    [sing-box] executable, the clock.  The synchronous calls the scripts
    make are the fields of [NodeEnv]; nothing is assumed about them
    beyond their types ([existsSync], [readFileSync], [statSync] and
    [readdirSync] only look at the world). *)

Class NodeEnv (W : Type) : Type := {
  (** [__dirname] of [scripts/] and of [scripts/utils/] *)
  scripts_dirname : string;
  utils_dirname : string;
  path_join : string → string → string;
  path_dirname : string → string;
  (** [path.basename(p, ext)] *)
  path_basename : string → string → string;
  fs_existsSync : W → string → bool;
  fs_readFileSync : W → string → outcome string;
  (** [fs.statSync(p).size] *)
  fs_statSync_size : W → string → outcome Z;
  fs_readdirSync : W → string → outcome (list string);
  fs_writeFileSync : W → string → string → outcome unit * W;
  (** [fs.mkdirSync(p, { recursive: true })] *)
  fs_mkdirSync : W → string → outcome unit * W;
  fs_unlinkSync : W → string → outcome unit * W;
  fs_rmdirSync : W → string → outcome unit * W;
  (** [execSync(cmd, { stdio: 'pipe', timeout: 30000 })]: throws when the
      command exits with a non-zero status or is killed at the timeout *)
  child_process_execSync : W → string → outcome unit * W;
  Date_now : W → Z * W;
  (** [new Date().toISOString()] *)
  Date_toISOString : W → string * W;
  JSON_parse : string → outcome value;
  (** [JSON.stringify(v, null, 2)] of an object *)
  JSON_stringify : value → string;
}.

Inductive level : Type := LogLevel | WarnLevel | ErrorLevel.

(** The world and what was printed, oldest line first. *)
Record state (W : Type) : Type := mkState {
  world : W;
  console : list (level * string);
}.
Global Arguments mkState {W} world console.
Global Arguments world {W} s.
Global Arguments console {W} s.

Definition nl : string := String "010" "".
Definition dquote : string := String "034" "".

Section Runtime.
Context {W : Type} `{NodeEnv W}.

Definition print (l : level) (text : string) : M (state W) unit :=
  λ s, (Ret tt, mkState (world s) (console s ++ [(l, text)])).

Definition console_log : string → M (state W) unit := print LogLevel.
Definition console_warn : string → M (state W) unit := print WarnLevel.
Definition console_error : string → M (state W) unit := print ErrorLevel.

(** A call that looks at the world, and one that may change it. *)
Definition observe {A} (f : W → outcome A) : M (state W) A :=
  λ s, (f (world s), s).

Definition effect {A} (f : W → outcome A * W) : M (state W) A :=
  λ s, match f (world s) with (r, w') => (r, mkState w' (console s)) end.

Definition existsSync (p : string) : M (state W) bool :=
  observe (λ w, Ret (fs_existsSync w p)).
Definition readFileSync (p : string) : M (state W) string :=
  observe (λ w, fs_readFileSync w p).
Definition statSync_size (p : string) : M (state W) Z :=
  observe (λ w, fs_statSync_size w p).
Definition readdirSync (p : string) : M (state W) (list string) :=
  observe (λ w, fs_readdirSync w p).
Definition writeFileSync (p data : string) : M (state W) unit :=
  effect (λ w, fs_writeFileSync w p data).
Definition mkdirSync (p : string) : M (state W) unit :=
  effect (λ w, fs_mkdirSync w p).
Definition unlinkSync (p : string) : M (state W) unit :=
  effect (λ w, fs_unlinkSync w p).
Definition rmdirSync (p : string) : M (state W) unit :=
  effect (λ w, fs_rmdirSync w p).
Definition execSync (cmd : string) : M (state W) unit :=
  effect (λ w, child_process_execSync w cmd).
Definition now : M (state W) Z :=
  effect (λ w, match Date_now w with (t, w') => (Ret t, w') end).
Definition toISOString : M (state W) string :=
  effect (λ w, match Date_toISOString w with (t, w') => (Ret t, w') end).

End Runtime.

(** ** [scripts/utils/file-utils.js] *)

Module FileUtils.
Section FileUtils.
Context {W : Type} `{NodeEnv W}.

Definition ensureDir (dir : string) : M (state W) unit :=
  ex ← existsSync dir;
  if negb ex then mkdirSync dir else mret tt.

Definition exists_ (filePath : string) : M (state W) bool :=
  existsSync filePath.

Definition readFile (filePath : string) : M (state W) string :=
  ex ← existsSync filePath;
  if negb ex then throw (Error ("File not found: " +:+ filePath))
  else readFileSync filePath.

Definition writeFile (filePath content : string) : M (state W) unit :=
  let dir := path_dirname filePath in
  ensureDir dir;;
  writeFileSync filePath content.

Definition readJsonFile (filePath : string) : M (state W) value :=
  content ← readFile filePath;
  prim (JSON_parse content).

Definition writeJsonFile (filePath : string) (data : value)
  : M (state W) unit :=
  let content := JSON_stringify data in
  writeFile filePath content.

End FileUtils.
End FileUtils.

(** ** [scripts/utils/rule-parser.js]: reading a source file *)

Section ParseTextFile.
Context {W : Type} `{NodeEnv W}.

Definition parseTextFile (filePath : string) : M (state W) (list string) :=
  ex ← existsSync filePath;
  if negb ex then
    console_warn ("Source file not found: " +:+ filePath);;
    mret []
  else
    content ← readFileSync filePath;
    mret (RuleParser.parseContent content).

End ParseTextFile.

(** ** [scripts/utils/srs-builder.js] *)

Module SrsBuilder.
Section SrsBuilder.
Context {W : Type} `{NodeEnv W}.

Definition tempDir : string := path_join utils_dirname "../../temp".

Definition ensureTempDir : M (state W) unit :=
  ex ← existsSync tempDir;
  if negb ex then mkdirSync tempDir else mret tt.

Definition cleanTempDir : M (state W) unit :=
  ex ← existsSync tempDir;
  if ex : bool then
    files ← readdirSync tempDir;
    for_each files (λ file, unlinkSync (path_join tempDir file));;
    rmdirSync tempDir
  else mret tt.

(** [ruleData.type || Object.keys(ruleData.rules)[0]] *)
Definition ruleType_of (ruleData : value) : M (state W) value :=
  type ← prim (Js.get ruleData "type");
  if Js.truthy type then mret type
  else
    rules ← prim (Js.get ruleData "rules");
    ks ← prim (Js.keys rules);
    mret (from_option VStr VUndefined (head ks)).

(** [ruleData.rules[ruleType] || []] *)
Definition rules_of (ruleData ruleType : value) : M (state W) value :=
  rules ← prim (Js.get ruleData "rules");
  rs ← prim (Js.get rules (Js.ToString ruleType));
  mret (if Js.truthy rs then rs else VArr []).

(** The command line of the compilation, with both paths in double
    quotes. *)
Definition compile_command (outputFile tempJsonFile : string) : string :=
  "sing-box rule-set compile --output " +:+ dquote +:+ outputFile
  +:+ dquote +:+ " " +:+ dquote +:+ tempJsonFile +:+ dquote.

Definition buildWithSingBox (ruleData : value) (outputFile : string)
  : M (state W) bool :=
  ensureTempDir;;
  try_finally
    (try_catch
       (ruleType ← ruleType_of ruleData;
        rules ← rules_of ruleData ruleType;
        let ruleSet :=
          VObj [("version", VNum 2);
                ("rules", VArr [VObj [(Js.ToString ruleType, rules)]])] in
        t ← now;
        let tempJsonFile :=
          path_join tempDir ("temp_" +:+ pretty t +:+ ".json") in
        writeFileSync tempJsonFile (JSON_stringify ruleSet);;
        let cmd := compile_command outputFile tempJsonFile in
        console_log ("🔨 Building SRS file: " +:+ outputFile);;
        execSync cmd;;
        ex ← existsSync outputFile;
        if ex : bool then
          size ← statSync_size outputFile;
          if (0 <? size)%Z then
            console_log ("✅ SRS file built successfully: " +:+ outputFile);;
            mret true
          else
            console_warn ("⚠️  SRS file build failed: " +:+ outputFile);;
            mret false
        else
          console_warn ("⚠️  SRS file build failed: " +:+ outputFile);;
          mret false)
       (λ error,
          console_error ("❌ sing-box build failed: " +:+ message error);;
          mret false))
    cleanTempDir.

(** The file that [buildFallback] writes. *)
Definition jsonFile_of (outputFile : string) : string :=
  JsString.replace outputFile ".srs" ".json".

(** The document that [buildFallback] writes: [singBoxFormat]. *)
Definition singBoxFormat (ruleData : value) : M (state W) value :=
  ruleType ← ruleType_of ruleData;
  rules ← rules_of ruleData ruleType;
  version ← prim (Js.get ruleData "version");
  mret (VObj [("version", if Js.truthy version then version else VNum 2);
              ("rules", VArr [VObj [(Js.ToString ruleType, rules)]])]).

Definition buildFallback (ruleData : value) (outputFile : string)
  : M (state W) bool :=
  try_catch
    (let jsonFile := jsonFile_of outputFile in
     singBoxFormat ← singBoxFormat ruleData;
     writeFileSync jsonFile (JSON_stringify singBoxFormat);;
     console_log ("⚠️  Built fallback file: " +:+ jsonFile);;
     mret true)
    (λ error,
       console_error ("❌ Fallback build failed: " +:+ message error);;
       mret false).

Definition buildSrsFile (ruleData : value) (outputFile : string)
  : M (state W) bool :=
  let outputDir := path_dirname outputFile in
  ex ← existsSync outputDir;
  (if negb ex then mkdirSync outputDir else mret tt);;
  built ← buildWithSingBox ruleData outputFile;
  if built : bool then mret true
  else buildFallback ruleData outputFile.

End SrsBuilder.
End SrsBuilder.

(** ** [RuleBuilder], the build script *)

Module RuleBuilder.

Record RuleConfig : Type := mkConfig
  { type : string; source : string; output : string }.

(** What [buildRule] returns when it does not return [null]. *)
Module Artifact.
Record t : Type := mk {
  type : string;
  source : string;
  output : string;
  rules : list string;
  metadata : value;
}.
End Artifact.

(** [results.summary] once [buildAll] has filled it. *)
Module Summary.
Record t : Type := mk {
  total_configs : nat;
  success : nat;
  failed : nat;
  skipped : nat;
  total_rules : nat;
}.
End Summary.

(** The [results] object of [buildAll]; [summary] starts as [{}]. *)
Record Results : Type := mkResults {
  success : list Artifact.t;
  failed : list (RuleConfig * string);
  skipped : list RuleConfig;
  summary : option Summary.t;
}.

Definition ruleConfigs : list RuleConfig :=
  [ mkConfig "domain-suffix" "direct-domains.txt" "direct-domains.srs";
    mkConfig "ip-cidr" "direct-ips.txt" "direct-ips.srs";
    mkConfig "process-name" "direct-process.txt" "direct-process.srs";
    mkConfig "domain-suffix" "proxy-domains.txt" "proxy-domains.srs";
    mkConfig "domain-suffix" "proxy-domains-private.txt"
      "proxy-domains-private.srs";
    mkConfig "ip-cidr" "proxy-ips.txt" "proxy-ips.srs";
    mkConfig "process-name" "proxy-process.txt" "proxy-process.srs" ].

(** The objects as [JSON.stringify] receives them. *)
Definition num (n : nat) : value := VNum (Z.of_nat n).
Definition strings (l : list string) : value := VArr (VStr <$> l).

Definition stats_value (st : RuleParser.RuleStats) : value :=
  VObj [("total", num (RuleParser.total st));
        ("empty", num (RuleParser.empty st));
        ("duplicate", num (RuleParser.duplicate st));
        ("valid", num (RuleParser.valid st))].

Definition config_value (c : RuleConfig) : value :=
  VObj [("type", VStr (type c)); ("source", VStr (source c));
        ("output", VStr (output c))].

Definition artifact_value (a : Artifact.t) : value :=
  VObj [("type", VStr (Artifact.type a));
        ("source", VStr (Artifact.source a));
        ("output", VStr (Artifact.output a));
        ("rules", strings (Artifact.rules a));
        ("metadata", Artifact.metadata a)].

Definition failure_value (f : RuleConfig * string) : value :=
  VObj [("config", config_value f.1); ("error", VStr f.2)].

Definition summary_value (o : option Summary.t) : value :=
  match o with
  | None => VObj []
  | Some sm =>
      VObj [("total_configs", num (Summary.total_configs sm));
            ("success", num (Summary.success sm));
            ("failed", num (Summary.failed sm));
            ("skipped", num (Summary.skipped sm));
            ("total_rules", num (Summary.total_rules sm))]
  end.

Section RuleBuilder.
Context {W : Type} `{NodeEnv W}.

Definition sourcesDir : string := path_join scripts_dirname "../sources".
Definition templatesDir : string := path_join scripts_dirname "../templates".
Definition distDir : string := path_join scripts_dirname "../dist".

(** [new RuleBuilder()] *)
Definition constructor : M (state W) unit := FileUtils.ensureDir distDir.

Definition loadTemplate (outputFile type : string) : M (state W) value :=
  let baseName := path_basename outputFile ".srs" in
  let templateFile := path_join templatesDir (baseName +:+ ".json") in
  ex ← FileUtils.exists_ templateFile;
  let templateFile :=
    if negb ex then path_join templatesDir (type +:+ ".json")
    else templateFile in
  ex ← FileUtils.exists_ templateFile;
  if negb ex then throw (Error ("Template not found: " +:+ templateFile))
  else
    template ← FileUtils.readJsonFile templateFile;
    console_log ("📋 Using template: " +:+ templateFile);;
    mret template.

(** The body of [buildRule] from the parse of the source down to the
    [ruleData] literal; [None] is one of the two early [return null]. *)
Definition buildRule_ruleData (type sourceFile outputFile : string)
  : M (state W) (option (list string * value)) :=
  rules ← parseTextFile (path_join sourcesDir sourceFile);
  console_log ("📖 Found " +:+ pretty (length rules) +:+ " rules in "
               +:+ sourceFile);;
  if bool_decide (length rules = 0) then
    console_warn ("⚠️  No rules found in " +:+ sourceFile
                  +:+ ", skipping...");;
    mret None
  else
    let validRules := RuleParser.filterValidRules rules type in
    console_log ("✅ Valid rules: " +:+ pretty (length validRules)
                 +:+ ", invalid: "
                 +:+ pretty (length rules - length validRules));;
    if bool_decide (length validRules = 0) then
      console_warn ("⚠️  No valid rules found in " +:+ sourceFile
                    +:+ ", skipping...");;
      mret None
    else
      let stats := RuleParser.getRuleStats rules in
      console_log ("📊 Rule stats: total="
                   +:+ pretty (RuleParser.total stats)
                   +:+ ", empty=" +:+ pretty (RuleParser.empty stats)
                   +:+ ", duplicate="
                   +:+ pretty (RuleParser.duplicate stats)
                   +:+ ", valid=" +:+ pretty (RuleParser.valid stats));;
      template ← loadTemplate outputFile type;
      version ← prim (Js.get template "version");
      rules_key ← prim (Js.get template "type");
      description ← prim (Js.get template "description");
      template_type ← prim (Js.get template "type");
      built_at ← toISOString;
      mret (Some
        (validRules,
         VObj [("version", version);
               ("rules", VObj [(Js.ToString rules_key, strings validRules)]);
               ("description", description);
               ("type", template_type);
               ("metadata",
                VObj [("count", num (length validRules));
                      ("built_at", VStr built_at);
                      ("source", VStr sourceFile);
                      ("stats", stats_value stats)])])).

Definition buildRule (type sourceFile outputFile : string)
  : M (state W) (option Artifact.t) :=
  console_log (nl +:+ "📦 Building rule: " +:+ type +:+ " from "
               +:+ sourceFile);;
  try_catch
    (prepared ← buildRule_ruleData type sourceFile outputFile;
     match prepared with
     | None => mret None
     | Some (validRules, ruleData) =>
         let outputPath := path_join distDir outputFile in
         success ← SrsBuilder.buildSrsFile ruleData outputPath;
         if success : bool then
           metadata ← prim (Js.get ruleData "metadata");
           mret (Some (Artifact.mk type sourceFile outputFile validRules
                         metadata))
         else mret None
     end)
    (λ error,
       console_error ("❌ Failed to build " +:+ type +:+ " from "
                      +:+ sourceFile +:+ ": " +:+ message error);;
       mret None).

Definition generateBuildReport (results : Results) : M (state W) unit :=
  timestamp ← toISOString;
  let report :=
    VObj [("timestamp", VStr timestamp);
          ("summary", summary_value (summary results));
          ("files",
           VObj [("success", VArr (artifact_value <$> success results));
                 ("failed", VArr (failure_value <$> failed results));
                 ("skipped", VArr (config_value <$> skipped results))])] in
  let reportPath := path_join distDir "build-report.json" in
  FileUtils.writeJsonFile reportPath report;;
  let sm := default (Summary.mk 0 0 0 0 0) (summary results) in
  console_log (nl +:+ "📊 Build Report:");;
  console_log ("✅ Success: " +:+ pretty (Summary.success sm));;
  console_log ("❌ Failed: " +:+ pretty (Summary.failed sm));;
  console_log ("⚠️  Skipped: " +:+ pretty (Summary.skipped sm));;
  console_log ("📝 Total rules: " +:+ pretty (Summary.total_rules sm));;
  console_log ("📄 Report saved to: " +:+ reportPath);;
  if bool_decide (0 < Summary.failed sm) then
    console_log (nl +:+ "❌ Failed Rules:");;
    for_each (failed results)
      (λ item, console_log ("   " +:+ source item.1 +:+ ": " +:+ item.2))
  else mret tt.

(** One turn of the loop of [buildAll], on [results] and [totalRules]. *)
Definition buildAll_step (config : RuleConfig)
  : M (state W * (Results * nat)) unit :=
  try_catch
    (result ← lift (buildRule (type config) (source config) (output config));
     match result with
     | Some a =>
         update (λ '(r, totalRules),
           (mkResults (success r ++ [a]) (failed r) (skipped r) (summary r),
            totalRules + length (Artifact.rules a)))
     | None =>
         update (λ '(r, totalRules),
           (mkResults (success r) (failed r) (skipped r ++ [config])
              (summary r),
            totalRules))
     end)
    (λ error,
       lift (console_error ("❌ Failed to build " +:+ source config
                            +:+ ": " +:+ message error));;
       update (λ '(r, totalRules),
         (mkResults (success r) (failed r ++ [(config, message error)])
            (skipped r) (summary r),
          totalRules))).

Definition buildAll : M (state W) Results :=
  console_log "🚀 Starting rule building process...";;
  with_local (mkResults [] [] [] None, 0)
    (for_each ruleConfigs buildAll_step;;
     update (λ '(r, totalRules),
       (mkResults (success r) (failed r) (skipped r)
          (Some (Summary.mk (length ruleConfigs) (length (success r))
                   (length (failed r)) (length (skipped r)) totalRules)),
        totalRules));;
     '(results, _) ← read;
     lift (generateBuildReport results);;
     mret results).

End RuleBuilder.
End RuleBuilder.

(** ** [RuleValidator], the validation script *)

Module RuleValidator.

Record SourceConfig : Type := mkConfig { source : string; type : string }.

Record Stats : Type := mkStats
  { total : nat; valid : nat; invalid : nat; duplicate : nat }.

(** The [result] object of [validateSourceFile]. *)
Module SourceResult.
Record t : Type := mk {
  file : string;
  type : string;
  valid : bool;
  errors : list string;
  warnings : list string;
  stats : Stats;
}.
Definition add_error (e : string) (r : t) : t :=
  mk (file r) (type r) (valid r) (errors r ++ [e]) (warnings r) (stats r).
Definition add_warning (w : string) (r : t) : t :=
  mk (file r) (type r) (valid r) (errors r) (warnings r ++ [w]) (stats r).
Definition set_valid (b : bool) (r : t) : t :=
  mk (file r) (type r) b (errors r) (warnings r) (stats r).
Definition set_stats (f : Stats → Stats) (r : t) : t :=
  mk (file r) (type r) (valid r) (errors r) (warnings r) (f (stats r)).
End SourceResult.

(** The [result] object of [validateTemplate]. *)
Module TemplateResult.
Record t : Type := mk {
  file : string;
  valid : bool;
  errors : list string;
  warnings : list string;
}.
Definition add_error (e : string) (r : t) : t :=
  mk (file r) (valid r) (errors r ++ [e]) (warnings r).
Definition add_warning (w : string) (r : t) : t :=
  mk (file r) (valid r) (errors r) (warnings r ++ [w]).
Definition set_valid (b : bool) (r : t) : t :=
  mk (file r) b (errors r) (warnings r).
End TemplateResult.

Record Summary : Type := mkSummary {
  total_files : nat;
  valid_files : nat;
  invalid_files : nat;
  total_rules : nat;
  valid_rules : nat;
  invalid_rules : nat;
}.

(** The [results] object of [validateAll]. *)
Record Results : Type := mkResults {
  sources : list SourceResult.t;
  templates : list TemplateResult.t;
  summary : Summary;
}.

Definition ruleConfigs : list SourceConfig :=
  [ mkConfig "direct-domains.txt" "domain-suffix";
    mkConfig "direct-ips.txt" "ip-cidr";
    mkConfig "direct-process.txt" "process-name";
    mkConfig "proxy-domains.txt" "domain-suffix";
    mkConfig "proxy-domains-private.txt" "domain-suffix";
    mkConfig "proxy-ips.txt" "ip-cidr";
    mkConfig "proxy-process.txt" "process-name" ].

Definition templateConfigs : list string :=
  ["domain-suffix.json"; "ip-cidr.json"; "process-name.json"].

Definition requiredFields : list string :=
  ["version"; "rules"; "description"; "type"].

(** The loop that counts the repeated rules of a source. *)
Definition count_duplicates (rules : list string) : nat :=
  (foldl (λ '(uniqueRules, duplicates) rule,
            if bool_decide (rule ∈ uniqueRules)
            then (uniqueRules, S duplicates)
            else ({[rule]} ∪ uniqueRules, duplicates))
     ((∅ : gset string), 0) rules).2.

(** The objects as [JSON.stringify] receives them. *)
Definition num (n : nat) : value := VNum (Z.of_nat n).
Definition strings (l : list string) : value := VArr (VStr <$> l).

Definition stats_value (st : Stats) : value :=
  VObj [("total", num (total st)); ("valid", num (valid st));
        ("invalid", num (invalid st)); ("duplicate", num (duplicate st))].

Definition source_value (r : SourceResult.t) : value :=
  VObj [("file", VStr (SourceResult.file r));
        ("type", VStr (SourceResult.type r));
        ("valid", VBool (SourceResult.valid r));
        ("errors", strings (SourceResult.errors r));
        ("warnings", strings (SourceResult.warnings r));
        ("stats", stats_value (SourceResult.stats r))].

Definition template_value (r : TemplateResult.t) : value :=
  VObj [("file", VStr (TemplateResult.file r));
        ("valid", VBool (TemplateResult.valid r));
        ("errors", strings (TemplateResult.errors r));
        ("warnings", strings (TemplateResult.warnings r))].

Definition results_value (r : Results) : value :=
  VObj [("sources", VArr (source_value <$> sources r));
        ("templates", VArr (template_value <$> templates r));
        ("summary",
         VObj [("total_files", num (total_files (summary r)));
               ("valid_files", num (valid_files (summary r)));
               ("invalid_files", num (invalid_files (summary r)));
               ("total_rules", num (total_rules (summary r)));
               ("valid_rules", num (valid_rules (summary r)));
               ("invalid_rules", num (invalid_rules (summary r)))])].

Section RuleValidator.
Context {W : Type} `{NodeEnv W}.

Definition sourcesDir : string := path_join scripts_dirname "../sources".
Definition templatesDir : string := path_join scripts_dirname "../templates".

Definition validateSourceFile (sourceFile type : string)
  : M (state W) SourceResult.t :=
  console_log (nl +:+ "🔍 Validating: " +:+ sourceFile +:+ " (" +:+ type
               +:+ ")");;
  with_local (SourceResult.mk sourceFile type true [] [] (mkStats 0 0 0 0))
    (try_catch
       (let filePath := path_join sourcesDir sourceFile in
        ex ← lift (FileUtils.exists_ filePath);
        if negb ex then
          update (SourceResult.add_error
                    ("Source file not found: " +:+ filePath));;
          update (SourceResult.set_valid false);;
          read
        else
          rules ← lift (parseTextFile filePath);
          update (SourceResult.set_stats (λ st,
            mkStats (length rules) (valid st) (invalid st) (duplicate st)));;
          if bool_decide (length rules = 0) then
            update (SourceResult.add_warning "No rules found in file");;
            read
          else
            let validRules := RuleParser.filterValidRules rules type in
            let invalidRules :=
              List.filter (λ rule, negb (bool_decide (rule ∈ validRules)))
                rules in
            update (SourceResult.set_stats (λ st,
              mkStats (total st) (length validRules) (length invalidRules)
                (duplicate st)));;
            let duplicates := count_duplicates rules in
            update (SourceResult.set_stats (λ st,
              mkStats (total st) (valid st) (invalid st) duplicates));;
            (if bool_decide (0 < length invalidRules) then
               update (SourceResult.add_error
                 ("Found " +:+ pretty (length invalidRules)
                  +:+ " invalid rules"));;
               update (SourceResult.set_valid false);;
               let sampleInvalid := take 10 invalidRules in
               for_each sampleInvalid (λ rule,
                 update (SourceResult.add_warning
                           ("Invalid rule: " +:+ rule)));;
               if bool_decide (10 < length invalidRules) then
                 update (SourceResult.add_warning
                   ("... and " +:+ pretty (length invalidRules - 10)
                    +:+ " more invalid rules"))
               else mret tt
             else mret tt);;
            (if bool_decide (0 < duplicates) then
               update (SourceResult.add_warning
                 ("Found " +:+ pretty duplicates +:+ " duplicate rules"))
             else mret tt);;
            result ← read;
            lift (console_log
              ("✅ Valid: " +:+ pretty (valid (SourceResult.stats result))
               +:+ ", Invalid: "
               +:+ pretty (invalid (SourceResult.stats result))
               +:+ ", Duplicate: "
               +:+ pretty (duplicate (SourceResult.stats result))));;
            read)
       (λ error,
          update (SourceResult.add_error
                    ("Validation failed: " +:+ message error));;
          update (SourceResult.set_valid false);;
          read)).

Definition validateTemplate (templateFile : string)
  : M (state W) TemplateResult.t :=
  console_log (nl +:+ "🔍 Validating template: " +:+ templateFile);;
  with_local (TemplateResult.mk templateFile true [] [])
    (try_catch
       (let templatePath := path_join templatesDir templateFile in
        ex ← lift (FileUtils.exists_ templatePath);
        if negb ex then
          update (TemplateResult.add_error
                    ("Template file not found: " +:+ templatePath));;
          update (TemplateResult.set_valid false);;
          read
        else
          template ← lift (FileUtils.readJsonFile templatePath);
          for_each requiredFields (λ field,
            has ← prim (Js.call_hasOwnProperty template field);
            if negb has then
              update (TemplateResult.add_error
                        ("Missing required field: " +:+ field));;
              update (TemplateResult.set_valid false)
            else mret tt);;
          version ← prim (Js.get template "version");
          (if negb (Js.strict_equals_number version 1) then
             update (TemplateResult.add_warning
               ("Unexpected version: " +:+ Js.ToString version
                +:+ " (expected: 1)"))
           else mret tt);;
          type ← prim (Js.get template "type");
          (if negb (Js.truthy type)
              || negb (String.eqb (Js.typeof type) "string") then
             update (TemplateResult.add_error "Invalid or missing type field");;
             update (TemplateResult.set_valid false)
           else mret tt);;
          rules ← prim (Js.get template "rules");
          (if negb (Js.truthy rules)
              || negb (String.eqb (Js.typeof rules) "object") then
             update (TemplateResult.add_error "Invalid rules field structure");;
             update (TemplateResult.set_valid false)
           else mret tt);;
          lift (console_log "✅ Template validation completed");;
          read)
       (λ error,
          update (TemplateResult.add_error
                    ("Template validation failed: " +:+ message error));;
          update (TemplateResult.set_valid false);;
          read)).

Definition generateValidationReport (results : Results)
  : M (state W) unit :=
  let sm := summary results in
  console_log (nl +:+ "📊 Validation Report:");;
  console_log ("✅ Valid files: " +:+ pretty (valid_files sm));;
  console_log ("❌ Invalid files: " +:+ pretty (invalid_files sm));;
  console_log ("📝 Total rules: " +:+ pretty (total_rules sm));;
  console_log ("✅ Valid rules: " +:+ pretty (valid_rules sm));;
  console_log ("❌ Invalid rules: " +:+ pretty (invalid_rules sm));;
  let allErrors :=
    concat ((λ r, (λ e, SourceResult.file r +:+ ": " +:+ e)
                    <$> SourceResult.errors r) <$> sources results)
    ++ concat ((λ r, (λ e, TemplateResult.file r +:+ ": " +:+ e)
                       <$> TemplateResult.errors r) <$> templates results)
    in
  (if bool_decide (0 < length allErrors) then
     console_log (nl +:+ "❌ Errors:");;
     for_each allErrors (λ error, console_log ("   " +:+ error))
   else mret tt);;
  let allWarnings :=
    concat ((λ r, (λ w, SourceResult.file r +:+ ": " +:+ w)
                    <$> SourceResult.warnings r) <$> sources results)
    ++ concat ((λ r, (λ w, TemplateResult.file r +:+ ": " +:+ w)
                       <$> TemplateResult.warnings r) <$> templates results)
    in
  (if bool_decide (0 < length allWarnings) then
     console_log (nl +:+ "⚠️  Warnings:");;
     for_each allWarnings (λ warning, console_log ("   " +:+ warning))
   else mret tt);;
  let reportPath :=
    path_join scripts_dirname "../dist/validation-report.json" in
  FileUtils.ensureDir (path_dirname reportPath);;
  FileUtils.writeJsonFile reportPath (results_value results);;
  console_log (nl +:+ "📄 Detailed report saved to: " +:+ reportPath).

(** One turn of each of the two loops of [validateAll]. *)
Definition validateAll_source (config : SourceConfig)
  : M (state W * Results) unit :=
  result ← lift (validateSourceFile (source config) (type config));
  update (λ r, mkResults (sources r ++ [result]) (templates r) (summary r));;
  if SourceResult.valid result then
    update (λ r,
      let sm := summary r in
      let st := SourceResult.stats result in
      mkResults (sources r) (templates r)
        (mkSummary (total_files sm) (S (valid_files sm)) (invalid_files sm)
           (total_rules sm + total st) (valid_rules sm + valid st)
           (invalid_rules sm + invalid st)))
  else
    update (λ r,
      let sm := summary r in
      mkResults (sources r) (templates r)
        (mkSummary (total_files sm) (valid_files sm) (S (invalid_files sm))
           (total_rules sm) (valid_rules sm) (invalid_rules sm))).

Definition validateAll_template (template : string)
  : M (state W * Results) unit :=
  result ← lift (validateTemplate template);
  update (λ r, mkResults (sources r) (templates r ++ [result]) (summary r));;
  if TemplateResult.valid result then
    update (λ r,
      let sm := summary r in
      mkResults (sources r) (templates r)
        (mkSummary (total_files sm) (S (valid_files sm)) (invalid_files sm)
           (total_rules sm) (valid_rules sm) (invalid_rules sm)))
  else
    update (λ r,
      let sm := summary r in
      mkResults (sources r) (templates r)
        (mkSummary (total_files sm) (valid_files sm) (S (invalid_files sm))
           (total_rules sm) (valid_rules sm) (invalid_rules sm))).

Definition validateAll : M (state W) Results :=
  console_log "🚀 Starting validation process...";;
  with_local
    (mkResults [] []
       (mkSummary (length ruleConfigs + length templateConfigs) 0 0 0 0 0))
    (for_each ruleConfigs validateAll_source;;
     for_each templateConfigs validateAll_template;;
     results ← read;
     lift (generateValidationReport results);;
     mret results).

(** The status that [validate-rules.js all] exits with. *)
Definition exit_status (results : Results) : nat :=
  if bool_decide (0 < invalid_files (summary results)) then 1 else 0.

End RuleValidator.
End RuleValidator.

(** ** A runtime to run the scripts on

    An in-memory file system with directories, a [sing-box] that is
    either installed (and then writes the compiled file) or missing, a
    clock that ticks on every reading, and [JSON.parse] on the template
    documents of the examples below.  The general statements do not
    depend on it; the examples and the counterexamples run on it. *)

Module TestEnv.

Record machine : Type := mkMachine {
  files : gmap string string;
  dirs : gset string;
  sing_box_installed : bool;
  clock : Z;
}.

Definition segments (p : string) : list string :=
  List.filter (λ x, negb (String.eqb x "") && negb (String.eqb x "."))
    (JsString.split p "/").

(** Resolve [..] against the segments before it. *)
Definition resolve (segs : list string) : list string :=
  rev (foldl (λ acc x, if String.eqb x ".." then tail acc else x :: acc)
         [] segs).

Definition unsegments (segs : list string) : string :=
  "/" +:+ Js.join "/" segs.

Definition join (a b : string) : string :=
  unsegments (resolve (segments (a +:+ "/" +:+ b))).

Definition dirname (p : string) : string :=
  unsegments (removelast (segments p)).

Definition strip_suffix (ext b : string) : string :=
  let n := String.length b - String.length ext in
  if String.eqb (String.substring n (String.length ext) b) ext
     && negb (String.eqb b ext)
  then String.substring 0 n b else b.

Definition basename (p ext : string) : string :=
  strip_suffix ext (default "" (last (segments p))).

Definition enoent (p : string) : exn :=
  Error ("ENOENT: no such file or directory, '" +:+ p +:+ "'").

Definition exists_ (w : machine) (p : string) : bool :=
  bool_decide (is_Some (files w !! p)) || bool_decide (p ∈ dirs w).

Definition readFile (w : machine) (p : string) : outcome string :=
  match files w !! p with
  | Some c => Ret c
  | None => Throw (enoent p)
  end.

Definition size (w : machine) (p : string) : outcome Z :=
  match files w !! p with
  | Some c => Ret (Z.of_nat (String.length c))
  | None => if bool_decide (p ∈ dirs w) then Ret 4096%Z
            else Throw (enoent p)
  end.

Definition readdir (w : machine) (p : string) : outcome (list string) :=
  if bool_decide (p ∈ dirs w) then
    Ret ((λ f, basename f "") <$>
           List.filter (λ f, String.eqb (dirname f) p)
             (map_to_list (files w)).*1)
  else Throw (enoent p).

Definition writeFile (w : machine) (p data : string) : outcome unit * machine :=
  if bool_decide (dirname p ∈ dirs w) then
    (Ret tt,
     mkMachine (<[p := data]> (files w)) (dirs w) (sing_box_installed w)
       (clock w))
  else (Throw (enoent p), w).

(** Every prefix of the segments of [p] becomes a directory. *)
Definition mkdir (w : machine) (p : string) : outcome unit * machine :=
  let segs := segments p in
  let made : list string :=
    (λ n, unsegments (take n segs)) <$> seq 0 (S (length segs)) in
  (Ret tt,
   mkMachine (files w) (list_to_set made ∪ dirs w) (sing_box_installed w)
     (clock w)).

Definition unlink (w : machine) (p : string) : outcome unit * machine :=
  match files w !! p with
  | Some _ =>
      (Ret tt,
       mkMachine (delete p (files w)) (dirs w) (sing_box_installed w)
         (clock w))
  | None => (Throw (enoent p), w)
  end.

Definition rmdir (w : machine) (p : string) : outcome unit * machine :=
  if bool_decide (p ∈ dirs w) then
    (Ret tt,
     mkMachine (files w) (dirs w ∖ {[p]}) (sing_box_installed w) (clock w))
  else (Throw (enoent p), w).

(** [sing-box rule-set compile --output OUT IN]: the two paths are
    the quoted parts of the command line. *)
Definition exec (w : machine) (cmd : string) : outcome unit * machine :=
  if sing_box_installed w then
    match JsString.split cmd "034" with
    | [_; out; _; inp; _] =>
        match files w !! inp with
        | Some c => writeFile w out ("SRS" +:+ c)
        | None => (Throw (Error ("Command failed: " +:+ cmd)), w)
        end
    | _ => (Throw (Error ("Command failed: " +:+ cmd)), w)
    end
  else (Throw (Error ("Command failed: " +:+ cmd)), w).

Definition tick (w : machine) : machine :=
  mkMachine (files w) (dirs w) (sing_box_installed w) (clock w + 1).

(** The documents are written with an apostrophe for each double
    quote. *)
Definition json (s : string) : string :=
  JsString.of_chars
    ((λ c, if bool_decide (c = "'"%char) then "034"%char else c)
       <$> JsString.chars s).

Definition template_text (version more : string) : string :=
  json ("{'version':" +:+ version +:+ ",'rules':{'domain-suffix':[]},"
        +:+ "'description':'Domains','type':'domain-suffix'" +:+ more
        +:+ "}").

Definition template_v1 : string := template_text "1" "".
Definition template_v2 : string := template_text "2" "".
Definition template_shadow : string :=
  template_text "1" ",'hasOwnProperty':true".

Definition template_fields (version : Z) : list (string * value) :=
  [("version", VNum version);
   ("rules", VObj [("domain-suffix", VArr [])]);
   ("description", VStr "Domains");
   ("type", VStr "domain-suffix")].

Definition parse (text : string) : outcome value :=
  if String.eqb text template_v1 then Ret (VObj (template_fields 1))
  else if String.eqb text template_v2 then Ret (VObj (template_fields 2))
  else if String.eqb text template_shadow then
    Ret (VObj (template_fields 1 ++ [("hasOwnProperty", VBool true)]))
  else Throw (Error "Unexpected token in JSON").

(** A serializer without indentation or escapes. *)
Fixpoint stringify (v : value) : string :=
  match v with
  | VUndefined | VNull => "null"
  | VBool true => "true"
  | VBool false => "false"
  | VNum n => pretty n
  | VStr s => dquote +:+ s +:+ dquote
  | VArr elems => "[" +:+ Js.join "," (map stringify elems) +:+ "]"
  | VObj props =>
      "{" +:+ Js.join ","
                (concat
                   (map (λ kv, match kv with
                               | (_, VUndefined) => []
                               | (k, x) =>
                                   [dquote +:+ k +:+ dquote +:+ ":"
                                    +:+ stringify x]
                               end) props))
      +:+ "}"
  end.

Global Instance env : NodeEnv machine := {|
  scripts_dirname := "/repo/scripts";
  utils_dirname := "/repo/scripts/utils";
  path_join := join;
  path_dirname := dirname;
  path_basename := basename;
  fs_existsSync := exists_;
  fs_readFileSync := readFile;
  fs_statSync_size := size;
  fs_readdirSync := readdir;
  fs_writeFileSync := writeFile;
  fs_mkdirSync := mkdir;
  fs_unlinkSync := unlink;
  fs_rmdirSync := rmdir;
  child_process_execSync := exec;
  Date_now := λ w, (clock w, tick w);
  Date_toISOString := λ w, ("2025-01-01T00:00:00.000Z", tick w);
  JSON_parse := parse;
  JSON_stringify := stringify;
|}.

(** A checkout with two of the seven sources, one of them without a
    valid rule, and three templates; [sing-box] installed or not. *)
Definition checkout (sing_box : bool) : machine :=
  mkMachine
    {[ "/repo/sources/direct-domains.txt" :=
         "example.com" +:+ nl +:+ "# comment" +:+ nl +:+ "bad_domain!" +:+ nl;
       "/repo/sources/direct-ips.txt" :=
         "10.0.0/8" +:+ nl +:+ "localhost" +:+ nl;
       "/repo/templates/domain-suffix.json" := template_v1;
       "/repo/templates/next.json" := template_v2;
       "/repo/templates/shadow.json" := template_shadow ]}
    {[ "/"; "/repo"; "/repo/scripts"; "/repo/scripts/utils";
       "/repo/sources"; "/repo/templates" ]}
    sing_box 1700000000000.

Definition start (w : machine) : state machine := mkState w [].

End TestEnv.

(** ** Notions used in the statements *)

(** A group of [lo] to [hi] decimal digits, the shape of an octet or of
    a prefix length in a CIDR. *)
Module CidrShape.

Definition is_digit (c : ascii) : bool :=
  let n := N_of_ascii c in ((48 <=? n) && (n <=? 57))%N.

Definition digits (lo hi : nat) (s : string) : bool :=
  let cs := JsString.chars s in
  (lo <=? length cs) && (length cs <=? hi) && forallb is_digit cs.

End CidrShape.

(** The rules that [getRuleStats] counts as empty, and the others. *)
Definition blank (rules : list string) : list string :=
  List.filter RuleParser.is_blank rules.

Definition nonblank (rules : list string) : list string :=
  List.filter (λ r, negb (RuleParser.is_blank r)) rules.

(** The loop of [getRuleStats] from given counters and [uniqueRules]. *)
Definition getRuleStats_loop (acc : RuleParser.RuleStats * gset string)
  (rules : list string) : RuleParser.RuleStats * gset string :=
  foldl RuleParser.getRuleStats_step acc rules.

(** The warning of the early return of [buildRule]: the first when
    the source has no rule line, the second when none is valid. *)
Definition skip_warning (rules : list string) (sourceFile : string)
  : string :=
  (if decide (rules = []) then "⚠️  No rules found in "
   else "⚠️  No valid rules found in ") +:+ sourceFile +:+ ", skipping...".

Section Notions.
Context {W : Type} `{NodeEnv W}.

(** The lines that [parseTextFile] finds at [filePath] in the world
    [w]: none when the file is absent. *)
Definition source_lines (w : W) (filePath : string)
  : outcome (list string) :=
  if fs_existsSync w filePath then
    match fs_readFileSync w filePath with
    | Ret content => Ret (RuleParser.parseContent content)
    | Throw e => Throw e
    end
  else Ret [].

(** Nothing in [printed] went through [console.error]. *)
Definition no_error (printed : list (level * string)) : Prop :=
  Forall (λ line, line.1 ≠ ErrorLevel) printed.

(** The state [s] after [printed] has been printed. *)
Definition printing (s : state W) (printed : list (level * string))
  : state W :=
  mkState (world s) (console s ++ printed).

End Notions.

(** * The rest of the scripts

    What follows models the functions that the statements above do not
    reach, and the notions in which their properties are stated. *)

(** ** Notions for the parser *)

(** "ASCII alphanumerics, underscore, hyphen, and dot": the characters
    of a process name. *)
Module ProcessGrammar.

Definition is_process_char (c : ascii) : bool :=
  DomainGrammar.is_alnum c
  || bool_decide (c = "_"%char) || bool_decide (c = "-"%char)
  || bool_decide (c = "."%char).

Definition is_process_name (s : string) : bool :=
  negb (bool_decide (s = "")) && forallb is_process_char (JsString.chars s).

End ProcessGrammar.

(** Four groups of one to three digits joined by dots, a slash, and one
    or two digits. *)
Definition ipv4_shape (s : string) : Prop :=
  ∃ a b c d p : string,
    s = a +:+ "." +:+ b +:+ "." +:+ c +:+ "." +:+ d +:+ "/" +:+ p
    ∧ CidrShape.digits 1 3 a = true ∧ CidrShape.digits 1 3 b = true
    ∧ CidrShape.digits 1 3 c = true ∧ CidrShape.digits 1 3 d = true
    ∧ CidrShape.digits 1 2 p = true.

(** A line as [parseTextFile] returns them: not empty, without white
    space at either end, and not a comment. *)
Definition is_clean_line (line : string) : Prop :=
  line ≠ ""
  ∧ JsString.trim line = line
  ∧ RuleParser.is_blank line = false
  ∧ JsString.startsWith line "#" = false
  ∧ JsString.startsWith line "//" = false.

(** The address part of the IPv6 pattern: what stands before [\/]. *)
Definition ipv6_address : Regex.regex :=
  match RuleParser.ipv6Regex with
  | Regex.Cat address _ => address
  | _ => Regex.Void
  end.

(** What holds of the outcome and of the state a computation ends in,
    when it is started in [s]. *)
Definition wp {S A} (m : M S A) (Q : outcome A → S → Prop) (s : S) : Prop :=
  Q (m s).1 (m s).2.

(** ** Notions for the validator *)

(** What [validateTemplate] asks of a parsed template: the four
    required fields are its own, [type] is a string that is not empty,
    and [rules] is an object or an array. *)
Definition well_formed_template (template : value) : Prop :=
  Forall (λ field, Js.call_hasOwnProperty template field = Ret true)
    RuleValidator.requiredFields
  ∧ (∃ type, Js.get template "type" = Ret (VStr type) ∧ type ≠ "")
  ∧ (∃ rules, Js.get template "rules" = Ret rules
              ∧ match rules with VArr _ | VObj _ => True | _ => False end).

Section ValidatorNotions.
Context {W : Type} `{NodeEnv W}.

(** The file at [templatePath] is there, can be read, parses, and is a
    well-formed template. *)
Definition accepted_template (w : W) (templatePath : string) : Prop :=
  fs_existsSync w templatePath = true
  ∧ ∃ content template,
      fs_readFileSync w templatePath = Ret content
      ∧ JSON_parse content = Ret template
      ∧ well_formed_template template.

End ValidatorNotions.

(** ** Notions for the builder *)

(** The config that an artifact of [buildRule] was built from. *)
Definition config_of (a : RuleBuilder.Artifact.t) : RuleBuilder.RuleConfig :=
  RuleBuilder.mkConfig (RuleBuilder.Artifact.type a)
    (RuleBuilder.Artifact.source a) (RuleBuilder.Artifact.output a).

(** [pat] occurs somewhere in [l]. *)
Fixpoint occurs_in (pat l : list ascii) : bool :=
  JsString.is_prefix pat l
  || match l with
     | [] => false
     | _ :: l' => occurs_in pat l'
     end.

(** ** [MetadataGenerator.simpleHash]

    The 32-bit operators of the language work on [ToInt32] of their
    operands; the subtraction and the addition between them are exact,
    their operands being far below [2^53]. *)

Module MetadataGenerator.

(** [ToInt32]: the integer in [[-2^31, 2^31)] that is congruent
    modulo [2^32]. *)
Definition to_int32 (n : Z) : Z := ((n + 2 ^ 31) mod 2 ^ 32 - 2 ^ 31)%Z.

(** [a << n] for [0 <= n < 32] *)
Definition shift_left (a n : Z) : Z := to_int32 (Z.shiftl (to_int32 a) n).

(** [a & b] *)
Definition bit_and (a b : Z) : Z :=
  to_int32 (Z.land (to_int32 a) (to_int32 b)).

Definition charCodeAt (c : ascii) : Z := Z.of_N (N_of_ascii c).

(** [n.toString(16)] for an integer [n >= 0] *)
Definition toString16 (n : Z) : string :=
  HexadecimalString.NilZero.string_of_uint (N.to_hex_uint (Z.to_N n)).

(** One turn of the loop: [hash = ((hash << 5) - hash) + char;
    hash = hash & hash]. *)
Definition simpleHash_step (hash : Z) (c : ascii) : Z :=
  let char := charCodeAt c in
  let hash := (shift_left hash 5 - hash + char)%Z in
  bit_and hash hash.

Definition simpleHash (str : string) : string :=
  if bool_decide (length (JsString.chars str) = 0) then toString16 0
  else toString16 (Z.abs (foldl simpleHash_step 0%Z (JsString.chars str))).

End MetadataGenerator.

(** The value at [31] of the polynomial whose coefficients are the
    character codes, the first character the leading one. *)
Definition polynomial31 (l : list ascii) : Z :=
  foldl (λ h c, 31 * h + MetadataGenerator.charCodeAt c)%Z 0%Z l.

(** * Properties *)

(** ** The matcher decides the language *)

Module RegexFacts.
Import Regex.

Lemma nullable_lang r : nullable r = true ↔ lang r [].
Proof.
  induction r as [| |rs|a IHa b IHb|a IHa b IHb|a IHa]; simpl.
  - split; [discriminate|tauto].
  - tauto.
  - split; [discriminate|]. intros (c & Hc & _). discriminate.
  - rewrite andb_true_iff, IHa, IHb. split.
    + intros [Ha Hb]. by exists [], [].
    + intros (u & v & Huv & Ha & Hb).
      symmetry in Huv. apply app_eq_nil in Huv as [-> ->]. tauto.
  - rewrite orb_true_iff, IHa, IHb. tauto.
  - split; [|tauto]. intros _. exists []. by split; [|constructor].
Qed.

Lemma lang_cat a b w : lang (cat a b) w ↔ lang (Cat a b) w.
Proof.
  destruct a; simpl;
    try (destruct b; simpl; try tauto; split; [tauto|];
         intros (u & v & _ & _ & []));
    split; try tauto.
  - intros (u & v & _ & [] & _).
  - intros Hb. by exists [], w.
  - intros (u & v & -> & -> & Hb). done.
Qed.

Lemma lang_alt a b w : lang (alt a b) w ↔ lang (Alt a b) w.
Proof.
  destruct a; simpl; try (destruct b; simpl; tauto); tauto.
Qed.

Lemma star_cons a c w :
  lang (Star a) (c :: w) ↔
  ∃ u v, w = u ++ v ∧ lang a (c :: u) ∧ lang (Star a) v.
Proof.
  simpl. split.
  - intros (us & Hw & Hus). induction Hus as [|u us Hu Hus IH].
    + discriminate.
    + destruct u as [|c' u]; simpl in Hw; [by apply IH|].
      injection Hw as <- ->. exists u, (concat us). eauto.
  - intros (u & v & -> & Hu & us & -> & Hus).
    exists ((c :: u) :: us). split; [done|by constructor].
Qed.

Lemma der_lang c r : ∀ w, lang (der c r) w ↔ lang r (c :: w).
Proof.
  induction r as [| |rs|a IHa b IHb|a IHa b IHb|a IHa]; intros w.
  - done.
  - simpl. split; [tauto|discriminate].
  - simpl. destruct (in_class rs c) eqn:Hc; simpl.
    + split; [intros ->; eauto|]. intros (c' & [= <- ->] & _). done.
    + split; [tauto|]. intros (c' & [= <- ->] & Hc'). congruence.
  - cbn [der]. rewrite lang_alt. cbn [lang]. rewrite lang_cat. split.
    + intros [(u & v & -> & Hu & Hv)|Hb].
      * exists (c :: u), v. rewrite <-IHa. done.
      * destruct (nullable a) eqn:Hn; [|done].
        exists [], (c :: w). rewrite <-IHb, <-nullable_lang. done.
    + intros (u & v & Huv & Hu & Hv). destruct u as [|c' u].
      * right. simpl in Huv. subst v.
        apply nullable_lang in Hu. rewrite Hu. by apply IHb.
      * left. injection Huv as <- ->. exists u, v. by rewrite IHa.
  - cbn [der]. rewrite lang_alt. simpl. by rewrite IHa, IHb.
  - cbn [der]. rewrite lang_cat, star_cons. cbn [lang].
    split; intros (u & v & -> & Hu & Hv); exists u, v;
      (split; [done|]); (split; [by apply IHa|done]).
Qed.

Theorem matches_lang r w : matches r w = true ↔ lang r w.
Proof.
  unfold matches. revert r.
  induction w as [|c w IH]; intros r; simpl.
  - apply nullable_lang.
  - by rewrite IH, der_lang.
Qed.

End RegexFacts.

(** ** The pattern of [isValidDomain] is the hostname grammar *)

Module DomainFacts.
Import Regex RegexFacts RuleParser DomainGrammar.

Lemma alnum_class c : in_class alnum c = is_alnum c.
Proof. by destruct c as [[] [] [] [] [] [] [] []]. Qed.

Lemma alnum_hyphen_class c :
  in_class alnum_hyphen c = is_alnum c || is_hyphen c.
Proof. by destruct c as [[] [] [] [] [] [] [] []]. Qed.

Lemma dot_class c : in_class [(".", ".")%char] c = bool_decide (c = "."%char).
Proof. by destruct c as [[] [] [] [] [] [] [] []]. Qed.

Lemma alnum_not_hyphen c : is_alnum c = true → c ≠ "-"%char.
Proof. by intros H ->. Qed.

Lemma lang_Chr c w : lang (Chr c) w ↔ w = [c].
Proof.
  unfold Chr, lang, in_class, in_range; simpl. split.
  - intros (c' & -> & H). f_equal.
    rewrite orb_false_r, andb_true_iff, !N.leb_le in H.
    assert (N_of_ascii c' = N_of_ascii c) as Hn by lia.
    rewrite <-(ascii_N_embedding c), <-(ascii_N_embedding c'). by rewrite Hn.
  - intros ->. exists c. split; [done|].
    by rewrite orb_false_r, andb_true_iff, !N.leb_le.
Qed.

(** [[...]{0,n}]: at most [n] characters of the class. *)
Lemma lang_UpTo_Cls rs n w :
  lang (UpTo n (Cls rs)) w ↔
  length w ≤ n ∧ forallb (in_class rs) w = true.
Proof.
  revert w. induction n as [|n IH]; intros w; simpl.
  - split; [by intros ->|]. intros [Hl _]. destruct w; [done|simpl in Hl; lia].
  - split.
    + intros [(u & v & -> & (c & -> & Hc) & Hv)| ->]; simpl;
        [|split; [lia|done]].
      apply IH in Hv as [Hl Hv]. rewrite Hc, Hv. split; [lia|done].
    + intros [Hl Hw]. destruct w as [|c w]; [by right|left].
      simpl in Hl, Hw. apply andb_true_iff in Hw as [Hc Hw].
      exists [c], w. split; [done|]. split; [by exists c|].
      apply IH. split; [lia|done].
Qed.

Lemma lang_Rep0_Cls rs n w :
  lang (Rep (Cls rs) 0 n) w ↔
  length w ≤ n ∧ forallb (in_class rs) w = true.
Proof.
  unfold Rep. rewrite Nat.sub_0_r. cbn [Times lang].
  rewrite <-lang_UpTo_Cls. split.
  - by intros (u & v & -> & -> & Hv).
  - intros Hw. by exists [], w.
Qed.

Lemma forallb_alnum_hyphen w :
  forallb (in_class alnum_hyphen) w
  = forallb (λ c, is_alnum c || is_hyphen c) w.
Proof.
  induction w as [|c w IH]; cbn [forallb]; [done|].
  by rewrite alnum_hyphen_class, IH.
Qed.

Lemma is_label_single a : is_alnum a = true → is_label [a] = true.
Proof.
  intros Ha. unfold is_label; simpl. rewrite Ha; simpl.
  pose proof (alnum_not_hyphen a Ha).
  rewrite !bool_decide_eq_false_2 by congruence. done.
Qed.

Lemma is_label_long a m b :
  is_alnum a = true → is_alnum b = true → length m ≤ 61 →
  forallb (λ c, is_alnum c || is_hyphen c) m = true →
  is_label (a :: m ++ [b]) = true.
Proof.
  intros Ha Hb Hl Hm. unfold is_label.
  rewrite last_cons, last_snoc. cbn [head length].
  rewrite length_app; cbn [length].
  cbn [forallb]. rewrite forallb_app; cbn [forallb].
  rewrite Ha, Hb, Hm.
  pose proof (alnum_not_hyphen a Ha). pose proof (alnum_not_hyphen b Hb).
  rewrite !bool_decide_eq_false_2 by congruence.
  rewrite !andb_true_r. simpl.
  apply Nat.leb_le. lia.
Qed.

Lemma is_label_inv w :
  is_label w = true →
  ∃ a, is_alnum a = true ∧
    (w = [a] ∨
     ∃ m b, w = a :: m ++ [b] ∧ is_alnum b = true ∧ length m ≤ 61
            ∧ forallb (λ c, is_alnum c || is_hyphen c) m = true).
Proof.
  unfold is_label. rewrite !andb_true_iff, !negb_true_iff.
  intros ((((Hlo & Hhi) & Hall) & Hhd) & Hla).
  apply bool_decide_eq_false in Hhd, Hla.
  apply Nat.leb_le in Hhi.
  destruct w as [|a v]; [done|].
  simpl in Hall. apply andb_true_iff in Hall as [Ha Hv].
  assert (is_alnum a = true) as Ha'.
  { apply orb_true_iff in Ha as [Ha|Ha]; [done|].
    apply bool_decide_eq_true in Ha. simpl in Hhd. congruence. }
  exists a. split; [done|].
  destruct (decide (v = [])) as [->|Hne]; [by left|right].
  destruct (exists_last Hne) as (m & b & ->).
  rewrite forallb_app in Hv. cbn [forallb] in Hv.
  rewrite andb_true_r in Hv. apply andb_true_iff in Hv as [Hm Hb].
  rewrite last_cons, last_snoc in Hla.
  exists m, b. split; [done|]. cbn [length] in Hhi.
  rewrite length_app in Hhi. simpl in Hhi. repeat split; [|lia|done].
  apply orb_true_iff in Hb as [Hb|Hb]; [done|].
  apply bool_decide_eq_true in Hb. congruence.
Qed.

Theorem lang_labelRegex w : lang labelRegex w ↔ is_label w = true.
Proof.
  unfold labelRegex. split.
  - intros (u & v & -> & (a & -> & Ha) & Hv).
    rewrite alnum_class in Ha.
    destruct Hv as [(m & e & -> & Hm & (b & -> & Hb))| ->].
    + rewrite alnum_class in Hb.
      apply lang_Rep0_Cls in Hm as [Hl Hm].
      rewrite forallb_alnum_hyphen in Hm.
      by apply is_label_long.
    + by apply is_label_single.
  - intros (a & Ha & Hw)%is_label_inv.
    rewrite <-alnum_class in Ha.
    destruct Hw as [->|(m & b & -> & Hb & Hl & Hm)].
    + exists [a], []. split; [done|]. split; [by exists a|by right].
    + exists [a], (m ++ [b]). split; [done|]. split; [by exists a|left].
      exists m, [b]. split; [done|]. split.
      * apply lang_Rep0_Cls. by rewrite forallb_alnum_hyphen.
      * exists b. by rewrite alnum_class.
Qed.

(** Splitting at a separator, and joining again. *)
Lemma split_on_fresh sep l :
  sep ∉ l → JsString.split_on sep l = [l].
Proof.
  induction l as [|c l IH]; intros Hl; simpl; [done|].
  apply not_elem_of_cons in Hl as [Hc Hl].
  destruct (decide (c = sep)); [congruence|]. by rewrite IH.
Qed.

Lemma split_on_app sep l r :
  sep ∉ l →
  JsString.split_on sep (l ++ sep :: r) = l :: JsString.split_on sep r.
Proof.
  induction l as [|c l IH]; intros Hl; simpl.
  - by destruct (decide (sep = sep)).
  - apply not_elem_of_cons in Hl as [Hc Hl].
    destruct (decide (c = sep)); [congruence|]. by rewrite IH.
Qed.

Lemma split_on_join sep w :
  ∃ p ps, JsString.split_on sep w = p :: ps
          ∧ w = p ++ concat (cons sep <$> ps).
Proof.
  induction w as [|c w (p & ps & Hs & Hw)]; simpl.
  - by exists [], [].
  - destruct (decide (c = sep)) as [->|Hc].
    + exists [], (p :: ps). rewrite Hs. split; [done|].
      change (sep :: w = sep :: (p ++ concat (cons sep <$> ps))). by f_equal.
    + rewrite Hs. exists (c :: p), ps. split; [done|].
      change (c :: w = c :: (p ++ concat (cons sep <$> ps))). by f_equal.
Qed.

Lemma label_no_dot l : is_label l = true → "."%char ∉ l.
Proof.
  unfold is_label. rewrite !andb_true_iff. intros (((_ & Hall) & _) & _).
  induction l as [|c l IH]; [apply not_elem_of_nil|].
  simpl in Hall. apply andb_true_iff in Hall as [Hc Hl].
  apply not_elem_of_cons. split; [|by apply IH].
  intros <-. done.
Qed.

Lemma lang_dot_label u :
  lang (Cat (Chr ".") labelRegex) u ↔
  ∃ l, u = "."%char :: l ∧ is_label l = true.
Proof.
  cbn [lang]. split.
  - intros (d & l & -> & ->%lang_Chr & Hl%lang_labelRegex). eauto.
  - intros (l & -> & Hl). exists ["."%char], l.
    split; [done|]. split; [by apply lang_Chr|by apply lang_labelRegex].
Qed.

Lemma split_labels us : ∀ l,
  is_label l = true →
  Forall (lang (Cat (Chr ".") labelRegex)) us →
  forallb is_label (JsString.split_on "." (l ++ concat us)) = true.
Proof.
  induction us as [|u us IH]; intros l Hl Hus.
  - simpl. rewrite app_nil_r, split_on_fresh by by apply label_no_dot.
    simpl. by rewrite Hl.
  - apply Forall_cons in Hus as [(l' & -> & Hl')%lang_dot_label Hus].
    cbn [concat]. rewrite <-app_comm_cons.
    rewrite split_on_app by by apply label_no_dot.
    cbn [forallb]. by rewrite Hl, IH.
Qed.

Lemma join_labels ps :
  forallb is_label ps = true →
  Forall (lang (Cat (Chr ".") labelRegex)) (cons "."%char <$> ps).
Proof.
  induction ps as [|p ps IH]; simpl; [constructor|].
  intros [Hp Hps]%andb_true_iff. constructor; [|by apply IH].
  apply lang_dot_label. eauto.
Qed.

Theorem lang_domainRegex w :
  lang domainRegex w ↔
  forallb is_label (JsString.split_on "." w) = true.
Proof.
  unfold domainRegex. split.
  - intros (l & v & -> & Hl%lang_labelRegex & us & -> & Hus).
    by apply split_labels.
  - destruct (split_on_join "." w) as (p & ps & Hs & Hw).
    rewrite Hs. cbn [forallb]. intros [Hp Hps]%andb_true_iff.
    exists p, (concat (cons "."%char <$> ps)).
    split; [done|]. split; [by apply lang_labelRegex|].
    eexists. split; [done|]. by apply join_labels.
Qed.

Lemma chars_of_chars l : JsString.chars (JsString.of_chars l) = l.
Proof. apply String.list_ascii_of_string_of_list_ascii. Qed.

Lemma of_chars_chars s : JsString.of_chars (JsString.chars s) = s.
Proof. apply String.string_of_list_ascii_of_string. Qed.

(** The [startsWith]/[slice] pair of the source strips one leading dot. *)
Lemma cleanDomain_strip domain :
  (if JsString.startsWith domain "." then JsString.slice domain 1
   else domain) = strip_leading_dot domain.
Proof.
  destruct domain as [|c s]; [done|].
  unfold JsString.startsWith, JsString.slice, strip_leading_dot.
  cbn [String.prefix JsString.chars String.list_ascii_of_string drop].
  destruct (ascii_dec "." c) as [<-|Hc].
  - destruct s; simpl; [done|]. f_equal. apply of_chars_chars.
  - destruct c as [[] [] [] [] [] [] [] []]; congruence.
Qed.

(** [isValidDomain] accepts exactly the names of the grammar. *)
Theorem isValidDomain_grammar domain :
  isValidDomain domain = is_domain_suffix domain.
Proof.
  unfold isValidDomain, is_domain_suffix, is_hostname, labels.
  case_bool_decide as Hd; [by subst|].
  rewrite cleanDomain_strip. unfold test.
  apply eq_true_iff_eq. rewrite matches_lang. apply lang_domainRegex.
Qed.

End DomainFacts.

(** ** The counters of [getRuleStats] *)

Module StatsFacts.
Import RuleParser.

Lemma loop_total rules : ∀ acc,
  total (getRuleStats_loop acc rules).1 = total acc.1.
Proof.
  unfold getRuleStats_loop.
  induction rules as [|r rules IH]; intros [st seen]; [done|].
  simpl. rewrite IH. unfold getRuleStats_step.
  destruct (is_blank r); [done|]. by case_bool_decide.
Qed.

Lemma loop_empty rules : ∀ acc,
  empty (getRuleStats_loop acc rules).1 = empty acc.1 + length (blank rules).
Proof.
  unfold getRuleStats_loop, blank.
  induction rules as [|r rules IH]; intros [st seen]; simpl; [lia|].
  rewrite IH. unfold getRuleStats_step.
  destruct (is_blank r); simpl; [lia|]. by case_bool_decide.
Qed.

Lemma loop_seen rules : ∀ acc,
  (getRuleStats_loop acc rules).2 = acc.2 ∪ list_to_set (nonblank rules).
Proof.
  unfold getRuleStats_loop, nonblank.
  induction rules as [|r rules IH]; intros [st seen]; simpl.
  - set_solver.
  - rewrite IH. unfold getRuleStats_step.
    destruct (is_blank r); simpl; [done|].
    case_bool_decide; simpl; set_solver.
Qed.

Lemma loop_valid rules : ∀ acc,
  valid (getRuleStats_loop acc rules).1
  = valid acc.1 + size (list_to_set (nonblank rules) ∖ acc.2 : gset string).
Proof.
  unfold getRuleStats_loop, nonblank.
  induction rules as [|r rules IH]; intros [st seen]; simpl.
  - replace (∅ ∖ seen) with (∅ : gset string) by set_solver.
    rewrite size_empty. lia.
  - rewrite IH. unfold getRuleStats_step.
    destruct (is_blank r); simpl; [done|].
    set (X := list_to_set _ : gset string). clearbody X.
    case_bool_decide as Hr; simpl.
    + f_equal. f_equal. set_solver.
    + replace (({[r]} ∪ X) ∖ seen) with ({[r]} ∪ X ∖ ({[r]} ∪ seen)).
      2:{ apply set_eq. intros x. destruct (decide (x = r)); set_solver. }
      assert ({[r]} ## X ∖ ({[r]} ∪ seen)) as Hdisj by set_solver.
      rewrite (size_union _ _ Hdisj), size_singleton. lia.
Qed.

Lemma loop_occurrences rules : ∀ acc,
  valid (getRuleStats_loop acc rules).1
  + duplicate (getRuleStats_loop acc rules).1
  = valid acc.1 + duplicate acc.1 + length (nonblank rules).
Proof.
  unfold getRuleStats_loop, nonblank.
  induction rules as [|r rules IH]; intros [st seen]; simpl; [lia|].
  rewrite IH. unfold getRuleStats_step.
  destruct (is_blank r); simpl; [lia|]. case_bool_decide; simpl; lia.
Qed.

Lemma length_blank_nonblank rules :
  length (blank rules) + length (nonblank rules) = length rules.
Proof.
  unfold blank, nonblank. induction rules as [|r rules IH]; simpl; [done|].
  destruct (is_blank r); simpl; lia.
Qed.

Lemma size_distinct (l : list string) :
  size (list_to_set l : gset string) = length (remove_dups l).
Proof.
  rewrite <-(size_list_to_set (C := gset string) (remove_dups l))
    by apply NoDup_remove_dups.
  f_equal. apply set_eq. intros x.
  by rewrite !elem_of_list_to_set, elem_of_remove_dups.
Qed.

Lemma elem_of_nonblank r rules :
  r ∈ nonblank rules ↔ r ∈ rules ∧ is_blank r = false.
Proof.
  unfold nonblank. rewrite list_elem_of_In, filter_In, <-list_elem_of_In.
  by rewrite negb_true_iff.
Qed.

(** The loop after one more rule. *)
Lemma loop_snoc acc pre r :
  getRuleStats_loop acc (pre ++ [r])
  = getRuleStats_step (getRuleStats_loop acc pre) r.
Proof. unfold getRuleStats_loop. by rewrite foldl_app. Qed.

(** The initial [total] is carried through unchanged and nothing else
    depends on it. *)
Lemma loop_set_total rules : ∀ t st seen,
  getRuleStats_loop (mkStats t (empty st) (duplicate st) (valid st), seen) rules
  = (mkStats t (empty (getRuleStats_loop (st, seen) rules).1)
       (duplicate (getRuleStats_loop (st, seen) rules).1)
       (valid (getRuleStats_loop (st, seen) rules).1),
     (getRuleStats_loop (st, seen) rules).2).
Proof.
  unfold getRuleStats_loop.
  induction rules as [|r rules IH]; intros t st seen; [done|].
  cbn [foldl]. unfold getRuleStats_step at 2 4 6 8 10.
  destruct (is_blank r).
  - by rewrite <-IH.
  - case_bool_decide; by rewrite <-IH.
Qed.

End StatsFacts.

(** ** Running the monad *)

Section MonadFacts.
Context {S : Type}.

Lemma bind_run {A B} (m : M S A) (k : A → M S B) s :
  (m ≫= k) s
  = match m s with
    | (Ret a, s') => k a s'
    | (Throw e, s') => (Throw e, s')
    end.
Proof. done. Qed.

Lemma mret_run {A} (a : A) (s : S) : (mret a : M S A) s = (Ret a, s).
Proof. done. Qed.

Lemma prim_run {A} (o : outcome A) (s : S) : prim o s = (o, s).
Proof. done. Qed.

Lemma bind_ret {A B} (m : M S A) (k : A → M S B) s a s' :
  m s = (Ret a, s') → (m ≫= k) s = k a s'.
Proof. intros Hm. by rewrite bind_run, Hm. Qed.

Lemma bind_throw {A B} (m : M S A) (k : A → M S B) s e s' :
  m s = (Throw e, s') → (m ≫= k) s = (Throw e, s').
Proof. intros Hm. by rewrite bind_run, Hm. Qed.

Lemma never_throws_ret {A} (a : A) : never_throws (mret a : M S A).
Proof. intros s. by exists a, s. Qed.

Lemma never_throws_bind {A B} (m : M S A) (k : A → M S B) :
  never_throws m → (∀ a, never_throws (k a)) → never_throws (m ≫= k).
Proof.
  intros Hm Hk s. destruct (Hm s) as (a & s' & Hs).
  rewrite (bind_ret _ _ _ _ _ Hs). apply Hk.
Qed.

Lemma never_throws_try_catch {A} (body : M S A) (handler : exn → M S A) :
  (∀ e, never_throws (handler e)) → never_throws (try_catch body handler).
Proof.
  intros Hh s. unfold try_catch.
  destruct (body s) as [[a|e] s']; [by exists a, s'|apply Hh].
Qed.

Lemma never_throws_for_each {A} (l : list A) (body : A → M S unit) :
  (∀ x, never_throws (body x)) → never_throws (for_each l body).
Proof.
  intros Hb. induction l as [|x l IH]; simpl.
  - apply (never_throws_ret tt).
  - apply (never_throws_bind (body x)); [apply Hb|by intros _].
Qed.

End MonadFacts.

(** ** The IPv4 pattern of [isValidCidr] *)

Module CidrFacts.
Import Regex RegexFacts RuleParser CidrShape.

Lemma digit_class c : in_class digit c = is_digit c.
Proof. by destruct c as [[] [] [] [] [] [] [] []]. Qed.

Lemma lang_Times_Cls rs n w :
  lang (Times n (Cls rs)) w ↔
  length w = n ∧ forallb (in_class rs) w = true.
Proof.
  revert w. induction n as [|n IH]; intros w; simpl.
  - split; [by intros ->|]. intros [Hl _]. by destruct w.
  - split.
    + intros (u & v & -> & (c & -> & Hc) & (Hl & Hv)%IH). simpl.
      rewrite Hc, Hv, Hl. done.
    + intros [Hl Hw]. destruct w as [|c w]; [done|].
      simpl in Hl, Hw. apply andb_true_iff in Hw as [Hc Hw].
      exists [c], w. split; [done|]. split; [by exists c|].
      apply IH. split; [lia|done].
Qed.

(** [[...]{lo,hi}]: between [lo] and [hi] characters of the class. *)
Lemma lang_Rep_Cls rs lo hi w :
  lo ≤ hi →
  lang (Rep (Cls rs) lo hi) w ↔
  lo ≤ length w ≤ hi ∧ forallb (in_class rs) w = true.
Proof.
  intros Hlh. unfold Rep. cbn [lang]. split.
  - intros (u & v & -> & (Hlu & Hu)%lang_Times_Cls
              & (Hlv & Hv)%DomainFacts.lang_UpTo_Cls).
    rewrite length_app, forallb_app, Hu, Hv. split; [lia|done].
  - intros [Hl Hw]. exists (take lo w), (drop lo w).
    rewrite <-(take_drop lo w), forallb_app in Hw.
    apply andb_true_iff in Hw as [Hu Hv].
    split; [by rewrite take_drop|]. split.
    + apply lang_Times_Cls. rewrite length_take. split; [lia|done].
    + apply DomainFacts.lang_UpTo_Cls. rewrite length_drop.
      split; [lia|done].
Qed.

Lemma lang_digits lo hi s :
  lo ≤ hi → digits lo hi s = true →
  lang (Rep (Cls digit) lo hi) (JsString.chars s).
Proof.
  intros Hlh. unfold digits.
  rewrite !andb_true_iff, !Nat.leb_le. intros [[Hlo Hhi] Hd].
  apply lang_Rep_Cls; [done|]. split; [done|].
  clear Hlo Hhi. induction (JsString.chars s) as [|c cs IH]; [done|].
  simpl in Hd. apply andb_true_iff in Hd as [Hc Hcs].
  cbn [forallb]. by rewrite digit_class, Hc, IH.
Qed.

Lemma lang_Cat_app a b u v : lang a u → lang b v → lang (Cat a b) (u ++ v).
Proof. intros Hu Hv. by exists u, v. Qed.

Lemma lang_octet_dot u :
  lang (Rep (Cls digit) 1 3) u →
  lang (Cat (Rep (Cls digit) 1 3) (Chr ".")) (u ++ ["."%char]).
Proof.
  intros Hu. apply lang_Cat_app; [done|]. by apply DomainFacts.lang_Chr.
Qed.

(** Four groups of one to three digits and a prefix of one or two. *)
Lemma lang_ipv4Regex a b c d p :
  lang (Rep (Cls digit) 1 3) a → lang (Rep (Cls digit) 1 3) b →
  lang (Rep (Cls digit) 1 3) c → lang (Rep (Cls digit) 1 3) d →
  lang (Rep (Cls digit) 1 2) p →
  lang ipv4Regex
    (a ++ "."%char :: b ++ "."%char :: c ++ "."%char :: d ++ "/"%char :: p).
Proof.
  intros Ha Hb Hc Hd Hp. unfold ipv4Regex.
  replace (a ++ "."%char :: b ++ "."%char :: c ++ "."%char :: d
             ++ "/"%char :: p)
    with ((((a ++ ["."%char]) ++ (b ++ ["."%char]) ++ (c ++ ["."%char]) ++ [])
           ++ [])
          ++ d ++ ["/"%char] ++ p)
    by (rewrite !app_nil_r, <-!app_assoc; done).
  apply lang_Cat_app.
  - unfold Rep. cbn [Nat.sub Times UpTo].
    apply lang_Cat_app; [|done].
    repeat (apply lang_Cat_app; [by apply lang_octet_dot|]). done.
  - apply lang_Cat_app; [done|].
    apply lang_Cat_app; [by apply DomainFacts.lang_Chr|done].
Qed.

Lemma chars_app s t :
  JsString.chars (s +:+ t) = JsString.chars s ++ JsString.chars t.
Proof.
  unfold JsString.chars. induction s as [|c s IH]; simpl; [done|].
  by rewrite IH.
Qed.

Lemma chars_nil s : JsString.chars s = [] → s = "".
Proof. by destruct s. Qed.

End CidrFacts.

(** ** Filtering a list of rules *)

Module FilterFacts.

Lemma filter_sublist {A} (f : A → bool) l : List.filter f l `sublist_of` l.
Proof.
  induction l as [|x l IH]; simpl; [constructor|].
  destruct (f x); by constructor.
Qed.

Lemma filter_idempotent {A} (f : A → bool) l :
  List.filter f (List.filter f l) = List.filter f l.
Proof.
  induction l as [|x l IH]; simpl; [done|].
  destruct (f x) eqn:Hx; simpl; [|done]. by rewrite Hx, IH.
Qed.

Lemma filter_all {A} (l : list A) : List.filter (λ _, true) l = l.
Proof. induction l as [|x l IH]; simpl; [done|]. by rewrite IH. Qed.

End FilterFacts.

(** * The rule parser *)

Section ParserClaims.
Import RuleParser.

(** C3: [getRuleStats] makes a single pass from left to right.  The
    rule that follows the rules [pre] adds one to [total] and to
    exactly one other counter: to [empty] when it is blank, else to
    [duplicate] when it already occurs in [pre], else to [valid].  On
    [["a"; "b"; "a"; ""; "c"]] the counters are total 5, empty 1,
    duplicate 1, valid 3, and on every list
    [valid + duplicate + empty = total]. *)
Theorem C3_getRuleStats_single_pass :
  (∀ (pre : list string) (rule : string),
     let before := getRuleStats pre in
     let after := getRuleStats (pre ++ [rule]) in
     total after = S (total before)
     ∧ (empty after, duplicate after, valid after)
       = if is_blank rule
         then (S (empty before), duplicate before, valid before)
         else if bool_decide (rule ∈ pre)
         then (empty before, S (duplicate before), valid before)
         else (empty before, duplicate before, S (valid before)))
  ∧ getRuleStats ["a"; "b"; "a"; ""; "c"] = mkStats 5 1 1 3
  ∧ (∀ rules : list string,
       valid (getRuleStats rules) + duplicate (getRuleStats rules)
       + empty (getRuleStats rules) = total (getRuleStats rules)).
Proof.
  split; [|split].
  - intros pre rule before after. subst before after. unfold getRuleStats.
    fold (getRuleStats_loop (mkStats (length (pre ++ [rule])) 0 0 0, ∅)
            (pre ++ [rule])).
    fold (getRuleStats_loop (mkStats (length pre) 0 0 0, ∅) pre).
    rewrite StatsFacts.loop_snoc.
    rewrite (StatsFacts.loop_set_total pre (length (pre ++ [rule]))
               (mkStats (length pre) 0 0 0) ∅).
    pose proof (StatsFacts.loop_seen pre (mkStats (length pre) 0 0 0, ∅))
      as Hseen.
    pose proof (StatsFacts.loop_total pre (mkStats (length pre) 0 0 0, ∅))
      as Htotal.
    destruct (getRuleStats_loop _ pre) as [st seen].
    simpl in Hseen, Htotal. subst seen. unfold getRuleStats_step.
    cbn [fst snd total empty duplicate valid].
    rewrite length_app. simpl length.
    destruct (is_blank rule) eqn:Hb; simpl; [split; [lia|done]|].
    assert (rule ∈ (∅ ∪ list_to_set (nonblank pre) : gset string)
            ↔ rule ∈ pre) as Hin.
    { rewrite elem_of_union, elem_of_list_to_set,
        StatsFacts.elem_of_nonblank. set_solver. }
    case_bool_decide as H1; case_bool_decide as H2; simpl;
      try tauto; (split; [lia|done]).
  - done.
  - intros rules. unfold getRuleStats.
    fold (getRuleStats_loop (mkStats (length rules) 0 0 0, ∅) rules).
    rewrite StatsFacts.loop_total, StatsFacts.loop_empty,
      StatsFacts.loop_occurrences.
    simpl. pose proof (StatsFacts.length_blank_nonblank rules). lia.
Qed.

(** C10: every blank rule is counted as empty, however often it is
    repeated; [valid] is the number of distinct rules among the others,
    and [duplicate] the number of the others minus that. *)
Theorem C10_getRuleStats_blank_never_duplicate (rules : list string) :
  empty (getRuleStats rules) = length (blank rules)
  ∧ valid (getRuleStats rules) = length (remove_dups (nonblank rules))
  ∧ duplicate (getRuleStats rules)
    = length (nonblank rules) - length (remove_dups (nonblank rules)).
Proof.
  unfold getRuleStats.
  fold (getRuleStats_loop (mkStats (length rules) 0 0 0, ∅) rules).
  pose proof (StatsFacts.loop_occurrences rules
                (mkStats (length rules) 0 0 0, ∅)) as Hocc.
  rewrite StatsFacts.loop_empty. rewrite StatsFacts.loop_valid in Hocc |- *.
  simpl in Hocc |- *.
  replace (list_to_set (nonblank rules) ∖ ∅)
    with (list_to_set (nonblank rules) : gset string) in * by set_solver.
  rewrite StatsFacts.size_distinct in *. lia.
Qed.

(** C4: for a type that is none of [domain-suffix], [ip-cidr] and
    [process-name], [filterValidRules] returns its input; for each of
    the three it keeps the rules that satisfy [isValidDomain],
    [isValidCidr], [isValidProcessName]. *)
Theorem C4_filterValidRules_by_type :
  (∀ (rules : list string) (type : string),
     type ∉ ["domain-suffix"; "ip-cidr"; "process-name"] →
     filterValidRules rules type = rules)
  ∧ (∀ rules : list string,
       filterValidRules rules "domain-suffix"
       = List.filter isValidDomain rules)
  ∧ (∀ rules : list string,
       filterValidRules rules "ip-cidr" = List.filter isValidCidr rules)
  ∧ (∀ rules : list string,
       filterValidRules rules "process-name"
       = List.filter isValidProcessName rules).
Proof.
  split; [|done].
  intros rules type Htype. unfold filterValidRules.
  rewrite !not_elem_of_cons in Htype. destruct Htype as (H1 & H2 & H3 & _).
  apply String.eqb_neq in H1, H2, H3. rewrite H1, H2, H3.
  apply FilterFacts.filter_all.
Qed.

Lemma C4_witness :
  filterValidRules ["a_b"; "1.2.3.4"] "domain" = ["a_b"; "1.2.3.4"].
Proof.
  apply (proj1 C4_filterValidRules_by_type).
  rewrite !not_elem_of_cons. repeat split; try discriminate.
  apply not_elem_of_nil.
Defined.

(** C9: [filterValidRules] returns a subsequence of its input, in the
    same order, and filtering a second time changes nothing. *)
Theorem C9_filterValidRules_subsequence_idempotent
    (rules : list string) (type : string) :
  filterValidRules rules type `sublist_of` rules
  ∧ filterValidRules (filterValidRules rules type) type
    = filterValidRules rules type.
Proof.
  unfold filterValidRules. split.
  - apply FilterFacts.filter_sublist.
  - apply FilterFacts.filter_idempotent.
Qed.

(** C5: [isValidDomain] strips one leading dot and accepts exactly the
    names whose labels, the pieces between the dots, have 1 to 63
    letters, digits or hyphens and neither start nor end with a hyphen.
    ["example.com"] and [".example.com"] are accepted, ["-bad-.com"] is
    not, and neither is a name with an empty label, with a label that
    starts with a hyphen, or with a label made of underscores. *)
Theorem C5_isValidDomain_label_grammar :
  (∀ domain : string,
     isValidDomain domain = DomainGrammar.is_domain_suffix domain)
  ∧ isValidDomain "example.com" = true
  ∧ isValidDomain ".example.com" = true
  ∧ isValidDomain "..example.com" = false
  ∧ isValidDomain "-bad-.com" = false
  ∧ (∀ (domain : string) (label : list ascii),
       label ∈ DomainGrammar.labels
                 (DomainGrammar.strip_leading_dot domain) →
       label = []
       ∨ head label = Some "-"%char
       ∨ Forall (λ c, c = "_"%char) label →
       isValidDomain domain = false).
Proof.
  split; [apply DomainFacts.isValidDomain_grammar|].
  do 4 (split; [by vm_compute|]).
  intros domain label Hin Hbad.
  rewrite DomainFacts.isValidDomain_grammar.
  unfold DomainGrammar.is_domain_suffix, DomainGrammar.is_hostname.
  apply not_true_is_false. rewrite forallb_forall. intros Hall.
  apply list_elem_of_In, Hall in Hin. revert Hin.
  apply not_true_iff_false. unfold DomainGrammar.is_label.
  destruct Hbad as [->|[Hhd|Hus]]; [done| |].
  - rewrite (bool_decide_eq_true_2 _ Hhd).
    by rewrite andb_false_r.
  - destruct label as [|c label]; [done|].
    apply Forall_cons in Hus as [-> _]. cbn [forallb].
    replace (DomainGrammar.is_alnum "_" || DomainGrammar.is_hyphen "_")
      with false by done.
    by rewrite andb_false_r.
Qed.

Lemma C5_witness : isValidDomain "foo.__.com" = false.
Proof.
  apply (proj2 (proj2 (proj2 (proj2 (proj2 C5_isValidDomain_label_grammar))))
           "foo.__.com" ["_"; "_"]%char).
  - vm_compute. apply list_elem_of_In. simpl. tauto.
  - right. right. repeat constructor.
Defined.

(** C6: [isValidCidr] looks at the shape only.  Four groups of one to
    three digits joined by dots, a slash and one or two digits always
    pass, whatever numbers they spell: ["999.1.1.1/33"] passes. *)
Theorem C6_isValidCidr_shape_only :
  (∀ a b c d p : string,
     CidrShape.digits 1 3 a = true → CidrShape.digits 1 3 b = true →
     CidrShape.digits 1 3 c = true → CidrShape.digits 1 3 d = true →
     CidrShape.digits 1 2 p = true →
     isValidCidr (a +:+ "." +:+ b +:+ "." +:+ c +:+ "." +:+ d +:+ "/" +:+ p)
     = true)
  ∧ isValidCidr "999.1.1.1/33" = true
  ∧ isValidCidr "256.300.0.999/99" = true.
Proof.
  split; [|by vm_compute].
  intros a b c d p Ha Hb Hc Hd Hp.
  apply CidrFacts.lang_digits in Ha, Hb, Hc, Hd, Hp; try lia.
  pose proof (CidrFacts.lang_ipv4Regex _ _ _ _ _ Ha Hb Hc Hd Hp) as Hl.
  unfold isValidCidr. case_bool_decide as He.
  - apply (f_equal JsString.chars) in He.
    rewrite !CidrFacts.chars_app in He.
    by apply app_eq_nil in He as [_ He].
  - apply orb_true_iff. left. unfold Regex.test.
    apply RegexFacts.matches_lang.
    by rewrite !CidrFacts.chars_app.
Qed.

Lemma C6_witness : isValidCidr "300.1.22.333/64" = true.
Proof.
  by apply (proj1 C6_isValidCidr_shape_only "300" "1" "22" "333" "64").
Defined.

End ParserClaims.

(** * The builder and the validator *)

Section RuntimeFacts.
Context {W : Type} `{NodeEnv W}.

Lemma print_run l text (s : state W) :
  print l text s = (Ret tt, printing s [(l, text)]).
Proof. done. Qed.

Lemma printing_printing (s : state W) p q :
  printing (printing s p) q = printing s (p ++ q).
Proof. unfold printing. simpl. by rewrite app_assoc. Qed.

Lemma printing_nil (s : state W) : printing s [] = s.
Proof. destruct s. unfold printing. simpl. by rewrite app_nil_r. Qed.

Lemma no_error_app p q : no_error p → no_error q → no_error (p ++ q).
Proof. apply Forall_app_2. Qed.

Lemma no_error_log text : no_error [(LogLevel, text)].
Proof. by repeat constructor. Qed.

Lemma no_error_warn text : no_error [(WarnLevel, text)].
Proof. by repeat constructor. Qed.

(** [parseTextFile] returns the lines of the source and prints at most
    a warning. *)
Lemma parseTextFile_run filePath (s : state W) :
  parseTextFile filePath s
  = if fs_existsSync (world s) filePath
    then (source_lines (world s) filePath, s)
    else (Ret [],
          printing s [(WarnLevel, "Source file not found: " +:+ filePath)]).
Proof.
  unfold parseTextFile, source_lines. rewrite bind_run.
  unfold existsSync, observe.
  destruct (fs_existsSync (world s) filePath); simpl; [|done].
  rewrite bind_run. unfold readFileSync, observe.
  by destruct (fs_readFileSync (world s) filePath).
Qed.

Lemma parseTextFile_lines filePath (s : state W) rules :
  source_lines (world s) filePath = Ret rules →
  ∃ printed,
    parseTextFile filePath s = (Ret rules, printing s printed)
    ∧ no_error printed.
Proof.
  intros Hl. rewrite parseTextFile_run.
  destruct (fs_existsSync (world s) filePath) eqn:Hex.
  - exists []. rewrite printing_nil, Hl. split; [done|constructor].
  - unfold source_lines in Hl. rewrite Hex in Hl. injection Hl as <-.
    eexists. split; [done|apply no_error_warn].
Qed.

End RuntimeFacts.

Section BuilderFacts.
Context {W : Type} `{NodeEnv W}.
Import RuleBuilder.

Lemma buildRule_ruleData_skip type sourceFile outputFile (s : state W) rules :
  source_lines (world s) (path_join sourcesDir sourceFile) = Ret rules →
  rules = [] ∨ RuleParser.filterValidRules rules type = [] →
  ∃ printed,
    buildRule_ruleData type sourceFile outputFile s
    = (Ret None,
       printing s (printed ++ [(WarnLevel, skip_warning rules sourceFile)]))
    ∧ no_error printed.
Proof.
  intros (p0 & Hparse & Hp0)%parseTextFile_lines Hnone.
  unfold buildRule_ruleData, skip_warning.
  rewrite (bind_ret _ _ _ _ _ Hparse).
  rewrite bind_run. unfold console_log at 1. rewrite print_run.
  rewrite printing_printing.
  destruct (decide (rules = [])) as [->|Hne].
  - rewrite bool_decide_eq_true_2 by done.
    rewrite bind_run. unfold console_warn. rewrite print_run.
    rewrite printing_printing. eexists. split; [done|].
    apply no_error_app; [done|apply no_error_log].
  - destruct Hnone as [->|Hvalid]; [done|].
    rewrite bool_decide_eq_false_2 by by destruct rules.
    rewrite bind_run. unfold console_log at 1. rewrite print_run.
    rewrite printing_printing, Hvalid.
    rewrite bool_decide_eq_true_2 by done.
    rewrite bind_run. unfold console_warn. rewrite print_run.
    rewrite printing_printing. eexists. split; [done|].
    repeat apply no_error_app; [done|apply no_error_log..].
Qed.

(** C7: when the source has no rule line, or none that is valid for
    the type, [buildRule] returns [null]; the world is as it was (no
    file is written), and what it prints ends with the warning that
    the source is skipped and has no error line. *)
Theorem C7_buildRule_skips_without_rules
    type sourceFile outputFile (s : state W) rules :
  source_lines (world s) (path_join sourcesDir sourceFile) = Ret rules →
  rules = [] ∨ RuleParser.filterValidRules rules type = [] →
  ∃ s' printed,
    buildRule type sourceFile outputFile s = (Ret None, s')
    ∧ world s' = world s
    ∧ console s'
      = console s ++ printed
        ++ [(WarnLevel, skip_warning rules sourceFile)]
    ∧ no_error printed.
Proof.
  intros Hlines Hnone. unfold buildRule.
  rewrite bind_run. unfold console_log. rewrite print_run.
  set (s1 := printing s _).
  destruct (buildRule_ruleData_skip type sourceFile outputFile s1 rules
              Hlines Hnone) as (printed & Hrun & Hprinted).
  unfold try_catch. rewrite (bind_ret _ _ _ _ _ Hrun).
  subst s1. rewrite printing_printing.
  eexists _, (_ :: printed). split; [reflexivity|]. split; [done|].
  split; [done|]. apply (no_error_app [_]); [apply no_error_log|done].
Qed.

End BuilderFacts.

Section SrsBuilderFacts.
Context {W : Type} `{NodeEnv W}.
Import SrsBuilder.

(** [buildSrsFile], step by step. *)
Lemma buildSrsFile_run ruleData outputFile (s : state W) :
  buildSrsFile ruleData outputFile s
  = match FileUtils.ensureDir (path_dirname outputFile) s with
    | (Ret _, s0) =>
        match buildWithSingBox ruleData outputFile s0 with
        | (Ret true, s1) => (Ret true, s1)
        | (Ret false, s1) => buildFallback ruleData outputFile s1
        | (Throw e, s1) => (Throw e, s1)
        end
    | (Throw e, s0) => (Throw e, s0)
    end.
Proof.
  unfold buildSrsFile, FileUtils.ensureDir. rewrite !bind_run.
  destruct (existsSync (path_dirname outputFile) s) as [[ex|e] s0]; [|done].
  rewrite bind_run.
  destruct ((if negb ex then mkdirSync (path_dirname outputFile)
             else mret ()) s0) as [[[]|e] s1]; [|done].
  rewrite bind_run.
  by destruct (buildWithSingBox ruleData outputFile s1) as [[[|]|e] s2].
Qed.

(** [buildFallback] returns [true] as soon as its write returns. *)
Lemma buildFallback_run ruleData outputFile (s s' : state W) doc w :
  singBoxFormat ruleData s = (Ret doc, s') →
  fs_writeFileSync (world s') (jsonFile_of outputFile) (JSON_stringify doc)
  = (Ret tt, w) →
  buildFallback ruleData outputFile s
  = (Ret true,
     mkState w
       (console s'
        ++ [(LogLevel,
             "⚠️  Built fallback file: " +:+ jsonFile_of outputFile)])).
Proof.
  intros Hdoc Hwrite. unfold buildFallback, try_catch.
  rewrite (bind_ret _ _ _ _ _ Hdoc).
  rewrite bind_run. unfold writeFileSync, effect. rewrite Hwrite.
  by rewrite bind_run.
Qed.

End SrsBuilderFacts.

Section LoopFacts.
Context {S : Type}.

Lemma for_each_cons {A} (x : A) (l : list A) (body : A → M S unit) s :
  for_each (x :: l) body s
  = match body x s with
    | (Ret _, s') => for_each l body s'
    | (Throw e, s') => (Throw e, s')
    end.
Proof. done. Qed.

Lemma for_each_app {A} (l1 l2 : list A) (body : A → M S unit) s :
  for_each (l1 ++ l2) body s
  = match for_each l1 body s with
    | (Ret _, s') => for_each l2 body s'
    | (Throw e, s') => (Throw e, s')
    end.
Proof.
  revert s. induction l1 as [|x l1 IH]; intros s; [done|].
  rewrite <-app_comm_cons, !for_each_cons.
  destruct (body x s) as [[[]|e] s']; [apply IH|done].
Qed.

(** A property of the state that every turn of a loop keeps. *)
Lemma for_each_invariant {A} (P : S → Prop) (l : list A)
    (body : A → M S unit) :
  (∀ x s s', body x s = (Ret tt, s') → P s → P s') →
  ∀ s s', for_each l body s = (Ret tt, s') → P s → P s'.
Proof.
  intros Hbody. induction l as [|x l IH]; intros s s'.
  - by intros [= <-].
  - rewrite for_each_cons.
    destruct (body x s) as [[[]|e] s1] eqn:Hx; [|done].
    intros Hl Hs. eapply IH; [done|]. by eapply Hbody.
Qed.

Lemma lift_run {L A} (m : M S A) (s : S) (l : L) :
  lift m (s, l) = match m s with (r, s') => (r, (s', l)) end.
Proof. done. Qed.

Lemma update_run {L} (f : L → L) (s : S) (l : L) :
  update f (s, l) = (Ret tt, (s, f l)).
Proof. done. Qed.

Lemma read_run {L} (s : S) (l : L) : read (s, l) = (Ret l, (s, l)).
Proof. done. Qed.

Lemma never_throws_lift {L A} (m : M S A) :
  never_throws m → never_throws (lift (L := L) m).
Proof.
  intros Hm [s l]. destruct (Hm s) as (a & s' & Hs).
  exists a, (s', l). by rewrite lift_run, Hs.
Qed.

Lemma never_throws_with_local {L A} (init : L) (m : M (S * L) A) :
  never_throws m → never_throws (with_local init m).
Proof.
  intros Hm s. destruct (Hm (s, init)) as (a & [s' l] & Hs).
  exists a, s'. unfold with_local. by rewrite Hs.
Qed.

Lemma never_throws_update {L} (f : L → L) :
  never_throws (update (S := S) f).
Proof. intros sl. by eexists _, _. Qed.

Lemma never_throws_read {L} : never_throws (read (S := S) (L := L)).
Proof. intros sl. by eexists _, _. Qed.

End LoopFacts.

Section BuildAllFacts.
Context {W : Type} `{NodeEnv W}.
Import RuleBuilder.

Lemma never_throws_print l text : never_throws (print (W := W) l text).
Proof. intros s. by eexists _, _. Qed.

Lemma buildRule_never_throws type sourceFile outputFile :
  never_throws (buildRule (W := W) type sourceFile outputFile).
Proof.
  unfold buildRule. apply never_throws_bind; [apply never_throws_print|].
  intros _. apply never_throws_try_catch. intros e.
  apply never_throws_bind; [apply never_throws_print|].
  intros _. apply never_throws_ret.
Qed.

(** One turn of the loop of [buildAll]: an artifact goes to [success],
    [null] sends the config to [skipped]. *)
Lemma buildAll_step_run config (s : state W) r n :
  buildAll_step config (s, (r, n))
  = match buildRule (type config) (source config) (output config) s with
    | (Ret (Some a), s') =>
        (Ret tt,
         (s', (mkResults (success r ++ [a]) (failed r) (skipped r)
                 (summary r),
               n + length (Artifact.rules a))))
    | (Ret None, s') =>
        (Ret tt,
         (s', (mkResults (success r) (failed r) (skipped r ++ [config])
                 (summary r),
               n)))
    | (Throw e, s') =>
        (Ret tt,
         (printing s'
            [(ErrorLevel,
              "❌ Failed to build " +:+ source config +:+ ": "
              +:+ message e)],
          (mkResults (success r) (failed r ++ [(config, message e)])
             (skipped r) (summary r),
           n)))
    end.
Proof.
  unfold buildAll_step, try_catch. rewrite bind_run, lift_run.
  by destruct (buildRule _ _ _ s) as [[[a|]|e] s'].
Qed.

Lemma buildAll_step_returns config sl :
  ∃ sl', buildAll_step config sl = (Ret tt, sl')
         ∧ length (success sl'.2.1) + length (failed sl'.2.1)
           + length (skipped sl'.2.1)
           = S (length (success sl.2.1) + length (failed sl.2.1)
                + length (skipped sl.2.1)).
Proof.
  destruct sl as [s [r n]]. rewrite buildAll_step_run.
  destruct (buildRule _ _ _ s) as [[[a|]|e] s'];
    (eexists; split; [done|]); simpl; rewrite length_app; simpl; lia.
Qed.

(** The loop visits every config: it returns, and each config has added
    one entry to [success], [failed] or [skipped]. *)
Lemma buildAll_loop_returns configs : ∀ sl,
  ∃ sl', for_each configs buildAll_step sl = (Ret tt, sl')
         ∧ length (success sl'.2.1) + length (failed sl'.2.1)
           + length (skipped sl'.2.1)
           = length configs
             + (length (success sl.2.1) + length (failed sl.2.1)
                + length (skipped sl.2.1)).
Proof.
  induction configs as [|config configs IH]; intros sl.
  - by exists sl.
  - destruct (buildAll_step_returns config sl) as (sl1 & Hstep & Hlen).
    rewrite for_each_cons, Hstep. cbn [length].
    destruct (IH sl1) as (sl' & Hloop & Hlen').
    exists sl'. split; [done|]. lia.
Qed.

Lemma buildAll_loop_keeps_success a configs sl sl' :
  for_each configs buildAll_step sl = (Ret tt, sl') →
  a ∈ success sl.2.1 → a ∈ success sl'.2.1.
Proof.
  apply (for_each_invariant (λ sl, a ∈ success sl.2.1)).
  clear. intros config [s [r n]] sl'. rewrite buildAll_step_run.
  destruct (buildRule _ _ _ s) as [[[a'|]|e] s']; intros [= <-]; simpl;
    [|done..].
  intros Ha. apply elem_of_app. by left.
Qed.

(** What [buildAll] returns is what its loop has collected. *)
Lemma buildAll_run (s : state W) results sF :
  buildAll s = (Ret results, sF) →
  ∃ sl,
    for_each ruleConfigs buildAll_step
      (printing s [(LogLevel, "🚀 Starting rule building process...")],
       (mkResults [] [] [] None, 0))
    = (Ret tt, sl)
    ∧ success results = success sl.2.1
    ∧ failed results = failed sl.2.1
    ∧ skipped results = skipped sl.2.1.
Proof.
  unfold buildAll. rewrite bind_run. unfold console_log at 1.
  rewrite print_run. unfold with_local.
  set (sl0 := (printing s _, _)).
  destruct (buildAll_loop_returns ruleConfigs sl0) as (sl & Hloop & _).
  rewrite (bind_ret _ _ _ _ _ Hloop).
  destruct sl as [s1 [r n]]. rewrite !bind_run.
  unfold update, read. cbn [fst snd]. rewrite bind_run. cbn [fst snd].
  rewrite bind_run, lift_run. cbn [fst snd].
  destruct (generateBuildReport _ s1) as [[[]|e] s2]; [|done].
  intros [= <- <-]. by eexists.
Qed.

End BuildAllFacts.

Section FallbackClaim.
Context {W : Type} `{NodeEnv W}.
Import RuleBuilder.

(** Case analysis on the next call of a sequence that is known to
    return. *)
Local Ltac next :=
  rewrite bind_run;
  lazymatch goal with
  | |- (match ?x with _ => _ end) = _ → _ =>
      destruct x as [[?|?] ?] eqn:?; [|discriminate]
  end.

(** The [ruleData] that [buildRule] hands to [buildSrsFile] is an
    object with a [metadata] property. *)
Lemma buildRule_ruleData_object type sourceFile outputFile (s s' : state W)
    validRules ruleData :
  buildRule_ruleData type sourceFile outputFile s
  = (Ret (Some (validRules, ruleData)), s') →
  ∃ metadata, Js.get ruleData "metadata" = Ret metadata.
Proof.
  unfold buildRule_ruleData. next. next.
  case_bool_decide; [rewrite bind_run; discriminate|].
  next. case_bool_decide; [rewrite bind_run; discriminate|].
  do 7 next. intros [= <- <- <-]. by eexists.
Qed.

(** C1: a failed compilation followed by a successful fallback write
    counts as success.  When [buildWithSingBox] returns [false] (as it
    does after a non-zero exit, a timeout, a missing or an empty output
    file) and the write of the fallback document returns, [buildSrsFile]
    returns [true]; [buildRule] then returns an artifact; and an
    artifact that [buildRule] returns for a config is in the [success]
    list that [buildAll] returns.  No compiled file need exist. *)
Theorem C1_fallback_counts_as_success :
  (∀ ruleData outputFile (s s0 s1 : state W) doc w,
     FileUtils.ensureDir (path_dirname outputFile) s = (Ret tt, s0) →
     SrsBuilder.buildWithSingBox ruleData outputFile s0 = (Ret false, s1) →
     SrsBuilder.singBoxFormat ruleData s1 = (Ret doc, s1) →
     fs_writeFileSync (world s1) (SrsBuilder.jsonFile_of outputFile)
       (JSON_stringify doc) = (Ret tt, w) →
     ∃ s', SrsBuilder.buildSrsFile ruleData outputFile s = (Ret true, s')
           ∧ world s' = w)
  ∧ (∀ type sourceFile outputFile (s sA s0 s1 : state W)
       validRules ruleData doc w,
       buildRule_ruleData type sourceFile outputFile
         (printing s
            [(LogLevel,
              nl +:+ "📦 Building rule: " +:+ type +:+ " from "
              +:+ sourceFile)])
       = (Ret (Some (validRules, ruleData)), sA) →
       FileUtils.ensureDir (path_dirname (path_join distDir outputFile)) sA
       = (Ret tt, s0) →
       SrsBuilder.buildWithSingBox ruleData (path_join distDir outputFile) s0
       = (Ret false, s1) →
       SrsBuilder.singBoxFormat ruleData s1 = (Ret doc, s1) →
       fs_writeFileSync (world s1)
         (SrsBuilder.jsonFile_of (path_join distDir outputFile))
         (JSON_stringify doc) = (Ret tt, w) →
       ∃ a s',
         buildRule type sourceFile outputFile s = (Ret (Some a), s')
         ∧ Artifact.rules a = validRules ∧ world s' = w)
  ∧ (∀ pre config post (s : state W) sl a s',
       ruleConfigs = pre ++ config :: post →
       for_each pre buildAll_step
         (printing s [(LogLevel, "🚀 Starting rule building process...")],
          (mkResults [] [] [] None, 0))
       = (Ret tt, sl) →
       buildRule (type config) (source config) (output config) sl.1
       = (Ret (Some a), s') →
       ∀ results sF,
         buildAll s = (Ret results, sF) → a ∈ success results).
Proof.
  split; [|split].
  - intros ruleData outputFile s s0 s1 doc w Hdir Hcompile Hdoc Hwrite.
    rewrite buildSrsFile_run, Hdir, Hcompile.
    rewrite (buildFallback_run _ _ _ _ _ _ Hdoc Hwrite). by eexists.
  - intros type sourceFile outputFile s sA s0 s1 validRules ruleData doc w
      Hdata Hdir Hcompile Hdoc Hwrite.
    destruct (buildRule_ruleData_object _ _ _ _ _ _ _ Hdata)
      as [metadata Hmeta].
    unfold buildRule. rewrite bind_run. unfold console_log at 1.
    rewrite print_run. unfold try_catch.
    rewrite (bind_ret _ _ _ _ _ Hdata).
    rewrite bind_run, buildSrsFile_run, Hdir, Hcompile.
    rewrite (buildFallback_run _ _ _ _ _ _ Hdoc Hwrite).
    rewrite bind_run. unfold prim. rewrite Hmeta. by eexists _, _.
  - intros pre config post s sl a s' Hconfigs Hpre Hrule results sF Hall.
    apply buildAll_run in Hall as (slF & Hloop & -> & _).
    rewrite Hconfigs, for_each_app, Hpre, for_each_cons in Hloop.
    destruct sl as [s1 [r n]]. rewrite buildAll_step_run in Hloop.
    simpl in Hrule. rewrite Hrule in Hloop.
    eapply buildAll_loop_keeps_success; [exact Hloop|].
    simpl. apply elem_of_app. right. by apply list_elem_of_singleton.
Qed.

End FallbackClaim.

Section FallbackExample.
Import RuleBuilder TestEnv.

(** Without [sing-box], [buildSrsFile] returns [true] for a rule-set of
    one domain, the build of [direct-domains.txt] returns an artifact
    and leaves a [.json] file and no [.srs] file, and [buildAll] lists
    that artifact under [success]. *)
Lemma C1_witness :
  (∃ s',
     SrsBuilder.buildSrsFile
       (VObj [("type", VStr "domain-suffix");
              ("rules", VObj [("domain-suffix", VArr [VStr "example.com"])])])
       "/repo/dist/direct-domains.srs" (start (checkout false))
     = (Ret true, s')
     ∧ files (world s') !! "/repo/dist/direct-domains.srs" = None)
  ∧ (∃ a s',
       buildRule "domain-suffix" "direct-domains.txt" "direct-domains.srs"
         (start (checkout false))
       = (Ret (Some a), s')
       ∧ Artifact.rules a = ["example.com"]
       ∧ files (world s') !! "/repo/dist/direct-domains.srs" = None
       ∧ is_Some (files (world s') !! "/repo/dist/direct-domains.json"))
  ∧ (∃ a results sF,
       buildAll (start (checkout false)) = (Ret results, sF)
       ∧ a ∈ success results
       ∧ Artifact.source a = "direct-domains.txt"
       ∧ files (world sF) !! "/repo/dist/direct-domains.srs" = None).
Proof.
  destruct (C1_fallback_counts_as_success (W := machine))
    as (Hfile & Hrule & Hall).
  split; [|split].
  - edestruct (Hfile
                 (VObj [("type", VStr "domain-suffix");
                        ("rules",
                         VObj [("domain-suffix", VArr [VStr "example.com"])])])
                 "/repo/dist/direct-domains.srs" (start (checkout false)))
      as (s' & Hrun & Hworld).
    + vm_compute. reflexivity.
    + vm_compute. reflexivity.
    + vm_compute. reflexivity.
    + vm_compute. reflexivity.
    + exists s'. split; [exact Hrun|]. rewrite Hworld. by vm_compute.
  - edestruct (Hrule "domain-suffix" "direct-domains.txt" "direct-domains.srs"
                 (start (checkout false)))
      as (a & s' & Hrun & Hrules & Hworld).
    + vm_compute. reflexivity.
    + vm_compute. reflexivity.
    + vm_compute. reflexivity.
    + vm_compute. reflexivity.
    + vm_compute. reflexivity.
    + exists a, s'. split; [exact Hrun|]. split; [exact Hrules|].
      rewrite Hworld. split; [by vm_compute|]. vm_compute. eauto.
  - destruct (buildAll (start (checkout false))) as [[results|e] sF] eqn:Hrun;
      [|by vm_compute in Hrun].
    eexists _, results, sF. split; [done|].
    split; [|split].
    + eapply (Hall [] (mkConfig "domain-suffix" "direct-domains.txt"
                         "direct-domains.srs")
                (List.tl ruleConfigs) (start (checkout false)));
        [reflexivity|reflexivity| |exact Hrun].
      vm_compute. reflexivity.
    + reflexivity.
    + vm_compute in Hrun. injection Hrun as _ <-. by vm_compute.
Defined.

End FallbackExample.

Section ValidatorFacts.
Context {W : Type} `{NodeEnv W}.
Import RuleValidator.

Lemma validateSourceFile_never_throws sourceFile type :
  never_throws (validateSourceFile (W := W) sourceFile type).
Proof.
  unfold validateSourceFile.
  apply never_throws_bind; [apply never_throws_print|]. intros _.
  apply never_throws_with_local, never_throws_try_catch. intros e.
  repeat (apply never_throws_bind; [apply never_throws_update|]; intros _).
  apply never_throws_read.
Qed.

Lemma validateTemplate_never_throws templateFile :
  never_throws (validateTemplate (W := W) templateFile).
Proof.
  unfold validateTemplate.
  apply never_throws_bind; [apply never_throws_print|]. intros _.
  apply never_throws_with_local, never_throws_try_catch. intros e.
  repeat (apply never_throws_bind; [apply never_throws_update|]; intros _).
  apply never_throws_read.
Qed.

(** An absent source is an error of the validator. *)
Lemma validateSourceFile_absent sourceFile type (s : state W) :
  fs_existsSync (world s) (path_join sourcesDir sourceFile) = false →
  validateSourceFile sourceFile type s
  = (Ret (SourceResult.mk sourceFile type false
            ["Source file not found: " +:+ path_join sourcesDir sourceFile]
            [] (mkStats 0 0 0 0)),
     printing s
       [(LogLevel,
         nl +:+ "🔍 Validating: " +:+ sourceFile +:+ " (" +:+ type
         +:+ ")")]).
Proof.
  intros Hex. unfold validateSourceFile.
  rewrite bind_run. unfold console_log. rewrite print_run.
  unfold with_local, try_catch. rewrite bind_run, lift_run.
  unfold FileUtils.exists_, existsSync, observe. simpl. by rewrite Hex.
Qed.

(** One turn of the first loop of [validateAll]. *)
Lemma validateAll_source_run config (s : state W) r :
  validateAll_source config (s, r)
  = match validateSourceFile (source config) (type config) s with
    | (Ret result, s') =>
        (Ret tt,
         (s',
          mkResults (sources r ++ [result]) (templates r)
            (let sm := summary r in
             let st := SourceResult.stats result in
             if SourceResult.valid result then
               mkSummary (total_files sm) (S (valid_files sm))
                 (invalid_files sm) (total_rules sm + total st)
                 (valid_rules sm + valid st) (invalid_rules sm + invalid st)
             else
               mkSummary (total_files sm) (valid_files sm)
                 (S (invalid_files sm)) (total_rules sm) (valid_rules sm)
                 (invalid_rules sm))))
    | (Throw e, s') => (Throw e, (s', r))
    end.
Proof.
  unfold validateAll_source. rewrite bind_run, lift_run.
  destruct (validateSourceFile _ _ s) as [[result|e] s']; [|done].
  rewrite bind_run. unfold update. cbn [fst snd].
  by destruct (SourceResult.valid result).
Qed.

Lemma validateAll_template_run template (s : state W) r :
  validateAll_template template (s, r)
  = match validateTemplate template s with
    | (Ret result, s') =>
        (Ret tt,
         (s',
          mkResults (sources r) (templates r ++ [result])
            (let sm := summary r in
             if TemplateResult.valid result then
               mkSummary (total_files sm) (S (valid_files sm))
                 (invalid_files sm) (total_rules sm) (valid_rules sm)
                 (invalid_rules sm)
             else
               mkSummary (total_files sm) (valid_files sm)
                 (S (invalid_files sm)) (total_rules sm) (valid_rules sm)
                 (invalid_rules sm))))
    | (Throw e, s') => (Throw e, (s', r))
    end.
Proof.
  unfold validateAll_template. rewrite bind_run, lift_run.
  destruct (validateTemplate _ s) as [[result|e] s']; [|done].
  rewrite bind_run. unfold update. cbn [fst snd].
  by destruct (TemplateResult.valid result).
Qed.

(** The first loop visits every config and records one result for
    each. *)
Lemma validateAll_sources_return configs : ∀ sl,
  ∃ sl', for_each configs validateAll_source sl = (Ret tt, sl')
         ∧ length (sources sl'.2) = length configs + length (sources sl.2).
Proof.
  induction configs as [|config configs IH]; intros [s r].
  - by eexists.
  - rewrite for_each_cons, validateAll_source_run.
    destruct (validateSourceFile_never_throws (source config) (type config) s)
      as (result & s' & ->).
    destruct (IH (s', mkResults (sources r ++ [result]) (templates r)
                        (let sm := summary r in
             let st := SourceResult.stats result in
             if SourceResult.valid result then
               mkSummary (total_files sm) (S (valid_files sm))
                 (invalid_files sm) (total_rules sm + total st)
                 (valid_rules sm + valid st) (invalid_rules sm + invalid st)
             else
               mkSummary (total_files sm) (valid_files sm)
                 (S (invalid_files sm)) (total_rules sm) (valid_rules sm)
                 (invalid_rules sm))))
      as (sl' & Hloop & Hlen).
    exists sl'. split; [done|]. rewrite Hlen. simpl.
    rewrite length_app. simpl. lia.
Qed.

Lemma validateAll_templates_return configs : ∀ sl,
  ∃ sl', for_each configs validateAll_template sl = (Ret tt, sl').
Proof.
  induction configs as [|config configs IH]; intros [s r].
  - by eexists.
  - rewrite for_each_cons, validateAll_template_run.
    destruct (validateTemplate_never_throws config s) as (result & s' & ->).
    apply IH.
Qed.

(** Once a file is counted as invalid it stays counted. *)
Lemma validateAll_source_keeps_invalid config sl sl' :
  validateAll_source config sl = (Ret tt, sl') →
  0 < invalid_files (summary sl.2) → 0 < invalid_files (summary sl'.2).
Proof.
  destruct sl as [s r]. rewrite validateAll_source_run.
  destruct (validateSourceFile _ _ s) as [[result|e] s']; [|done].
  intros [= <-]. simpl. destruct (SourceResult.valid result); simpl; lia.
Qed.

Lemma validateAll_template_keeps_invalid template sl sl' :
  validateAll_template template sl = (Ret tt, sl') →
  0 < invalid_files (summary sl.2) → 0 < invalid_files (summary sl'.2).
Proof.
  destruct sl as [s r]. rewrite validateAll_template_run.
  destruct (validateTemplate _ s) as [[result|e] s']; [|done].
  intros [= <-]. simpl. destruct (TemplateResult.valid result); simpl; lia.
Qed.

(** What [validateAll] returns is what its two loops have collected. *)
Lemma validateAll_run (s : state W) results sF :
  validateAll s = (Ret results, sF) →
  ∃ sl,
    for_each ruleConfigs validateAll_source
      (printing s [(LogLevel, "🚀 Starting validation process...")],
       mkResults [] []
         (mkSummary (length ruleConfigs + length templateConfigs) 0 0 0 0 0))
    = (Ret tt, sl)
    ∧ ∃ s', for_each templateConfigs validateAll_template sl
            = (Ret tt, (s', results)).
Proof.
  unfold validateAll. rewrite bind_run. unfold console_log at 1.
  rewrite print_run. unfold with_local.
  set (sl0 := (printing s _, _)).
  destruct (validateAll_sources_return ruleConfigs sl0) as (sl & Hloop & _).
  rewrite (bind_ret _ _ _ _ _ Hloop).
  destruct (validateAll_templates_return templateConfigs sl)
    as ([s2 r2] & Hloop2).
  rewrite (bind_ret _ _ _ _ _ Hloop2).
  unfold read. rewrite bind_run. cbn [fst snd].
  rewrite bind_run, lift_run.
  destruct (generateValidationReport r2 s2) as [[[]|e] s3]; [|done].
  intros [= <- <-]. eauto.
Qed.

End ValidatorFacts.

Section AbsentSourceClaim.
Context {W : Type} `{NodeEnv W}.

(** An absent source is a warning and a skip for the builder. *)
Lemma buildRule_absent type sourceFile outputFile (s : state W) :
  fs_existsSync (world s) (path_join RuleBuilder.sourcesDir sourceFile)
  = false →
  RuleBuilder.buildRule type sourceFile outputFile s
  = (Ret None,
     printing s
       [(LogLevel,
         nl +:+ "📦 Building rule: " +:+ type +:+ " from " +:+ sourceFile);
        (WarnLevel,
         "Source file not found: "
         +:+ path_join RuleBuilder.sourcesDir sourceFile);
        (LogLevel,
         "📖 Found " +:+ pretty 0 +:+ " rules in " +:+ sourceFile);
        (WarnLevel,
         "⚠️  No rules found in " +:+ sourceFile +:+ ", skipping...")]).
Proof.
  intros Hex. unfold RuleBuilder.buildRule.
  rewrite bind_run. unfold console_log at 1. rewrite print_run.
  unfold try_catch, RuleBuilder.buildRule_ruleData.
  rewrite !bind_run, parseTextFile_run. cbn [world printing].
  rewrite Hex, printing_printing.
  rewrite bind_run. unfold console_log at 1.
  rewrite print_run, printing_printing.
  rewrite bool_decide_eq_true_2 by done.
  rewrite bind_run. unfold console_warn.
  by rewrite print_run, printing_printing.
Qed.

(** C2, as the code has it: when the source file of a config is
    absent, [buildRule] prints a warning, returns [null] and prints no
    error, and [buildAll] puts the config in [skipped];
    [validateSourceFile] instead returns a result that is not valid,
    with the error that the source file was not found, and [validateAll]
    then returns a summary with which the validator exits with status
    1.  Both loops go through all seven configs. *)
Theorem C2_absent_source_builder_skips_validator_rejects :
  (∀ type sourceFile outputFile (s : state W),
     fs_existsSync (world s) (path_join RuleBuilder.sourcesDir sourceFile)
     = false →
     ∃ printed,
       RuleBuilder.buildRule type sourceFile outputFile s
       = (Ret None, printing s printed)
       ∧ (WarnLevel,
          "Source file not found: "
          +:+ path_join RuleBuilder.sourcesDir sourceFile) ∈ printed
       ∧ no_error printed)
  ∧ (∀ config (s : state W) r n,
       fs_existsSync (world s)
         (path_join RuleBuilder.sourcesDir (RuleBuilder.source config))
       = false →
       ∃ s',
         RuleBuilder.buildAll_step config (s, (r, n))
         = (Ret tt,
            (s',
             (RuleBuilder.mkResults (RuleBuilder.success r)
                (RuleBuilder.failed r) (RuleBuilder.skipped r ++ [config])
                (RuleBuilder.summary r),
              n))))
  ∧ (∀ sourceFile type (s : state W),
       fs_existsSync (world s)
         (path_join RuleValidator.sourcesDir sourceFile) = false →
       ∃ result s',
         RuleValidator.validateSourceFile sourceFile type s
         = (Ret result, s')
         ∧ RuleValidator.SourceResult.valid result = false
         ∧ RuleValidator.SourceResult.errors result
           = ["Source file not found: "
              +:+ path_join RuleValidator.sourcesDir sourceFile]
         ∧ RuleValidator.SourceResult.warnings result = [])
  ∧ (∀ pre config post (s : state W) sl,
       RuleValidator.ruleConfigs = pre ++ config :: post →
       for_each pre RuleValidator.validateAll_source
         (printing s [(LogLevel, "🚀 Starting validation process...")],
          RuleValidator.mkResults [] []
            (RuleValidator.mkSummary
               (length RuleValidator.ruleConfigs
                + length RuleValidator.templateConfigs) 0 0 0 0 0))
       = (Ret tt, sl) →
       fs_existsSync (world sl.1)
         (path_join RuleValidator.sourcesDir
            (RuleValidator.source config)) = false →
       ∀ results sF,
         RuleValidator.validateAll s = (Ret results, sF) →
         RuleValidator.exit_status results = 1)
  ∧ (∀ sl, ∃ sl',
       for_each RuleBuilder.ruleConfigs RuleBuilder.buildAll_step sl
       = (Ret tt, sl')
       ∧ length (RuleBuilder.success sl'.2.1)
         + length (RuleBuilder.failed sl'.2.1)
         + length (RuleBuilder.skipped sl'.2.1)
         = 7 + (length (RuleBuilder.success sl.2.1)
                + length (RuleBuilder.failed sl.2.1)
                + length (RuleBuilder.skipped sl.2.1)))
  ∧ (∀ sl, ∃ sl',
       for_each RuleValidator.ruleConfigs RuleValidator.validateAll_source sl
       = (Ret tt, sl')
       ∧ length (RuleValidator.sources sl'.2)
         = 7 + length (RuleValidator.sources sl.2)).
Proof.
  repeat split.
  - intros type sourceFile outputFile s Hex. eexists. split.
    + by apply buildRule_absent.
    + split; [|by repeat constructor].
      apply list_elem_of_In. simpl. tauto.
  - intros config s r n Hex. rewrite buildAll_step_run.
    rewrite buildRule_absent by done. by eexists.
  - intros sourceFile type s Hex.
    rewrite validateSourceFile_absent by done. by eexists _, _.
  - intros pre config post s sl Hconfigs Hpre Hex results sF Hall.
    apply validateAll_run in Hall as (sl1 & Hloop & s' & Hloop2).
    rewrite Hconfigs in Hloop, Hpre.
    rewrite for_each_app, Hpre, for_each_cons in Hloop.
    destruct sl as [s1 r]. rewrite validateAll_source_run in Hloop.
    simpl in Hex. rewrite validateSourceFile_absent in Hloop by done.
    cbn [RuleValidator.SourceResult.valid] in Hloop.
    unfold RuleValidator.exit_status. rewrite bool_decide_eq_true_2; [done|].
    change results with (s', results).2.
    eapply (for_each_invariant
              (λ sl, 0 < RuleValidator.invalid_files
                           (RuleValidator.summary sl.2)));
      [apply validateAll_template_keeps_invalid|exact Hloop2|].
    eapply (for_each_invariant
              (λ sl, 0 < RuleValidator.invalid_files
                           (RuleValidator.summary sl.2)));
      [apply validateAll_source_keeps_invalid|exact Hloop|].
    simpl. lia.
  - apply (buildAll_loop_returns RuleBuilder.ruleConfigs).
  - apply (validateAll_sources_return RuleValidator.ruleConfigs).
Qed.

End AbsentSourceClaim.

Section AbsentSourceExamples.
Import TestEnv.

(** [direct-process.txt] is not in the checkout: the validator reports
    an error for it, so it is not true that absence is never an
    error. *)
Lemma C2_counterexample :
  ¬ (∀ (s : state machine) config,
       config ∈ RuleValidator.ruleConfigs →
       fs_existsSync (world s)
         (path_join RuleValidator.sourcesDir (RuleValidator.source config))
       = false →
       ∃ result s',
         RuleValidator.validateSourceFile (RuleValidator.source config)
           (RuleValidator.type config) s
         = (Ret result, s')
         ∧ RuleValidator.SourceResult.valid result = true
         ∧ RuleValidator.SourceResult.errors result = []).
Proof.
  intros Hclaim.
  destruct (Hclaim (start (checkout false))
              (RuleValidator.mkConfig "direct-process.txt" "process-name"))
    as (result & s' & Hrun & Hvalid & _).
  - apply list_elem_of_In. simpl. tauto.
  - by vm_compute.
  - vm_compute in Hrun. injection Hrun as <- _. discriminate.
Qed.

Lemma C2_witness :
  (∃ printed,
     RuleBuilder.buildRule "process-name" "direct-process.txt"
       "direct-process.srs" (start (checkout false))
     = (Ret None, printing (start (checkout false)) printed)
     ∧ (WarnLevel, "Source file not found: /repo/sources/direct-process.txt")
       ∈ printed
     ∧ no_error printed)
  ∧ (∃ s',
       RuleBuilder.buildAll_step
         (RuleBuilder.mkConfig "process-name" "direct-process.txt"
            "direct-process.srs")
         (start (checkout false), (RuleBuilder.mkResults [] [] [] None, 0))
       = (Ret tt,
          (s',
           (RuleBuilder.mkResults [] []
              [RuleBuilder.mkConfig "process-name" "direct-process.txt"
                 "direct-process.srs"] None,
            0))))
  ∧ (∃ result s',
       RuleValidator.validateSourceFile "direct-process.txt" "process-name"
         (start (checkout false))
       = (Ret result, s')
       ∧ RuleValidator.SourceResult.valid result = false
       ∧ RuleValidator.SourceResult.errors result
         = ["Source file not found: /repo/sources/direct-process.txt"]
       ∧ RuleValidator.SourceResult.warnings result = [])
  ∧ (∃ results sF,
       RuleValidator.validateAll (start (checkout false)) = (Ret results, sF)
       ∧ RuleValidator.exit_status results = 1).
Proof.
  destruct (C2_absent_source_builder_skips_validator_rejects (W := machine))
    as (Hbuild & Hstep & Hvalidate & Hexit & _).
  split; [|split; [|split]].
  - apply (Hbuild "process-name" "direct-process.txt" "direct-process.srs"
             (start (checkout false))).
    by vm_compute.
  - apply (Hstep (RuleBuilder.mkConfig "process-name" "direct-process.txt"
                    "direct-process.srs")
             (start (checkout false)) (RuleBuilder.mkResults [] [] [] None) 0).
    by vm_compute.
  - apply (Hvalidate "direct-process.txt" "process-name"
             (start (checkout false))).
    by vm_compute.
  - destruct (RuleValidator.validateAll (start (checkout false)))
      as [[results|e] sF] eqn:Hrun; [|by vm_compute in Hrun].
    exists results, sF. split; [done|].
    eapply (Hexit (take 2 RuleValidator.ruleConfigs)
              (RuleValidator.mkConfig "direct-process.txt" "process-name")
              (drop 3 RuleValidator.ruleConfigs) (start (checkout false)));
      [reflexivity| | |exact Hrun].
    + vm_compute. reflexivity.
    + by vm_compute.
Defined.

(** [direct-ips.txt] has two lines and none is a CIDR. *)
Lemma C7_witness :
  ∃ s' printed,
    RuleBuilder.buildRule "ip-cidr" "direct-ips.txt" "direct-ips.srs"
      (start (checkout true))
    = (Ret None, s')
    ∧ world s' = checkout true
    ∧ console s'
      = printed
        ++ [(WarnLevel,
             skip_warning ["10.0.0/8"; "localhost"] "direct-ips.txt")]
    ∧ no_error printed.
Proof.
  apply (C7_buildRule_skips_without_rules "ip-cidr" "direct-ips.txt"
           "direct-ips.srs" (start (checkout true))
           ["10.0.0/8"; "localhost"]).
  - by vm_compute.
  - right. by vm_compute.
Defined.

End AbsentSourceExamples.

Section TemplateClaim.
Context {W : Type} `{NodeEnv W}.
Import RuleValidator.

Lemma readJsonFile_run filePath (s : state W) text v :
  fs_existsSync (world s) filePath = true →
  fs_readFileSync (world s) filePath = Ret text →
  JSON_parse text = Ret v →
  FileUtils.readJsonFile filePath s = (Ret v, s).
Proof.
  intros Hex Hread Hparse. unfold FileUtils.readJsonFile, FileUtils.readFile.
  rewrite !bind_run. unfold existsSync, observe. rewrite Hex. cbn [negb].
  unfold readFileSync, observe. rewrite Hread.
  unfold prim. by rewrite Hparse.
Qed.

(** A template with its four fields, a non-empty string [type] and an
    object for [rules] is valid whatever its [version], provided that
    it has no property named [hasOwnProperty]; a [version] other than
    [1] adds a warning and nothing else. *)
Lemma validateTemplate_version_only_warns
    templateFile (s : state W) text props version description type rules :
  fs_existsSync (world s) (path_join templatesDir templateFile) = true →
  fs_readFileSync (world s) (path_join templatesDir templateFile)
  = Ret text →
  JSON_parse text = Ret (VObj props) →
  Js.lookup_prop "hasOwnProperty" props = None →
  Js.lookup_prop "version" props = Some version →
  Js.lookup_prop "rules" props = Some rules →
  Js.lookup_prop "description" props = Some description →
  Js.lookup_prop "type" props = Some (VStr type) →
  type ≠ "" →
  (∃ l, rules = VObj l) ∨ (∃ l, rules = VArr l) →
  ∃ s',
    validateTemplate templateFile s
    = (Ret (TemplateResult.mk templateFile true []
              (if Js.strict_equals_number version 1 then []
               else ["Unexpected version: " +:+ Js.ToString version
                     +:+ " (expected: 1)"])),
       s')
    ∧ world s' = world s.
Proof.
  intros Hex Hread Hparse Hshadow Hversion Hrules Hdescription Htype Hne Hobj.
  unfold validateTemplate. rewrite bind_run. unfold console_log at 1.
  rewrite print_run. unfold with_local, try_catch.
  rewrite bind_run, lift_run.
  unfold FileUtils.exists_, existsSync, observe. cbn [world printing].
  rewrite Hex. cbn [negb fst snd].
  rewrite bind_run, lift_run.
  rewrite (readJsonFile_run _ _ text (VObj props)) by done.
  unfold requiredFields. rewrite bind_run.
  unfold Js.call_hasOwnProperty. rewrite Hshadow.
  do 4 (rewrite for_each_cons, bind_run, prim_run;
        rewrite ?Hversion, ?Hrules, ?Hdescription, ?Htype;
        rewrite bool_decide_eq_true_2 by eauto;
        cbn [negb]; rewrite mret_run).
  cbn [for_each]. unfold ret at 1. unfold Js.get.
  rewrite Hversion, Hrules, Htype. cbn [default id].
  assert (negb (Js.truthy rules)
          || negb (String.eqb (Js.typeof rules) "object") = false) as Hr.
  { by destruct Hobj as [[l ->]|[l ->]]. }
  assert (negb (Js.truthy (VStr type))
          || negb (String.eqb (Js.typeof (VStr type)) "string") = false)
    as Ht.
  { simpl. by rewrite bool_decide_eq_false_2. }
  rewrite bind_run, prim_run, bind_run.
  destruct (Js.strict_equals_number version 1); cbn [negb];
    rewrite ?mret_run, ?update_run;
    rewrite bind_run, prim_run, bind_run, Ht, mret_run;
    rewrite bind_run, prim_run, bind_run, Hr, mret_run;
    rewrite bind_run, lift_run; unfold console_log; rewrite print_run;
    rewrite read_run; by eexists.
Qed.

End TemplateClaim.

Section CompileFacts.
Context {W : Type} `{NodeEnv W}.
Import SrsBuilder.

Local Ltac next :=
  rewrite bind_run;
  lazymatch goal with
  | |- (match ?x with _ => _ end) = _ → _ =>
      destruct x as [[?|?] ?] eqn:?; [|discriminate]
  end.

(** [buildWithSingBox] returns [true] only after [sing-box] has
    returned and left a non-empty output file: a non-zero exit or a
    timeout (a throw of [execSync]), a missing file and an empty file
    all make it return [false], or throw from the clean-up. *)
Lemma buildWithSingBox_true ruleData outputFile (s s' : state W) :
  buildWithSingBox ruleData outputFile s = (Ret true, s') →
  ∃ w tempJsonFile w' size,
    child_process_execSync w (compile_command outputFile tempJsonFile)
    = (Ret tt, w')
    ∧ fs_existsSync w' outputFile = true
    ∧ fs_statSync_size w' outputFile = Ret size
    ∧ (0 < size)%Z.
Proof.
  unfold buildWithSingBox. next. unfold try_finally.
  lazymatch goal with
  | |- (let (_, _) := ?x in _) = _ → _ =>
      destruct x as [r s1] eqn:Htry
  end.
  destruct (cleanTempDir s1) as [[[]|e] s2]; [|discriminate].
  intros [= -> <-]. revert Htry. unfold try_catch.
  lazymatch goal with
  | |- (let (_, _) := ?x in _) = _ → _ =>
      destruct x as [[b|e] s3] eqn:Hbody
  end.
  2:{ rewrite bind_run. unfold console_error. rewrite print_run.
      discriminate. }
  intros [= -> ->]. revert Hbody.
  do 4 next. rewrite bind_run. unfold console_log at 1. rewrite print_run.
  rewrite bind_run. unfold execSync at 1, effect.
  cbn [world console printing].
  destruct (child_process_execSync _ _) as [[[]|e] w'] eqn:Hexec;
    [|discriminate].
  rewrite bind_run. unfold existsSync at 1, observe. cbn [world].
  destruct (fs_existsSync w' outputFile) eqn:Hex.
  2:{ rewrite bind_run. unfold console_warn. rewrite print_run.
      discriminate. }
  rewrite bind_run. unfold statSync_size at 1, observe. cbn [world].
  destruct (fs_statSync_size w' outputFile) as [size|e] eqn:Hsize;
    [|discriminate].
  destruct (0 <? size)%Z eqn:Hpos.
  2:{ rewrite bind_run. unfold console_warn. rewrite print_run.
      discriminate. }
  intros _. apply Z.ltb_lt in Hpos. eauto 10.
Qed.

End CompileFacts.

Section TemplateExamples.
Import TestEnv RuleValidator.

(** C8: a template document with the four required fields, a
    non-empty string [type] and an object for [rules] is reported as
    not valid when it also has a property named [hasOwnProperty]: the
    call [template.hasOwnProperty(field)] then throws, and the handler
    records the failure as an error. *)
Theorem C8_template_with_own_hasOwnProperty_is_rejected :
  parse template_shadow
  = Ret (VObj [("version", VNum 1);
               ("rules", VObj [("domain-suffix", VArr [])]);
               ("description", VStr "Domains");
               ("type", VStr "domain-suffix");
               ("hasOwnProperty", VBool true)])
  ∧ ∃ s',
      validateTemplate "shadow.json" (start (checkout false))
      = (Ret (TemplateResult.mk "shadow.json" false
                ["Template validation failed: "
                 +:+ "template.hasOwnProperty is not a function"]
                []),
         s').
Proof. split; [done|]. eexists. vm_compute. reflexivity. Qed.

(** Version 2 in place of 1 is a warning and the template is valid. *)
Lemma validateTemplate_version_2 :
  ∃ s',
    validateTemplate "next.json" (start (checkout false))
    = (Ret (TemplateResult.mk "next.json" true []
              ["Unexpected version: 2 (expected: 1)"]),
       s')
    ∧ world s' = checkout false.
Proof.
  apply (validateTemplate_version_only_warns (W := machine) "next.json"
           (start (checkout false)) template_v2 (template_fields 2)
           (VNum 2) (VStr "Domains") "domain-suffix"
           (VObj [("domain-suffix", VArr [])]));
    try done; eauto.
Qed.

End TemplateExamples.

(** * The pipeline on the checkout *)

Section PipelineExamples.
Import TestEnv.

Example parseContent_drops_blank_and_comment_lines :
  RuleParser.parseContent
    ("example.com" +:+ nl +:+ "# comment" +:+ nl +:+ "  // note" +:+ nl
     +:+ nl +:+ "  bad_domain!  " +:+ nl)
  = ["example.com"; "bad_domain!"].
Proof. done. Qed.

Example isValidCidr_ipv6 :
  RuleParser.isValidCidr "2001:db8::1/32" = true
  ∧ RuleParser.isValidCidr "::1/128" = true
  ∧ RuleParser.isValidCidr "fe80::/10" = true
  ∧ RuleParser.isValidCidr "1:2:3:4:5:6:7/64" = false
  ∧ RuleParser.isValidCidr "10.0.0.0" = false.
Proof. by vm_compute. Qed.

Example isValidProcessName_no_separator :
  RuleParser.isValidProcessName "chrome.exe" = true
  ∧ RuleParser.isValidProcessName "my_app-2" = true
  ∧ RuleParser.isValidProcessName "/usr/bin/curl" = false
  ∧ RuleParser.isValidProcessName "" = false.
Proof. by vm_compute. Qed.

(** With [sing-box] installed the one buildable source is compiled: the
    valid set is [["example.com"]], one line of the two is invalid, and
    the report has one success and six skipped configs. *)
Example buildAll_on_the_checkout :
  ∃ a results s',
    RuleBuilder.buildAll (start (checkout true)) = (Ret results, s')
    ∧ RuleBuilder.success results = [a]
    ∧ RuleBuilder.Artifact.rules a = ["example.com"]
    ∧ RuleBuilder.failed results = []
    ∧ length (RuleBuilder.skipped results) = 6
    ∧ is_Some (files (world s') !! "/repo/dist/direct-domains.srs")
    ∧ is_Some (files (world s') !! "/repo/dist/build-report.json")
    ∧ files (world s') !! "/repo/dist/direct-domains.json" = None.
Proof.
  destruct (RuleBuilder.buildAll (start (checkout true)))
    as [[results|e] s'] eqn:Hrun; vm_compute in Hrun; [|done].
  injection Hrun as <- <-. eexists _, _, _. split; [done|].
  split; [done|]. vm_compute. eauto 10.
Qed.

(** The validator on the same checkout: five sources are absent and two
    have invalid lines, and of the three configured templates only
    [domain-suffix.json] is there. *)
Example validateAll_on_the_checkout :
  ∃ results s',
    RuleValidator.validateAll (start (checkout true)) = (Ret results, s')
    ∧ RuleValidator.valid_files (RuleValidator.summary results) = 1
    ∧ RuleValidator.invalid_files (RuleValidator.summary results) = 9
    ∧ RuleValidator.exit_status results = 1.
Proof.
  destruct (RuleValidator.validateAll (start (checkout true)))
    as [[results|e] s'] eqn:Hrun; vm_compute in Hrun; [|done].
  injection Hrun as <- <-. by eexists _, _.
Qed.

End PipelineExamples.

(** * Further properties of the parser *)

Module TrimFacts.
Import JsString.

Lemma trim_start_head l :
  match trim_start l with
  | [] => True
  | c :: _ => is_white_space c = false
  end.
Proof.
  induction l as [|c l IH]; simpl; [done|].
  by destruct (is_white_space c) eqn:Hc.
Qed.

Lemma trim_start_fixed c l :
  is_white_space c = false → trim_start (c :: l) = c :: l.
Proof. intros Hc. simpl. by rewrite Hc. Qed.

Lemma trim_start_idempotent l : trim_start (trim_start l) = trim_start l.
Proof.
  pose proof (trim_start_head l) as Hh.
  destruct (trim_start l) as [|c t]; [done|]. by apply trim_start_fixed.
Qed.

(** Trimming the start keeps a last character that is not white
    space. *)
Lemma trim_start_snoc l c :
  is_white_space c = false → ∃ t, trim_start (l ++ [c]) = t ++ [c].
Proof.
  intros Hc. induction l as [|x l (t & IH)]; simpl.
  - rewrite Hc. by exists [].
  - destruct (is_white_space x); [by exists t|].
    by exists (x :: l).
Qed.

Lemma trim_end_head c l :
  is_white_space c = false → ∃ t, trim_end (c :: l) = c :: t.
Proof.
  intros Hc. unfold trim_end. simpl rev.
  destruct (trim_start_snoc (rev l) c Hc) as (t & ->).
  exists (rev t). by rewrite rev_app_distr.
Qed.

Lemma trim_end_idempotent l : trim_end (trim_end l) = trim_end l.
Proof.
  unfold trim_end. by rewrite rev_involutive, trim_start_idempotent.
Qed.

(** A trimmed list is left alone by both halves of [trim]. *)
Lemma trim_fixed l :
  let t := trim_end (trim_start l) in
  trim_start t = t ∧ trim_end t = t.
Proof.
  intros t. subst t. split; [|apply trim_end_idempotent].
  pose proof (trim_start_head l) as Hh.
  destruct (trim_start l) as [|c u]; [done|].
  destruct (trim_end_head c u Hh) as (v & ->). by apply trim_start_fixed.
Qed.

Lemma trim_idempotent s : trim (trim s) = trim s.
Proof.
  unfold trim. rewrite DomainFacts.chars_of_chars.
  destruct (trim_fixed (chars s)) as [-> ->]. done.
Qed.

End TrimFacts.

Section ParserExtras.
Import RuleParser.

(** X1: every line that the parse of a source returns is not empty, is
    its own [trim] (no white space at either end), is not blank for
    [getRuleStats], and starts with neither [#] nor [//]. *)
Theorem X1_parseContent_lines_are_clean (content : string) :
  Forall is_clean_line (parseContent content).
Proof.
  unfold parseContent. apply Forall_forall. intros line Hin.
  apply list_elem_of_In, filter_In in Hin as [Hin Hline].
  apply list_elem_of_In, list_elem_of_fmap in Hin as (raw & -> & _).
  unfold is_rule_line in Hline.
  rewrite !andb_true_iff, !negb_true_iff in Hline.
  destruct Hline as [[Hne Hhash] Hslash].
  apply bool_decide_eq_false in Hne.
  pose proof (TrimFacts.trim_idempotent raw) as Hidem.
  unfold is_clean_line, is_blank. rewrite Hidem.
  repeat split; try done.
  by rewrite !bool_decide_eq_false_2.
Qed.

End ParserExtras.

Module ProcessFacts.
Import Regex RegexFacts RuleParser ProcessGrammar.

Lemma process_class c : in_class process_char c = is_process_char c.
Proof. by destruct c as [[] [] [] [] [] [] [] []]. Qed.

(** [[...]*]: any number of characters of the class. *)
Lemma lang_Star_Cls rs w :
  lang (Star (Cls rs)) w ↔ forallb (in_class rs) w = true.
Proof.
  cbn [lang]. split.
  - intros (us & -> & Hus). induction Hus as [|u us (c & -> & Hc) _ IH];
      [done|].
    simpl. by rewrite Hc, IH.
  - intros Hw. exists ((λ c, [c]) <$> w). split.
    + clear Hw. induction w as [|c w IH]; [done|].
      change (c :: w = c :: concat ((λ c, [c]) <$> w)). by f_equal.
    + induction w as [|c w IH]; [constructor|]. simpl in Hw.
      apply andb_true_iff in Hw as [Hc Hw].
      constructor; [by exists c|by apply IH].
Qed.

(** [[...]+]: at least one. *)
Lemma lang_Plus_Cls rs w :
  lang (Plus (Cls rs)) w ↔ w ≠ [] ∧ forallb (in_class rs) w = true.
Proof.
  unfold Plus. split.
  - intros (u & v & -> & (c & -> & Hc) & Hv%lang_Star_Cls).
    split; [done|]. simpl. by rewrite Hc, Hv.
  - intros [Hne Hw]. destruct w as [|c w]; [done|]. simpl in Hw.
    apply andb_true_iff in Hw as [Hc Hw].
    exists [c], w. split; [done|].
    split; [by exists c|by apply lang_Star_Cls].
Qed.

Lemma forallb_process_char w :
  forallb (in_class process_char) w = forallb is_process_char w.
Proof.
  induction w as [|c w IH]; cbn [forallb]; [done|].
  by rewrite process_class, IH.
Qed.

Lemma isValidProcessName_grammar processName :
  isValidProcessName processName = is_process_name processName.
Proof.
  unfold isValidProcessName, is_process_name.
  case_bool_decide as He; [done|]. cbn [negb andb].
  unfold test, processNameRegex.
  apply eq_true_iff_eq. rewrite matches_lang, lang_Plus_Cls.
  rewrite forallb_process_char. split; [tauto|].
  intros Hw. split; [|done]. intros Hc. by apply CidrFacts.chars_nil in Hc.
Qed.

End ProcessFacts.

Section ProcessExtras.
Import RuleParser.

(** X2: [isValidProcessName] accepts exactly the non-empty names made
    of letters, digits, underscores, hyphens and dots; one character
    outside that set, a path separator or a space for instance, makes
    the whole name invalid. *)
Theorem X2_isValidProcessName_characters :
  (∀ processName : string,
     isValidProcessName processName
     = ProcessGrammar.is_process_name processName)
  ∧ (∀ (processName : string) (c : ascii),
       c ∈ JsString.chars processName →
       ProcessGrammar.is_process_char c = false →
       isValidProcessName processName = false).
Proof.
  split; [apply ProcessFacts.isValidProcessName_grammar|].
  intros processName c Hc Hbad.
  rewrite ProcessFacts.isValidProcessName_grammar.
  unfold ProcessGrammar.is_process_name.
  apply andb_false_iff. right. apply not_true_is_false.
  rewrite forallb_forall. intros Hall.
  apply list_elem_of_In, Hall in Hc. congruence.
Qed.

Lemma X2_witness : isValidProcessName "/usr/bin/curl" = false.
Proof.
  apply (proj2 X2_isValidProcessName_characters "/usr/bin/curl" "/"%char).
  - apply list_elem_of_In. simpl. tauto.
  - done.
Defined.

End ProcessExtras.

Module CidrInversion.
Import Regex RegexFacts RuleParser CidrShape.

Lemma of_chars_app l1 l2 :
  JsString.of_chars (l1 ++ l2)
  = JsString.of_chars l1 +:+ JsString.of_chars l2.
Proof.
  unfold JsString.of_chars. induction l1 as [|c l1 IH]; [done|].
  cbn. by rewrite IH.
Qed.

Lemma of_chars_app_cons l1 c l2 :
  JsString.of_chars (l1 ++ c :: l2)
  = JsString.of_chars l1 +:+ String c EmptyString +:+ JsString.of_chars l2.
Proof. by rewrite of_chars_app. Qed.

Lemma digits_of_lang lo hi l :
  lo ≤ hi → lang (Rep (Cls digit) lo hi) l →
  digits lo hi (JsString.of_chars l) = true.
Proof.
  intros Hlh [[Hlo Hhi] Hd]%CidrFacts.lang_Rep_Cls; [|done].
  unfold digits. rewrite DomainFacts.chars_of_chars.
  rewrite !andb_true_iff, !Nat.leb_le. split; [done|].
  clear Hlo Hhi. induction l as [|c l IH]; [done|].
  cbn [forallb] in Hd |- *. apply andb_true_iff in Hd as [Hc Hl].
  by rewrite <-CidrFacts.digit_class, Hc, IH.
Qed.

Lemma lang_octet_dot_inv u :
  lang (Cat (Rep (Cls digit) 1 3) (Chr ".")) u →
  ∃ a, u = a ++ ["."%char] ∧ lang (Rep (Cls digit) 1 3) a.
Proof. intros (a & dot & -> & Ha & ->%DomainFacts.lang_Chr). eauto. Qed.

(** What the IPv4 pattern accepts is of the IPv4 shape. *)
Lemma lang_ipv4Regex_inv w :
  lang ipv4Regex w →
  ∃ a b c d p,
    w = a ++ "."%char :: b ++ "."%char :: c ++ "."%char :: d ++ "/"%char :: p
    ∧ lang (Rep (Cls digit) 1 3) a ∧ lang (Rep (Cls digit) 1 3) b
    ∧ lang (Rep (Cls digit) 1 3) c ∧ lang (Rep (Cls digit) 1 3) d
    ∧ lang (Rep (Cls digit) 1 2) p.
Proof.
  unfold ipv4Regex.
  intros (u & v & -> & (u1 & u2 & -> & Hthree & Hnone)
            & (d & v' & -> & Hd & (sl & p & -> & ->%DomainFacts.lang_Chr & Hp))).
  cbn in Hnone. subst u2.
  destruct Hthree as (x1 & r1 & -> & (a & -> & Ha)%lang_octet_dot_inv & Hr1).
  destruct Hr1 as (x2 & r2 & -> & (b & -> & Hb)%lang_octet_dot_inv & Hr2).
  destruct Hr2 as (x3 & r3 & -> & (c & -> & Hc)%lang_octet_dot_inv & Hr3).
  cbn in Hr3. subst r3.
  exists a, b, c, d, p. split; [|done].
  rewrite !app_nil_r, <-!app_assoc. done.
Qed.

Lemma lang_hc_colon w : lang hc w → ":"%char ∈ w.
Proof.
  intros (h & c & -> & _ & ->%DomainFacts.lang_Chr).
  apply elem_of_app. right. apply list_elem_of_singleton. done.
Qed.

Lemma lang_Rep_hc_colon lo hi w : lang (Rep hc (S lo) hi) w → ":"%char ∈ w.
Proof.
  intros (u & v & -> & (h & t & -> & Hh%lang_hc_colon & _) & _).
  apply elem_of_app. left. apply elem_of_app. by left.
Qed.

(** Every IPv6 address of the pattern has a colon. *)
Lemma lang_ipv6_address_colon w : lang ipv6_address w → ":"%char ∈ w.
Proof.
  unfold ipv6_address, ipv6Regex.
  intros [H|[H|[H|[H|[H|[H|[H|[H|H]]]]]]]];
    destruct H as (x & y & -> & Hx & _); apply elem_of_app; left;
    first [ by eapply lang_Rep_hc_colon
          | by apply lang_hc_colon
          | apply DomainFacts.lang_Chr in Hx as ->;
            by apply list_elem_of_singleton ].
Qed.

Lemma lang_ipv6Regex_inv w :
  lang ipv6Regex w →
  ∃ address p,
    w = address ++ "/"%char :: p
    ∧ lang ipv6_address address ∧ lang (Rep (Cls digit) 1 3) p.
Proof.
  unfold ipv6Regex.
  intros (u & v & -> & Hu & (sl & p & -> & ->%DomainFacts.lang_Chr & Hp)).
  by exists u, p.
Qed.

(** The IPv4 direction of [isValidCidr]. *)
Lemma isValidCidr_ipv4_shape s : ipv4_shape s → isValidCidr s = true.
Proof.
  intros (a & b & c & d & p & -> & Ha & Hb & Hc & Hd & Hp).
  apply CidrFacts.lang_digits in Ha, Hb, Hc, Hd, Hp; try lia.
  pose proof (CidrFacts.lang_ipv4Regex _ _ _ _ _ Ha Hb Hc Hd Hp) as Hl.
  unfold isValidCidr. case_bool_decide as He.
  - apply (f_equal JsString.chars) in He.
    rewrite !CidrFacts.chars_app in He.
    by apply app_eq_nil in He as [_ He].
  - apply orb_true_iff. left. unfold Regex.test.
    apply RegexFacts.matches_lang.
    by rewrite !CidrFacts.chars_app.
Qed.

Lemma isValidCidr_lang s :
  isValidCidr s = true →
  lang ipv4Regex (JsString.chars s) ∨ lang ipv6Regex (JsString.chars s).
Proof.
  unfold isValidCidr. case_bool_decide; [done|].
  unfold test. rewrite orb_true_iff, !matches_lang. done.
Qed.

Lemma digits_weaken lo hi hi' s :
  hi ≤ hi' → digits lo hi s = true → digits lo hi' s = true.
Proof.
  unfold digits. rewrite !andb_true_iff, !Nat.leb_le.
  intros Hle [[Hlo Hhi] Hd]. repeat split; [done|lia|done].
Qed.

End CidrInversion.

Section CidrExtras.
Import RuleParser.

(** X3: among the strings without a colon, [isValidCidr] accepts
    exactly those of the IPv4 shape: four groups of one to three digits
    joined by dots, a slash, and one or two digits.  A missing octet, a
    missing prefix or a prefix of three digits is rejected. *)
Theorem X3_isValidCidr_ipv4_exact (s : string) :
  ":"%char ∉ JsString.chars s →
  isValidCidr s = true ↔ ipv4_shape s.
Proof.
  intros Hcolon. split; [|apply CidrInversion.isValidCidr_ipv4_shape].
  intros [H4|H6]%CidrInversion.isValidCidr_lang.
  - apply CidrInversion.lang_ipv4Regex_inv in H4
      as (a & b & c & d & p & Hs & Ha & Hb & Hc & Hd & Hp).
    exists (JsString.of_chars a), (JsString.of_chars b),
      (JsString.of_chars c), (JsString.of_chars d), (JsString.of_chars p).
    split.
    + rewrite <-(DomainFacts.of_chars_chars s), Hs.
      by rewrite !CidrInversion.of_chars_app_cons.
    + repeat split; by apply CidrInversion.digits_of_lang; [lia|].
  - apply CidrInversion.lang_ipv6Regex_inv in H6
      as (address & p & Hs & Hcol%CidrInversion.lang_ipv6_address_colon & _).
    destruct Hcolon. rewrite Hs. apply elem_of_app. by left.
Qed.

Lemma X3_witness :
  isValidCidr "10.0.0.0/8" = true ↔ ipv4_shape "10.0.0.0/8".
Proof.
  apply X3_isValidCidr_ipv4_exact. intros Hin.
  apply list_elem_of_In in Hin. simpl in Hin.
  repeat (destruct Hin as [Hin|Hin]; [discriminate|]). done.
Defined.

(** X4: whatever [isValidCidr] accepts ends with a slash and one to
    three digits after a non-empty address: an address without a prefix
    length is never valid. *)
Theorem X4_isValidCidr_has_prefix_length (s : string) :
  isValidCidr s = true →
  ∃ address p : string,
    s = address +:+ "/" +:+ p
    ∧ address ≠ "" ∧ CidrShape.digits 1 3 p = true.
Proof.
  intros [H4|H6]%CidrInversion.isValidCidr_lang.
  - apply CidrInversion.lang_ipv4Regex_inv in H4
      as (a & b & c & d & p & Hs & Ha & _ & _ & _ & Hp).
    exists (JsString.of_chars
              (a ++ "."%char :: b ++ "."%char :: c ++ "."%char :: d)),
      (JsString.of_chars p).
    split; [|split].
    + rewrite <-(DomainFacts.of_chars_chars s), Hs.
      rewrite <-CidrInversion.of_chars_app_cons. f_equal.
      by repeat (rewrite <-app_assoc; simpl).
    + intros He. apply (f_equal JsString.chars) in He.
      rewrite DomainFacts.chars_of_chars in He.
      by apply app_eq_nil in He as [_ He].
    + apply (CidrInversion.digits_weaken 1 2 3); [lia|].
      by apply CidrInversion.digits_of_lang; [lia|].
  - apply CidrInversion.lang_ipv6Regex_inv in H6
      as (address & p & Hs & Hcol%CidrInversion.lang_ipv6_address_colon & Hp).
    exists (JsString.of_chars address), (JsString.of_chars p).
    split; [|split].
    + rewrite <-(DomainFacts.of_chars_chars s), Hs.
      by rewrite !CidrInversion.of_chars_app_cons.
    + intros He. apply (f_equal JsString.chars) in He.
      rewrite DomainFacts.chars_of_chars in He. rewrite He in Hcol.
      by apply elem_of_nil in Hcol.
    + by apply CidrInversion.digits_of_lang; [lia|].
Qed.

Lemma X4_witness :
  ∃ address p : string,
    "fe80::/10" = address +:+ "/" +:+ p
    ∧ address ≠ "" ∧ CidrShape.digits 1 3 p = true.
Proof. apply X4_isValidCidr_has_prefix_length. by vm_compute. Defined.

End CidrExtras.

(** ** Reasoning backwards from what a script must establish *)

Section WpFacts.
Context {S : Type}.

Lemma wp_run {A} (m : M S A) Q s : wp m Q s → ∃ r s', m s = (r, s') ∧ Q r s'.
Proof. unfold wp. destruct (m s) as [r s']. eauto. Qed.


Lemma wp_mono {A} (m : M S A) (Q Q' : outcome A → S → Prop) s :
  wp m Q s → (∀ r s', Q r s' → Q' r s') → wp m Q' s.
Proof. unfold wp. eauto. Qed.

Lemma wp_ret {A} (a : A) (Q : outcome A → S → Prop) s :
  Q (Ret a) s → wp (mret a) Q s.
Proof. done. Qed.

Lemma wp_prim {A} (o : outcome A) (Q : outcome A → S → Prop) s :
  Q o s → wp (prim o) Q s.
Proof. done. Qed.

Lemma wp_throw {A} e (Q : outcome A → S → Prop) s :
  Q (Throw e) s → wp (throw e) Q s.
Proof. done. Qed.

Lemma wp_bind {A B} (m : M S A) (k : A → M S B) Q s :
  wp m (λ r s', match r with
                | Ret a => wp (k a) Q s'
                | Throw e => Q (Throw e) s'
                end) s →
  wp (m ≫= k) Q s.
Proof. unfold wp. rewrite bind_run. by destruct (m s) as [[a|e] s']. Qed.

Lemma wp_try_catch {A} (body : M S A) (handler : exn → M S A) Q s :
  wp body (λ r s', match r with
                   | Ret a => Q (Ret a) s'
                   | Throw e => wp (handler e) Q s'
                   end) s →
  wp (try_catch body handler) Q s.
Proof. unfold wp, try_catch. by destruct (body s) as [[a|e] s']. Qed.

Lemma wp_try_finally {A} (body : M S A) (fin : M S unit) Q s :
  wp body (λ r s', wp fin (λ r' s'', match r' with
                                     | Ret _ => Q r s''
                                     | Throw e => Q (Throw e) s''
                                     end) s') s →
  wp (try_finally body fin) Q s.
Proof.
  unfold wp, try_finally. destruct (body s) as [r s'].
  simpl. by destruct (fin s') as [[[]|e] s''].
Qed.

(** A loop, with what holds after the turns taken so far. *)
Lemma wp_for_each {A} (I : list A → S → Prop) (l : list A)
    (body : A → M S unit) (Q : outcome unit → S → Prop) s :
  I [] s →
  (∀ pre x suf s, l = pre ++ x :: suf → I pre s →
     wp (body x) (λ r s', match r with
                          | Ret _ => I (pre ++ [x]) s'
                          | Throw e => Q (Throw e) s'
                          end) s) →
  (∀ s, I l s → Q (Ret tt) s) →
  wp (for_each l body) Q s.
Proof.
  intros Hinit Hbody Hend.
  enough (∀ suf pre s, l = pre ++ suf → I pre s → wp (for_each suf body) Q s)
    as Hgen by by apply (Hgen l []).
  clear s Hinit. induction suf as [|x suf IH]; intros pre s Hl Hpre.
  - rewrite app_nil_r in Hl. subst pre. by apply Hend.
  - unfold wp. rewrite for_each_cons.
    pose proof (Hbody pre x suf s Hl Hpre) as Hx. unfold wp in Hx.
    destruct (body x s) as [[[]|e] s']; [|done].
    apply (IH (pre ++ [x])); [by rewrite <-app_assoc|done].
Qed.

Lemma wp_lift {L A} (m : M S A) (Q : outcome A → S * L → Prop) s l :
  wp m (λ r s', Q r (s', l)) s → wp (lift m) Q (s, l).
Proof. unfold wp. rewrite lift_run. by destruct (m s). Qed.

Lemma wp_update {L} (f : L → L) (Q : outcome unit → S * L → Prop) s l :
  Q (Ret tt) (s, f l) → wp (update f) Q (s, l).
Proof. done. Qed.

Lemma wp_read {L} (Q : outcome L → S * L → Prop) s l :
  Q (Ret l) (s, l) → wp read Q (s, l).
Proof. done. Qed.

Lemma wp_with_local {L A} (init : L) (m : M (S * L) A) Q s :
  wp m (λ r sl, Q r sl.1) (s, init) → wp (with_local init m) Q s.
Proof. unfold wp, with_local. by destruct (m (s, init)). Qed.

End WpFacts.

Section WpRuntime.
Context {W : Type} `{NodeEnv W}.

Lemma wp_print l text (Q : outcome unit → state W → Prop) s :
  Q (Ret tt) (printing s [(l, text)]) → wp (print l text) Q s.
Proof. done. Qed.

Lemma wp_observe {A} (f : W → outcome A) (Q : outcome A → state W → Prop) s :
  Q (f (world s)) s → wp (observe f) Q s.
Proof. done. Qed.

Lemma wp_effect {A} (f : W → outcome A * W)
    (Q : outcome A → state W → Prop) s :
  (∀ r w', f (world s) = (r, w') → Q r (mkState w' (console s))) →
  wp (effect f) Q s.
Proof.
  intros HQ. unfold wp, effect.
  destruct (f (world s)) as [r w'] eqn:Hf. by apply HQ.
Qed.

End WpRuntime.

(** ** The two counters of repeated rules *)

Module DuplicateFacts.
Import RuleParser.

(** The four counters of [getRuleStats] in closed form. *)
Lemma getRuleStats_fields rules :
  total (getRuleStats rules) = length rules
  ∧ empty (getRuleStats rules) = length (blank rules)
  ∧ valid (getRuleStats rules) = length (remove_dups (nonblank rules))
  ∧ valid (getRuleStats rules) + duplicate (getRuleStats rules)
    = length (nonblank rules).
Proof.
  unfold getRuleStats.
  fold (getRuleStats_loop (mkStats (length rules) 0 0 0, ∅) rules).
  rewrite StatsFacts.loop_occurrences, StatsFacts.loop_total,
    StatsFacts.loop_empty, StatsFacts.loop_valid.
  cbn [fst snd total empty valid duplicate].
  rewrite difference_empty_L, StatsFacts.size_distinct. done.
Qed.

(** The loop of [validateSourceFile] that counts the repeated rules,
    from any set of rules already seen. *)
Lemma count_loop rules : ∀ (seen : gset string) (d : nat),
  (foldl (λ '(uniqueRules, duplicates) rule,
            if bool_decide (rule ∈ uniqueRules)
            then (uniqueRules, S duplicates)
            else ({[rule]} ∪ uniqueRules, duplicates))
     (seen, d) rules).2
  + size (list_to_set rules ∖ seen : gset string)
  = d + length rules.
Proof.
  induction rules as [|r rules IH]; intros seen d.
  - simpl. replace (∅ ∖ seen) with (∅ : gset string) by set_solver.
    by rewrite size_empty.
  - cbn [foldl list_to_set length].
    set (X := list_to_set rules : gset string) in *.
    case_bool_decide as Hr.
    + pose proof (IH seen (S d)) as IH'.
      replace (({[r]} ∪ X) ∖ seen) with (X ∖ seen) by set_solver. lia.
    + pose proof (IH ({[r]} ∪ seen) d) as IH'.
      replace (({[r]} ∪ X) ∖ seen) with ({[r]} ∪ X ∖ ({[r]} ∪ seen)).
      2:{ apply set_eq. intros x. destruct (decide (x = r)); set_solver. }
      assert ({[r]} ## X ∖ ({[r]} ∪ seen)) as Hdisj by set_solver.
      rewrite (size_union _ _ Hdisj), size_singleton. lia.
Qed.

Lemma count_duplicates_distinct rules :
  RuleValidator.count_duplicates rules + length (remove_dups rules)
  = length rules.
Proof.
  unfold RuleValidator.count_duplicates.
  rewrite <-StatsFacts.size_distinct.
  rewrite <-(difference_empty_L (list_to_set rules)).
  apply (count_loop rules ∅ 0).
Qed.

Lemma filter_Permutation {A} (p : A → bool) (l1 l2 : list A) :
  l1 ≡ₚ l2 → List.filter p l1 ≡ₚ List.filter p l2.
Proof.
  induction 1 as [|x l1 l2 _ IH|x y l|l1 l2 l3 _ IH1 _ IH2]; simpl.
  - done.
  - destruct (p x); by rewrite IH.
  - destruct (p x), (p y); try done. apply perm_swap.
  - by rewrite IH1.
Qed.

Lemma remove_dups_length_Permutation (l1 l2 : list string) :
  l1 ≡ₚ l2 → length (remove_dups l1) = length (remove_dups l2).
Proof.
  intros Hp. rewrite <-!StatsFacts.size_distinct. f_equal.
  apply set_eq. intros x. rewrite !elem_of_list_to_set. by rewrite Hp.
Qed.

(** The lines of a parsed source are not blank. *)
Lemma parseContent_not_blank content :
  nonblank (parseContent content) = parseContent content.
Proof.
  unfold nonblank. apply forallb_filter_id, forallb_forall.
  intros line Hin. unfold parseContent in Hin.
  apply filter_In in Hin as [Hin Hline].
  apply list_elem_of_In, list_elem_of_fmap in Hin as (raw & -> & _).
  unfold is_rule_line in Hline.
  rewrite !andb_true_iff, !negb_true_iff in Hline.
  destruct Hline as [[Hne _] _]. apply bool_decide_eq_false in Hne.
  unfold is_blank. rewrite TrimFacts.trim_idempotent.
  by rewrite !bool_decide_eq_false_2.
Qed.

End DuplicateFacts.

Section DuplicateExtras.
Import RuleParser.

(** X5: the loop of [validateSourceFile] that counts repeated rules
    finds the length of the list less the number of distinct rules;
    the [duplicate] counter of [getRuleStats] is that count on the
    rules that are not blank; so on the lines of a parsed source the
    two counters agree, and [getRuleStats] finds no empty rule there. *)
Theorem X5_duplicate_counters_agree :
  (∀ rules : list string,
     RuleValidator.count_duplicates rules + length (remove_dups rules)
     = length rules)
  ∧ (∀ rules : list string,
       duplicate (getRuleStats rules)
       = RuleValidator.count_duplicates (nonblank rules))
  ∧ (∀ content : string,
       let rules := parseContent content in
       duplicate (getRuleStats rules) = RuleValidator.count_duplicates rules
       ∧ empty (getRuleStats rules) = 0).
Proof.
  assert (∀ rules : list string,
            duplicate (getRuleStats rules)
            = RuleValidator.count_duplicates (nonblank rules)) as Hagree.
  { intros rules.
    destruct (DuplicateFacts.getRuleStats_fields rules)
      as (_ & _ & Hvalid & Hocc).
    pose proof (DuplicateFacts.count_duplicates_distinct (nonblank rules)).
    lia. }
  split; [apply DuplicateFacts.count_duplicates_distinct|].
  split; [done|]. intros content rules. subst rules. split.
  - by rewrite Hagree, DuplicateFacts.parseContent_not_blank.
  - destruct (DuplicateFacts.getRuleStats_fields (parseContent content))
      as (_ & -> & _).
    pose proof (StatsFacts.length_blank_nonblank (parseContent content)) as Hl.
    rewrite DuplicateFacts.parseContent_not_blank in Hl. lia.
Qed.

(** X6: the counters do not depend on the order of the rules:
    [getRuleStats] and the duplicate count of [validateSourceFile] are
    the same on two lists that are permutations of each other. *)
Theorem X6_counters_ignore_order (rules1 rules2 : list string) :
  rules1 ≡ₚ rules2 →
  getRuleStats rules1 = getRuleStats rules2
  ∧ RuleValidator.count_duplicates rules1
    = RuleValidator.count_duplicates rules2.
Proof.
  intros Hp.
  pose proof (Permutation_length Hp) as Hlen.
  pose proof (Permutation_length
                (DuplicateFacts.filter_Permutation is_blank _ _ Hp)) as Hblank.
  pose proof (DuplicateFacts.filter_Permutation
                (λ r, negb (is_blank r)) _ _ Hp) as Hnb.
  fold (blank rules1) (blank rules2) in Hblank.
  fold (nonblank rules1) (nonblank rules2) in Hnb.
  pose proof (Permutation_length Hnb) as Hnblen.
  pose proof (DuplicateFacts.remove_dups_length_Permutation _ _ Hnb) as Hnd.
  pose proof (DuplicateFacts.remove_dups_length_Permutation _ _ Hp) as Hd.
  split.
  - destruct (DuplicateFacts.getRuleStats_fields rules1)
      as (Ht1 & He1 & Hv1 & Ho1).
    destruct (DuplicateFacts.getRuleStats_fields rules2)
      as (Ht2 & He2 & Hv2 & Ho2).
    destruct (getRuleStats rules1) as [t1 e1 d1 v1].
    destruct (getRuleStats rules2) as [t2 e2 d2 v2].
    simpl in *. f_equal; lia.
  - pose proof (DuplicateFacts.count_duplicates_distinct rules1).
    pose proof (DuplicateFacts.count_duplicates_distinct rules2).
    lia.
Qed.

Lemma X6_witness :
  getRuleStats ["b.org"; "a.com"; ""; "a.com"]
  = getRuleStats ["a.com"; "a.com"; "b.org"; ""]
  ∧ RuleValidator.count_duplicates ["b.org"; "a.com"; ""; "a.com"]
    = RuleValidator.count_duplicates ["a.com"; "a.com"; "b.org"; ""].
Proof.
  apply X6_counters_ignore_order.
  apply (Permutation_trans (perm_swap _ _ _)).
  apply perm_skip. apply (Permutation_trans (perm_skip _ (perm_swap _ _ _))).
  apply perm_swap.
Defined.

End DuplicateExtras.

(** ** The validator, file by file *)

Section ValidatorSteps.
Context {W : Type} `{NodeEnv W}.
Import RuleValidator.

Lemma wp_returns {S A} (m : M S A) (P : A → S → Prop) s :
  wp m (λ r s', ∃ a, r = Ret a ∧ P a s') s →
  ∃ a s', m s = (Ret a, s') ∧ P a s'.
Proof.
  intros (r & s' & Hrun & a & -> & HP)%wp_run. eauto.
Qed.

(** [parseTextFile] on a file that is there. *)
Lemma wp_parseTextFile filePath
    (Q : outcome (list string) → state W → Prop) s :
  fs_existsSync (world s) filePath = true →
  Q (source_lines (world s) filePath) s →
  wp (parseTextFile filePath) Q s.
Proof.
  intros Hex HQ. unfold wp. by rewrite parseTextFile_run, Hex.
Qed.

(** The rules that [validateSourceFile] counts as valid and as invalid
    are all the rules. *)
Lemma length_valid_invalid (p : string → bool) (rules : list string) :
  length (List.filter p rules)
  + length (List.filter
              (λ rule, negb (bool_decide (rule ∈ List.filter p rules))) rules)
  = length rules.
Proof.
  rewrite (filter_ext_in
             (λ rule, negb (bool_decide (rule ∈ List.filter p rules)))
             (λ rule, negb (p rule))).
  - induction rules as [|r rules IH]; simpl; [done|].
    destruct (p r); simpl; lia.
  - intros r Hin. f_equal. destruct (p r) eqn:Hp.
    + apply bool_decide_eq_true_2, list_elem_of_In, filter_In. done.
    + apply bool_decide_eq_false_2.
      rewrite list_elem_of_In, filter_In. intros [_ Hr]. congruence.
Qed.

End ValidatorSteps.

Ltac wp_step :=
  lazymatch goal with
  | |- wp (_ ≫= _) _ _ => apply wp_bind
  | |- wp (mret _) _ _ => apply wp_ret
  | |- wp (prim _) _ _ => apply wp_prim
  | |- wp (throw _) _ _ => apply wp_throw
  | |- wp (try_catch _ _) _ _ => apply wp_try_catch
  | |- wp (try_finally _ _) _ _ => apply wp_try_finally
  | |- wp (with_local _ _) _ _ => apply wp_with_local
  | |- wp (lift _) _ _ => apply wp_lift
  | |- wp (update _) _ _ => apply wp_update
  | |- wp read _ _ => apply wp_read
  | |- wp (print _ _) _ _ => apply wp_print
  | |- wp (console_log _) _ _ => apply wp_print
  | |- wp (console_warn _) _ _ => apply wp_print
  | |- wp (console_error _) _ _ => apply wp_print
  | |- wp (observe _) _ _ => apply wp_observe
  | |- wp (existsSync _) _ _ => apply wp_observe
  | |- wp (FileUtils.exists_ _) _ _ => apply wp_observe
  end;
  cbn [fst snd world printing].

Section ValidateSource.
Context {W : Type} `{NodeEnv W}.
Import RuleValidator.

(** The rules that [validateSourceFile] reports as invalid. *)
Lemma filter_keeps_all (p : string → bool) (rules : list string) :
  List.filter p rules = rules
  ↔ length (List.filter
              (λ rule, negb (bool_decide (rule ∈ List.filter p rules)))
              rules) = 0.
Proof.
  pose proof (length_valid_invalid p rules) as Hsum. split.
  - intros Hall. rewrite Hall in Hsum at 1. lia.
  - intros Hnone. rewrite Hnone in Hsum. clear Hnone.
    induction rules as [|r rules IH]; [done|]. simpl in *.
    pose proof (filter_length_le p rules).
    destruct (p r); simpl in *; [f_equal; apply IH|]; lia.
Qed.

(** Everything that [validateSourceFile] does, whatever the world: it
    returns a result, and the result is as the source file is. *)
Lemma validateSourceFile_outcome sourceFile type (s : state W) :
  let filePath := path_join sourcesDir sourceFile in
  ∃ result s',
    validateSourceFile sourceFile type s = (Ret result, s')
    ∧ world s' = world s
    ∧ SourceResult.file result = sourceFile
    ∧ SourceResult.type result = type
    ∧ (SourceResult.valid result = true ↔ SourceResult.errors result = [])
    ∧ length (SourceResult.errors result) ≤ 1
    ∧ length (SourceResult.warnings result) ≤ 12
    ∧ (∀ rules,
         fs_existsSync (world s) filePath = true →
         source_lines (world s) filePath = Ret rules →
         let validRules := RuleParser.filterValidRules rules type in
         SourceResult.stats result
         = mkStats (length rules) (length validRules)
             (length rules - length validRules) (count_duplicates rules)
         ∧ (SourceResult.valid result = true ↔ validRules = rules))
    ∧ (fs_existsSync (world s) filePath = false
       ∨ (∃ e, source_lines (world s) filePath = Throw e) →
       SourceResult.stats result = mkStats 0 0 0 0
       ∧ SourceResult.valid result = false).
Proof.
  intros filePath. subst filePath.
  apply wp_returns. unfold validateSourceFile.
  repeat wp_step.
  destruct (fs_existsSync (world s) (path_join sourcesDir sourceFile)) eqn:Hex;
    cbn [negb].
  - wp_step. wp_step. apply wp_parseTextFile; [done|].
    cbn [fst snd world printing].
    destruct (source_lines _ _) as [rules|e] eqn:Hlines.
    + repeat wp_step. case_bool_decide as Hnone.
      * repeat wp_step. eexists. split; [reflexivity|]. simpl.
        apply length_zero_iff_nil in Hnone. subst rules.
        split_and!; try done; try lia.
        -- by intros rules' _ [= <-].
        -- by intros [|[e ?]].
      * repeat wp_step.
        set (validRules := RuleParser.filterValidRules rules type).
        set (invalidRules := List.filter _ rules).
        set (duplicates := count_duplicates rules).
        pose proof (length_valid_invalid _ rules :
                      length validRules + length invalidRules = length rules)
          as Hsum.
        pose proof (filter_keeps_all _ rules :
                      validRules = rules ↔ length invalidRules = 0) as Hall.
        assert (validRules = RuleParser.filterValidRules rules type) as Hvr
          by done.
        assert (duplicates = count_duplicates rules) as Hd by done.
        clearbody validRules invalidRules duplicates.
        lazymatch goal with
        | |- wp _ _ (?s1, _) =>
            apply (wp_mono _ (λ r sl,
              r = Ret tt ∧ sl.1 = s1
              ∧ ∃ v es ws,
                  sl.2 = SourceResult.mk sourceFile type v es ws
                           (mkStats (length rules) (length validRules)
                              (length invalidRules) duplicates)
                  ∧ (v = true ↔ es = []) ∧ length es ≤ 1
                  ∧ length ws ≤ 11
                  ∧ (v = true ↔ length invalidRules = 0)))
        end.
        -- case_bool_decide as Hinv.
           ++ do 5 wp_step.
              lazymatch goal with
              | |- wp _ _ (?s1, SourceResult.set_valid _
                                  (SourceResult.add_error ?e _)) =>
                  apply (wp_for_each (λ pre sl,
                    sl.1 = s1
                    ∧ ∃ ws,
                        sl.2 = SourceResult.mk sourceFile type false [e] ws
                                 (mkStats (length rules) (length validRules)
                                    (length invalidRules) duplicates)
                        ∧ length ws = length pre))
              end.
              ** split; [done|]. by exists [].
              ** intros pre x suf [s1 r1] _ (Hs1 & ws & Hr1 & Hws).
                 simpl in Hs1, Hr1. subst s1 r1. wp_step.
                 split; [done|]. eexists. split; [reflexivity|].
                 simpl. rewrite !length_app. simpl. lia.
              ** intros [s1 r1] (Hs1 & ws & Hr1 & Hws).
                 simpl in Hs1, Hr1. subst s1 r1.
                 rewrite length_take in Hws.
                 case_bool_decide; wp_step;
                   (split; [done|]; split; [done|]);
                   eexists _, _, _; (split; [reflexivity|]); simpl;
                   rewrite ?length_app; simpl;
                   repeat split; try done; lia.
           ++ wp_step. split; [done|]. split; [done|].
              eexists _, _, _. split; [reflexivity|]. simpl.
              repeat split; try done; lia.
        -- intros r [s1 r1] (-> & Hs1 & v & es & ws & Hr1 & Hv & Hes & Hws & Hi).
           simpl in Hs1, Hr1. subst s1 r1.
           assert (∀ rules',
                     Ret rules = Ret rules' →
                     mkStats (length rules) (length validRules)
                       (length invalidRules) duplicates
                     = mkStats (length rules')
                         (length (RuleParser.filterValidRules rules' type))
                         (length rules'
                          - length (RuleParser.filterValidRules rules' type))
                         (count_duplicates rules')
                     ∧ (v = true
                        ↔ RuleParser.filterValidRules rules' type = rules'))
             as Hcounts.
           { intros rules' [= <-]. rewrite <-Hvr, <-Hd.
             split; [f_equal; lia|tauto]. }
           case_bool_decide; repeat wp_step;
             (eexists; split; [reflexivity|]); simpl;
             rewrite ?length_app; simpl;
             (split_and!; try tauto; try lia;
              [ by intros rules' _ Hr; apply Hcounts
              | by intros [|[e ?]] ]).
    + repeat wp_step. eexists. split; [reflexivity|]. simpl.
      split_and!; try done; lia.
  - repeat wp_step. eexists. split; [reflexivity|]. simpl.
    split_and!; try done; lia.
Qed.

End ValidateSource.

Section ValidateSourceExtras.
Context {W : Type} `{NodeEnv W}.
Import RuleValidator.

(** X7: [validateSourceFile] always returns a result and never throws,
    whatever the file system does; it leaves the world as it was; the
    result names the file and the type it was asked about; it is valid
    exactly when it has no error, and it has at most one error and at
    most twelve warnings; its counters satisfy
    [valid + invalid = total] and [duplicate <= total]; and a valid
    result has no invalid rule. *)
Theorem X7_validateSourceFile_result sourceFile type (s : state W) :
  ∃ result s',
    validateSourceFile sourceFile type s = (Ret result, s')
    ∧ world s' = world s
    ∧ SourceResult.file result = sourceFile
    ∧ SourceResult.type result = type
    ∧ (SourceResult.valid result = true ↔ SourceResult.errors result = [])
    ∧ length (SourceResult.errors result) ≤ 1
    ∧ length (SourceResult.warnings result) ≤ 12
    ∧ valid (SourceResult.stats result) + invalid (SourceResult.stats result)
      = total (SourceResult.stats result)
    ∧ duplicate (SourceResult.stats result)
      ≤ total (SourceResult.stats result)
    ∧ (SourceResult.valid result = true
       → invalid (SourceResult.stats result) = 0).
Proof.
  destruct (validateSourceFile_outcome sourceFile type s)
    as (result & s' & Hrun & Hw & Hf & Ht & Hv & He & Hwarn & Hread & Hfail).
  assert (valid (SourceResult.stats result)
          + invalid (SourceResult.stats result)
          = total (SourceResult.stats result)
          ∧ duplicate (SourceResult.stats result)
            ≤ total (SourceResult.stats result)
          ∧ (SourceResult.valid result = true
             → invalid (SourceResult.stats result) = 0)) as (Hsum & Hdup & Hinv).
  { destruct (fs_existsSync (world s) (path_join sourcesDir sourceFile))
      eqn:Hex;
      [destruct (source_lines (world s) (path_join sourcesDir sourceFile))
         as [rules|e] eqn:Hlines|].
    - destruct (Hread rules eq_refl eq_refl) as [-> Hvalid].
      pose proof (filter_length_le
                    (λ rule,
                       if String.eqb type "domain-suffix"
                       then RuleParser.isValidDomain rule
                       else if String.eqb type "ip-cidr"
                       then RuleParser.isValidCidr rule
                       else if String.eqb type "process-name"
                       then RuleParser.isValidProcessName rule
                       else true) rules) as Hle.
      fold (RuleParser.filterValidRules rules type) in Hle.
      pose proof (DuplicateFacts.count_duplicates_distinct rules).
      cbn [total valid invalid duplicate]. split_and!; [lia..|].
      intros Htrue. apply Hvalid in Htrue. rewrite Htrue. lia.
    - destruct Hfail as [-> Hf']; [right; eauto|]. by rewrite Hf'.
    - destruct Hfail as [-> Hf']; [by left|]. by rewrite Hf'. }
  by exists result, s'.
Qed.

(** X8: on a source that is there and can be read,
    [validateSourceFile] counts the rule lines of the file, those that
    [filterValidRules] keeps for the type, the others, and the repeated
    ones; and the result is valid exactly when every rule line is
    valid for the type. *)
Theorem X8_validateSourceFile_counts sourceFile type (s : state W) content :
  fs_existsSync (world s) (path_join sourcesDir sourceFile) = true →
  fs_readFileSync (world s) (path_join sourcesDir sourceFile) = Ret content →
  ∃ result s',
    validateSourceFile sourceFile type s = (Ret result, s')
    ∧ let rules := RuleParser.parseContent content in
      let validRules := RuleParser.filterValidRules rules type in
      SourceResult.stats result
      = mkStats (length rules) (length validRules)
          (length rules - length validRules)
          (length rules - length (remove_dups rules))
      ∧ (SourceResult.valid result = true ↔ validRules = rules).
Proof.
  intros Hex Hread.
  destruct (validateSourceFile_outcome sourceFile type s)
    as (result & s' & Hrun & _ & _ & _ & _ & _ & _ & Hcounts & _).
  exists result, s'. split; [done|]. intros rules validRules.
  destruct (Hcounts rules Hex) as [-> Hvalid].
  { unfold source_lines. by rewrite Hex, Hread. }
  split; [|done]. f_equal.
  pose proof (DuplicateFacts.count_duplicates_distinct rules). lia.
Qed.

End ValidateSourceExtras.

Lemma X8_witness :
  ∃ result s',
    RuleValidator.validateSourceFile "direct-domains.txt" "domain-suffix"
      (TestEnv.start (TestEnv.checkout false))
    = (Ret result, s')
    ∧ RuleValidator.SourceResult.stats result = RuleValidator.mkStats 2 1 1 0
    ∧ RuleValidator.SourceResult.valid result = false.
Proof.
  destruct (X8_validateSourceFile_counts "direct-domains.txt" "domain-suffix"
              (TestEnv.start (TestEnv.checkout false))
              ("example.com" +:+ nl +:+ "# comment" +:+ nl +:+ "bad_domain!"
               +:+ nl))
    as (result & s' & Hrun & Hstats & Hvalid);
    [by vm_compute..|].
  exists result, s'. split; [done|]. split; [done|].
  destruct (RuleValidator.SourceResult.valid result); [|done].
  destruct Hvalid as [Hvalid _]. specialize (Hvalid eq_refl).
  vm_compute in Hvalid. discriminate Hvalid.
Defined.

Section ValidateTemplate.
Context {W : Type} `{NodeEnv W}.
Import RuleValidator.

Lemma wp_readJsonFile filePath (Q : outcome value → state W → Prop) s :
  fs_existsSync (world s) filePath = true →
  Q (match fs_readFileSync (world s) filePath with
     | Ret content => JSON_parse content
     | Throw e => Throw e
     end) s →
  wp (FileUtils.readJsonFile filePath) Q s.
Proof.
  intros Hex HQ. unfold FileUtils.readJsonFile, FileUtils.readFile.
  do 3 wp_step. rewrite Hex. cbn [negb].
  unfold readFileSync. wp_step.
  destruct (fs_readFileSync (world s) filePath); [by wp_step|done].
Qed.

(** The check [!template.type || typeof template.type !== 'string']. *)
Lemma type_check (type : value) :
  negb (Js.truthy type) || negb (String.eqb (Js.typeof type) "string") = false
  ↔ ∃ str, type = VStr str ∧ str ≠ "".
Proof.
  destruct type as [| |b|n|str|l|o]; simpl.
  1,2,6,7: split; [done|by intros (? & ? & ?)].
  - destruct b; split; try done; by intros (? & ? & ?).
  - destruct (n =? 0)%Z; split; try done; by intros (? & ? & ?).
  - rewrite orb_false_r, negb_involutive, bool_decide_eq_false.
    split; [by exists str|]. by intros (? & [= <-] & ?).
Qed.

(** The check [!template.rules || typeof template.rules !== 'object']. *)
Lemma rules_check (rules : value) :
  negb (Js.truthy rules) || negb (String.eqb (Js.typeof rules) "object") = false
  ↔ match rules with VArr _ | VObj _ => True | _ => False end.
Proof.
  destruct rules as [| |b|n|str|l|o]; simpl; try done.
  - by destruct b.
  - by destruct (n =? 0)%Z.
  - by destruct (bool_decide (str = "")).
Qed.

(** A value whose properties cannot be read has no own property. *)
Lemma get_throws_not_own template k e field :
  Js.get template k = Throw e →
  Js.call_hasOwnProperty template field ≠ Ret true.
Proof.
  destruct template as [| |b|n|str|l|o]; simpl; try done.
  - by destruct (String.eqb k "length").
  - by destruct (String.eqb k "length").
Qed.

End ValidateTemplate.

Section ValidateTemplateOutcome.
Context {W : Type} `{NodeEnv W}.
Import RuleValidator.

(** Everything that [validateTemplate] does, whatever the world. *)
Lemma validateTemplate_outcome templateFile (s : state W) :
  ∃ result s',
    validateTemplate templateFile s = (Ret result, s')
    ∧ world s' = world s
    ∧ TemplateResult.file result = templateFile
    ∧ (TemplateResult.valid result = true
       ↔ TemplateResult.errors result = [])
    ∧ length (TemplateResult.warnings result) ≤ 1
    ∧ (TemplateResult.valid result = true
       ↔ accepted_template (world s) (path_join templatesDir templateFile)).
Proof.
  apply wp_returns. unfold validateTemplate.
  repeat wp_step.
  destruct (fs_existsSync (world s) (path_join templatesDir templateFile))
    eqn:Hex; cbn [negb].
  2:{ repeat wp_step. eexists. split; [reflexivity|]. simpl.
      split_and!; try done; [lia|]. split; [done|].
      intros [Hex' _]. congruence. }
  wp_step. wp_step. apply wp_readJsonFile; [done|].
  cbn [fst snd world printing].
  destruct (fs_readFileSync (world s) (path_join templatesDir templateFile))
    as [content|e] eqn:Hread.
  2:{ repeat wp_step. eexists. split; [reflexivity|]. simpl.
      split_and!; try done; [lia|]. split; [done|].
      intros (_ & content & template & Hread' & _). congruence. }
  destruct (JSON_parse content) as [template|e] eqn:Hparse.
  2:{ repeat wp_step. eexists. split; [reflexivity|]. simpl.
      split_and!; try done; [lia|]. split; [done|].
      intros (_ & content' & template & Hread' & Hparse' & _). congruence. }
  assert (accepted_template (world s) (path_join templatesDir templateFile)
          ↔ well_formed_template template) as Hacc.
  { split.
    - intros (_ & content' & template' & Hread' & Hparse' & Hwf). congruence.
    - intros Hwf. split; [done|]. by exists content, template. }
  wp_step.
  apply (wp_for_each (λ pre sl,
    world sl.1 = world s
    ∧ TemplateResult.file sl.2 = templateFile
    ∧ TemplateResult.warnings sl.2 = []
    ∧ (TemplateResult.valid sl.2 = true ↔ TemplateResult.errors sl.2 = [])
    ∧ (TemplateResult.valid sl.2 = true
       ↔ Forall (λ field, Js.call_hasOwnProperty template field = Ret true)
           pre))).
  { simpl. split_and!; done. }
  { intros pre x suf [s1 r1] Hl (Hw & Hf & Hwarn & Hv & Hall).
    cbn [fst snd] in *. wp_step. wp_step.
    destruct (Js.call_hasOwnProperty template x) as [[|]|e] eqn:Hhas;
      cbn [negb].
    - wp_step. split_and!; try done.
      rewrite Forall_app, Forall_singleton. tauto.
    - repeat wp_step. simpl. split_and!; try done.
      + split; [done|]. by destruct (TemplateResult.errors r1).
      + split; [done|]. rewrite Forall_app, Forall_singleton.
        intros [_ ?]. congruence.
    - repeat wp_step. eexists. split; [reflexivity|]. simpl.
      rewrite Hwarn. split_and!; try done.
      + split; [done|]. by destruct (TemplateResult.errors r1).
      + simpl. lia.
      + split; [done|]. rewrite Hacc. intros [Hfields _].
        rewrite Hl, Forall_app, Forall_cons in Hfields.
        destruct Hfields as (_ & ? & _). congruence. }
  intros [s1 r1] (Hw & Hf & Hwarn & Hv & Hall). cbn [fst snd] in *.
  wp_step. wp_step.
  destruct (Js.get template "version") as [version|e] eqn:Hversion.
  2:{ repeat wp_step. eexists. split; [reflexivity|]. simpl.
      rewrite Hwarn. split_and!; try done.
      + split; [done|]. by destruct (TemplateResult.errors r1).
      + simpl. lia.
      + split; [done|]. rewrite Hacc. intros [Hfields _].
        unfold requiredFields in Hfields.
        apply Forall_cons in Hfields as [Hfirst _].
        exfalso. by eapply get_throws_not_own. }
  wp_step.
  apply (wp_mono _ (λ r sl,
    r = Ret tt ∧ world sl.1 = world s
    ∧ TemplateResult.file sl.2 = templateFile
    ∧ length (TemplateResult.warnings sl.2) ≤ 1
    ∧ (TemplateResult.valid sl.2 = true ↔ TemplateResult.errors sl.2 = [])
    ∧ (TemplateResult.valid sl.2 = true
       ↔ Forall (λ field, Js.call_hasOwnProperty template field = Ret true)
           requiredFields))).
  { destruct (negb (Js.strict_equals_number version 1)); wp_step; simpl;
      rewrite ?Hwarn; split_and!; try done; simpl; lia. }
  clear s1 r1 Hw Hf Hwarn Hv Hall.
  intros r [s1 r1] (-> & Hw & Hf & Hwarn & Hv & Hall). cbn [fst snd] in *.
  wp_step. wp_step.
  destruct (Js.get template "type") as [type|e] eqn:Htype.
  2:{ repeat wp_step. eexists. split; [reflexivity|]. simpl.
      split_and!; try done.
      + split; [done|]. by destruct (TemplateResult.errors r1).
      + split; [done|]. rewrite Hacc. intros (_ & (t & Ht & _) & _).
        congruence. }
  assert ((∃ t, Js.get template "type" = Ret (VStr t) ∧ t ≠ "")
          ↔ negb (Js.truthy type)
            || negb (String.eqb (Js.typeof type) "string") = false)
    as Htype_ok.
  { rewrite Htype, type_check.
    split; intros (t & ? & ?); exists t; split; congruence. }
  wp_step.
  apply (wp_mono _ (λ r sl,
    r = Ret tt ∧ world sl.1 = world s
    ∧ TemplateResult.file sl.2 = templateFile
    ∧ length (TemplateResult.warnings sl.2) ≤ 1
    ∧ (TemplateResult.valid sl.2 = true ↔ TemplateResult.errors sl.2 = [])
    ∧ (TemplateResult.valid sl.2 = true
       ↔ Forall (λ field, Js.call_hasOwnProperty template field = Ret true)
           requiredFields
         ∧ ∃ t, Js.get template "type" = Ret (VStr t) ∧ t ≠ ""))).
  { destruct (negb (Js.truthy type)
              || negb (String.eqb (Js.typeof type) "string")) eqn:Htc;
      repeat wp_step; simpl; split_and!; try done.
    - split; [done|]. by destruct (TemplateResult.errors r1).
    - split; [done|]. intros [_ Hok]. apply Htype_ok in Hok. congruence.
    - rewrite Hall. split; [|tauto]. intros Hfields. split; [done|].
      by apply Htype_ok. }
  clear s1 r1 Hw Hf Hwarn Hv Hall.
  intros r [s1 r1] (-> & Hw & Hf & Hwarn & Hv & Hall). cbn [fst snd] in *.
  wp_step. wp_step.
  destruct (Js.get template "rules") as [rules|e] eqn:Hrules.
  2:{ repeat wp_step. eexists. split; [reflexivity|]. simpl.
      split_and!; try done.
      + split; [done|]. by destruct (TemplateResult.errors r1).
      + split; [done|]. rewrite Hacc. intros (_ & _ & (t & Ht & _)).
        congruence. }
  assert ((∃ rules', Js.get template "rules" = Ret rules'
                     ∧ match rules' with
                       | VArr _ | VObj _ => True
                       | _ => False
                       end)
          ↔ negb (Js.truthy rules)
            || negb (String.eqb (Js.typeof rules) "object") = false)
    as Hrules_ok.
  { rewrite Hrules, rules_check. split.
    - by intros (rules' & [= <-] & ?).
    - intros ?. by exists rules. }
  wp_step.
  apply (wp_mono _ (λ r sl,
    r = Ret tt ∧ world sl.1 = world s
    ∧ TemplateResult.file sl.2 = templateFile
    ∧ length (TemplateResult.warnings sl.2) ≤ 1
    ∧ (TemplateResult.valid sl.2 = true ↔ TemplateResult.errors sl.2 = [])
    ∧ (TemplateResult.valid sl.2 = true ↔ well_formed_template template))).
  { unfold well_formed_template.
    destruct (negb (Js.truthy rules)
              || negb (String.eqb (Js.typeof rules) "object")) eqn:Hrc;
      repeat wp_step; simpl; split_and!; try done.
    - split; [done|]. by destruct (TemplateResult.errors r1).
    - split; [done|]. intros (_ & _ & Hok). apply Hrules_ok in Hok.
      congruence.
    - rewrite Hall. split; [|tauto]. intros [Hfields Hty].
      split_and!; try done. by apply Hrules_ok. }
  clear s1 r1 Hw Hf Hwarn Hv Hall.
  intros r [s1 r1] (-> & Hw & Hf & Hwarn & Hv & Hall). cbn [fst snd] in *.
  repeat wp_step. eexists. split; [reflexivity|].
  split_and!; try done. by rewrite Hacc.
Qed.

End ValidateTemplateOutcome.

Section ValidateTemplateExtras.
Context {W : Type} `{NodeEnv W}.
Import RuleValidator.

(** X9: [validateTemplate] always returns a result and never throws,
    whatever the file system and [JSON.parse] do; it leaves the world
    as it was; the result names the template it was asked about; it is
    valid exactly when it has no error; and it has at most one
    warning. *)
Theorem X9_validateTemplate_result templateFile (s : state W) :
  ∃ result s',
    validateTemplate templateFile s = (Ret result, s')
    ∧ world s' = world s
    ∧ TemplateResult.file result = templateFile
    ∧ (TemplateResult.valid result = true
       ↔ TemplateResult.errors result = [])
    ∧ length (TemplateResult.warnings result) ≤ 1.
Proof.
  destruct (validateTemplate_outcome templateFile s)
    as (result & s' & Hrun & Hw & Hf & Hv & Hwarn & _).
  by exists result, s'.
Qed.


End ValidateTemplateExtras.

(** ** The validator, all files *)

Section ValidateAllFacts.
Context {W : Type} `{NodeEnv W}.
Import RuleValidator.

Lemma filter_negb_length {A} (f : A → bool) (l : list A) :
  length (List.filter f l) + length (List.filter (λ x, negb (f x)) l)
  = length l.
Proof.
  induction l as [|x l IH]; simpl; [done|]. destruct (f x); simpl; lia.
Qed.

Lemma filter_negb_none {A} (f : A → bool) (l : list A) :
  length (List.filter (λ x, negb (f x)) l) = 0
  ↔ Forall (λ x, f x = true) l.
Proof.
  induction l as [|x l IH]; simpl.
  - split; [constructor|done].
  - rewrite Forall_cons, <-IH. destruct (f x); simpl; [tauto|].
    split; [done|]. by intros [? _].
Qed.

(** What the summary of [validateAll] says of the results collected so
    far. *)
Lemma validateAll_outcome (s : state W) :
  ∃ results s1,
    validateAll s
    = match generateValidationReport results s1 with
      | (Ret _, s2) => (Ret results, s2)
      | (Throw e, s2) => (Throw e, s2)
      end
    ∧ world s1 = world s
    ∧ SourceResult.file <$> sources results = source <$> ruleConfigs
    ∧ TemplateResult.file <$> templates results = templateConfigs
    ∧ total_files (summary results) = 10
    ∧ valid_files (summary results)
      = length (List.filter SourceResult.valid (sources results))
        + length (List.filter TemplateResult.valid (templates results))
    ∧ invalid_files (summary results)
      = length (List.filter (λ r, negb (SourceResult.valid r))
                  (sources results))
        + length (List.filter (λ r, negb (TemplateResult.valid r))
                    (templates results))
    ∧ invalid_rules (summary results) = 0
    ∧ valid_rules (summary results) = total_rules (summary results)
    ∧ total_rules (summary results)
      = sum_list_with (λ r, total (SourceResult.stats r))
          (List.filter SourceResult.valid (sources results)).
Proof.
  enough (wp validateAll
            (λ r sF,
               ∃ results s1,
                 (r, sF)
                 = match generateValidationReport results s1 with
                   | (Ret _, s2) => (Ret results, s2)
                   | (Throw e, s2) => (Throw e, s2)
                   end
                 ∧ world s1 = world s
                 ∧ SourceResult.file <$> sources results
                   = source <$> ruleConfigs
                 ∧ TemplateResult.file <$> templates results
                   = templateConfigs
                 ∧ total_files (summary results) = 10
                 ∧ valid_files (summary results)
                   = length (List.filter SourceResult.valid
                               (sources results))
                     + length (List.filter TemplateResult.valid
                                 (templates results))
                 ∧ invalid_files (summary results)
                   = length (List.filter (λ r, negb (SourceResult.valid r))
                               (sources results))
                     + length (List.filter
                                 (λ r, negb (TemplateResult.valid r))
                                 (templates results))
                 ∧ invalid_rules (summary results) = 0
                 ∧ valid_rules (summary results)
                   = total_rules (summary results)
                 ∧ total_rules (summary results)
                   = sum_list_with (λ r, total (SourceResult.stats r))
                       (List.filter SourceResult.valid (sources results))) s) as Hwp.
  { apply wp_run in Hwp as (r & sF & Hrun & results & s1 & Heq & Hrest).
    exists results, s1. split; [congruence|done]. }
  unfold validateAll. do 4 wp_step.
  apply (wp_for_each (λ pre sl,
    world sl.1 = world s
    ∧ SourceResult.file <$> sources sl.2 = source <$> pre
    ∧ templates sl.2 = []
    ∧ total_files (summary sl.2) = 10
    ∧ valid_files (summary sl.2)
      = length (List.filter SourceResult.valid (sources sl.2))
    ∧ invalid_files (summary sl.2)
      = length (List.filter (λ r, negb (SourceResult.valid r))
                  (sources sl.2))
    ∧ invalid_rules (summary sl.2) = 0
    ∧ valid_rules (summary sl.2) = total_rules (summary sl.2)
    ∧ total_rules (summary sl.2)
      = sum_list_with (λ r, total (SourceResult.stats r))
          (List.filter SourceResult.valid (sources sl.2)))).
  { simpl. split_and!; done. }
  { intros pre config suf [s1 r1] _ (Hw & Hfiles & Htpl & Htot & Hval & Hinv
                                     & Hir & Hvr & Htr).
    cbn [fst snd] in *. unfold wp. rewrite validateAll_source_run.
    destruct (validateSourceFile_outcome (source config) (type config) s1)
      as (result & s2 & -> & Hw2 & Hf & _ & _ & _ & _ & Hcounts & Hfail).
    assert (SourceResult.valid result = true →
            invalid (SourceResult.stats result) = 0
            ∧ valid (SourceResult.stats result)
              = total (SourceResult.stats result)) as Hstats.
    { intros Htrue.
      destruct (fs_existsSync (world s1)
                  (path_join sourcesDir (source config))) eqn:Hex;
        [destruct (source_lines (world s1)
                     (path_join sourcesDir (source config)))
           as [rules|e] eqn:Hlines|].
      - destruct (Hcounts rules eq_refl eq_refl) as [-> Hvalid].
        apply Hvalid in Htrue. rewrite Htrue. simpl. lia.
      - destruct Hfail as [_ Hf']; [right; eauto|]. congruence.
      - destruct Hfail as [_ Hf']; [by left|]. congruence. }
    cbn [fst snd sources templates summary].
    rewrite !List.filter_app, !length_app, !fmap_app, ?sum_list_with_app,
      Hfiles.
    cbn [fmap list_fmap List.filter]. rewrite Hf.
    destruct (SourceResult.valid result) eqn:Hvalid; simpl.
    - destruct Hstats as [Hi Hvt]; [done|].
      split_and!; try done; try congruence; lia.
    - split_and!; try done; try congruence; lia. }
  intros [s1 r1] (Hw & Hfiles & Htpl & Htot & Hval & Hinv & Hir & Hvr & Htr).
  cbn [fst snd] in *. wp_step.
  apply (wp_for_each (λ pre sl,
    world sl.1 = world s
    ∧ SourceResult.file <$> sources sl.2 = source <$> ruleConfigs
    ∧ TemplateResult.file <$> templates sl.2 = pre
    ∧ total_files (summary sl.2) = 10
    ∧ valid_files (summary sl.2)
      = length (List.filter SourceResult.valid (sources sl.2))
        + length (List.filter TemplateResult.valid (templates sl.2))
    ∧ invalid_files (summary sl.2)
      = length (List.filter (λ r, negb (SourceResult.valid r))
                  (sources sl.2))
        + length (List.filter (λ r, negb (TemplateResult.valid r))
                    (templates sl.2))
    ∧ invalid_rules (summary sl.2) = 0
    ∧ valid_rules (summary sl.2) = total_rules (summary sl.2)
    ∧ total_rules (summary sl.2)
      = sum_list_with (λ r, total (SourceResult.stats r))
          (List.filter SourceResult.valid (sources sl.2)))).
  { cbn [fst snd]. rewrite Htpl. simpl. split_and!; try done; lia. }
  { clear s1 r1 Hw Hfiles Htpl Htot Hval Hinv Hir Hvr Htr.
    intros pre template suf [s1 r1] _ (Hw & Hfiles & Htpl & Htot & Hval & Hinv
                                       & Hir & Hvr & Htr).
    cbn [fst snd] in *. unfold wp. rewrite validateAll_template_run.
    destruct (validateTemplate_outcome template s1)
      as (result & s2 & -> & Hw2 & Hf & _).
    cbn [fst snd sources templates summary].
    rewrite !List.filter_app, !length_app, !fmap_app, Htpl.
    cbn [fmap list_fmap List.filter]. rewrite Hf.
    destruct (TemplateResult.valid result) eqn:Hvalid; simpl;
      (split_and!; try done; try congruence; lia). }
  clear s1 r1 Hw Hfiles Htpl Htot Hval Hinv Hir Hvr Htr.
  intros [s1 r1] (Hw & Hfiles & Htpl & Htot & Hval & Hinv & Hir & Hvr & Htr).
  cbn [fst snd] in *. do 3 wp_step.
  apply wp_lift. unfold wp at 1.
  destruct (generateValidationReport r1 s1) as [[[]|e] s2] eqn:Hrep;
    cbn [fst snd]; [wp_step|]; exists r1, s1; by rewrite Hrep.
Qed.

End ValidateAllFacts.

Section ValidateAllExtras.
Context {W : Type} `{NodeEnv W}.
Import RuleValidator.

(** X11: [validateAll] validates the seven sources and the three
    templates in the order of its tables, one result for each, without
    changing the world, and then writes its report: it returns its
    results unless the report throws.  In the summary
    [valid_files + invalid_files = total_files = 10], and the exit
    status is [0] exactly when every source and every template is
    valid. *)
Theorem X11_validateAll_files (s : state W) :
  ∃ results s1,
    validateAll s
    = match generateValidationReport results s1 with
      | (Ret _, s2) => (Ret results, s2)
      | (Throw e, s2) => (Throw e, s2)
      end
    ∧ world s1 = world s
    ∧ SourceResult.file <$> sources results = source <$> ruleConfigs
    ∧ TemplateResult.file <$> templates results = templateConfigs
    ∧ total_files (summary results) = 10
    ∧ valid_files (summary results) + invalid_files (summary results) = 10
    ∧ (exit_status results = 0
       ↔ Forall (λ r, SourceResult.valid r = true) (sources results)
         ∧ Forall (λ r, TemplateResult.valid r = true) (templates results)).
Proof.
  destruct (validateAll_outcome s)
    as (results & s1 & Hrun & Hw & Hsrc & Htpl & Htot & Hval & Hinv & _).
  exists results, s1. split_and!; try done.
  - pose proof (filter_negb_length SourceResult.valid (sources results)).
    pose proof (filter_negb_length TemplateResult.valid (templates results)).
    apply (f_equal length) in Hsrc. apply (f_equal length) in Htpl.
    rewrite !length_fmap in Hsrc. rewrite length_fmap in Htpl.
    simpl in Hsrc, Htpl. lia.
  - rewrite <-!filter_negb_none. unfold exit_status.
    case_bool_decide; [split; [done|lia]|split; [lia|done]].
Qed.

(** X12: the rule counters of the summary count the rules of the valid
    sources only, and a valid source has no invalid rule: in the
    results of [validateAll], [total_rules] is the sum of the [total]
    of the valid sources, [valid_rules] is equal to it, and
    [invalid_rules] is [0], however many invalid rules the sources
    have. *)
Theorem X12_validateAll_rule_counters (s : state W) :
  ∃ results s1,
    validateAll s
    = match generateValidationReport results s1 with
      | (Ret _, s2) => (Ret results, s2)
      | (Throw e, s2) => (Throw e, s2)
      end
    ∧ total_rules (summary results)
      = sum_list_with (λ r, total (SourceResult.stats r))
          (List.filter SourceResult.valid (sources results))
    ∧ valid_rules (summary results) = total_rules (summary results)
    ∧ invalid_rules (summary results) = 0.
Proof.
  destruct (validateAll_outcome s)
    as (results & s1 & Hrun & _ & _ & _ & _ & _ & _ & Hir & Hvr & Htr).
  by exists results, s1.
Qed.

End ValidateAllExtras.

(** ** The build of one rule set *)

Section WpAny.
Context {S : Type}.

(** A step of which only the result matters. *)
Lemma wp_bind_any {A B} (m : M S A) (k : A → M S B) Q s :
  (∀ a s', wp (k a) Q s') → (∀ e s', Q (Throw e) s') → wp (m ≫= k) Q s.
Proof.
  intros Hk He. apply wp_bind. unfold wp at 1.
  destruct (m s) as [[a|e] s']; [apply Hk|apply He].
Qed.

End WpAny.

Section BuildRuleOutcome.
Context {W : Type} `{NodeEnv W}.
Import RuleBuilder.

(** [parseTextFile] returns the lines of the source, whether the file
    is there or not, and at most prints. *)
Lemma wp_parseTextFile_lines filePath
    (Q : outcome (list string) → state W → Prop) s :
  (∀ s', world s' = world s → Q (source_lines (world s) filePath) s') →
  wp (parseTextFile filePath) Q s.
Proof.
  intros HQ. unfold wp. rewrite parseTextFile_run. unfold source_lines.
  specialize (HQ s eq_refl) as HQ1. unfold source_lines in HQ1.
  destruct (fs_existsSync (world s) filePath) eqn:Hex; [done|].
  specialize (HQ (printing s [(WarnLevel,
                               "Source file not found: " +:+ filePath)])
                eq_refl).
  unfold source_lines in HQ. by rewrite Hex in HQ.
Qed.

(** Everything that [buildRule] can return. *)
Lemma buildRule_outcome type sourceFile outputFile (s : state W) :
  ∃ r s',
    buildRule type sourceFile outputFile s = (Ret r, s')
    ∧ match r with
      | None => True
      | Some a =>
          Artifact.type a = type
          ∧ Artifact.source a = sourceFile
          ∧ Artifact.output a = outputFile
          ∧ ∃ rules built_at,
              source_lines (world s) (path_join sourcesDir sourceFile)
              = Ret rules
              ∧ Artifact.rules a = RuleParser.filterValidRules rules type
              ∧ Artifact.rules a ≠ []
              ∧ Artifact.metadata a
                = VObj [("count", num (length (Artifact.rules a)));
                        ("built_at", VStr built_at);
                        ("source", VStr sourceFile);
                        ("stats",
                         stats_value (RuleParser.getRuleStats rules))]
      end.
Proof.
  apply wp_returns. unfold buildRule. do 4 wp_step.
  unfold buildRule_ruleData. wp_step.
  apply wp_parseTextFile_lines. intros s1 _.
  cbn [world printing].
  destruct (source_lines _ _) as [rules|e] eqn:Hlines.
  2:{ repeat wp_step. by eexists. }
  do 2 wp_step. case_bool_decide as Hnone.
  { repeat wp_step. by eexists. }
  do 2 wp_step. case_bool_decide as Hvalid.
  { repeat wp_step. by eexists. }
  do 2 wp_step.
  apply wp_bind_any; [intros template s2|intros e s2; repeat wp_step;
                                          by eexists].
  do 3 (wp_step; wp_step;
        destruct (Js.get template _) as [?v|?e];
        [|repeat wp_step; by eexists]).
  do 2 wp_step.
  apply wp_bind_any; [intros built_at s3|intros e s3; repeat wp_step;
                                          by eexists].
  wp_step.
  apply wp_bind_any; [intros built s4|intros e s4; repeat wp_step;
                                       by eexists].
  destruct built; repeat wp_step; (eexists; split; [reflexivity|]);
    [|done].
  split_and!; try done. exists rules, built_at. split_and!; try done.
  by intros Hnil%(f_equal length).
Qed.

End BuildRuleOutcome.

Section BuildRuleExtras.
Context {W : Type} `{NodeEnv W}.
Import RuleBuilder.

(** X13: [buildRule] always returns and never throws; and an artifact
    that it returns carries the type, the source and the output it was
    called with, as rules the lines of the source that
    [filterValidRules] keeps for the type, of which there is at least
    one and all of which are valid for the type, and as metadata their
    count, the time of the build, the source and the statistics of the
    lines. *)
Theorem X13_buildRule_artifact type sourceFile outputFile (s : state W) :
  ∃ r s',
    buildRule type sourceFile outputFile s = (Ret r, s')
    ∧ match r with
      | None => True
      | Some a =>
          config_of a = mkConfig type sourceFile outputFile
          ∧ Artifact.rules a ≠ []
          ∧ RuleParser.filterValidRules (Artifact.rules a) type
            = Artifact.rules a
          ∧ ∃ rules built_at,
              source_lines (world s) (path_join sourcesDir sourceFile)
              = Ret rules
              ∧ Artifact.rules a = RuleParser.filterValidRules rules type
              ∧ Artifact.metadata a
                = VObj [("count", num (length (Artifact.rules a)));
                        ("built_at", VStr built_at);
                        ("source", VStr sourceFile);
                        ("stats",
                         stats_value (RuleParser.getRuleStats rules))]
      end.
Proof.
  destruct (buildRule_outcome type sourceFile outputFile s)
    as (r & s' & Hrun & Hr).
  exists r, s'. split; [done|]. destruct r as [a|]; [|done].
  destruct Hr as (Ht & Hs & Ho & rules & built_at & Hlines & Hrules & Hne
                  & Hmeta).
  split_and!; try done.
  - unfold config_of. by rewrite Ht, Hs, Ho.
  - rewrite Hrules. apply FilterFacts.filter_idempotent.
  - by exists rules, built_at.
Qed.

End BuildRuleExtras.

(** ** The build of all rule sets *)

Section BuildAllOutcome.
Context {W : Type} `{NodeEnv W}.
Import RuleBuilder.

(** X14: [buildAll] builds the seven configs and then writes its
    report: it returns its results unless the report throws.  No
    config ever fails: [failed] is empty, and the configs of the
    artifacts in [success] together with the configs in [skipped] are
    the seven configs.  Each artifact has at least one rule, all valid
    for its type; and the summary counts seven configs, the successes,
    no failure, the skipped, and as [total_rules] the rules of all
    artifacts. *)
Theorem X14_buildAll_results (s : state W) :
  ∃ results s1,
    buildAll s
    = match generateBuildReport results s1 with
      | (Ret _, s2) => (Ret results, s2)
      | (Throw e, s2) => (Throw e, s2)
      end
    ∧ failed results = []
    ∧ (config_of <$> success results) ++ skipped results ≡ₚ ruleConfigs
    ∧ Forall (λ a, Artifact.rules a ≠ []
                   ∧ RuleParser.filterValidRules (Artifact.rules a)
                       (Artifact.type a)
                     = Artifact.rules a)
        (success results)
    ∧ summary results
      = Some (Summary.mk 7 (length (success results)) 0
                (length (skipped results))
                (sum_list_with (λ a, length (Artifact.rules a))
                   (success results))).
Proof.
  enough (wp buildAll
            (λ r sF,
               ∃ results s1,
                 (r, sF)
                 = match generateBuildReport results s1 with
                   | (Ret _, s2) => (Ret results, s2)
                   | (Throw e, s2) => (Throw e, s2)
                   end
                 ∧ failed results = []
                 ∧ (config_of <$> success results) ++ skipped results
                   ≡ₚ ruleConfigs
                 ∧ Forall (λ a, Artifact.rules a ≠ []
                                ∧ RuleParser.filterValidRules
                                    (Artifact.rules a) (Artifact.type a)
                                  = Artifact.rules a)
                     (success results)
                 ∧ summary results
                   = Some (Summary.mk 7 (length (success results)) 0
                             (length (skipped results))
                             (sum_list_with (λ a, length (Artifact.rules a))
                                (success results)))) s) as Hwp.
  { apply wp_run in Hwp as (r & sF & Hrun & results & s1 & Heq & Hrest).
    exists results, s1. split; [congruence|done]. }
  unfold buildAll. do 4 wp_step.
  apply (wp_for_each (λ pre sl,
    failed sl.2.1 = []
    ∧ summary sl.2.1 = None
    ∧ (config_of <$> success sl.2.1) ++ skipped sl.2.1 ≡ₚ pre
    ∧ Forall (λ a, Artifact.rules a ≠ []
                   ∧ RuleParser.filterValidRules (Artifact.rules a)
                       (Artifact.type a)
                     = Artifact.rules a)
        (success sl.2.1)
    ∧ sl.2.2 = sum_list_with (λ a, length (Artifact.rules a))
                 (success sl.2.1))).
  { simpl. split_and!; done. }
  { intros pre config suf [s1 [r1 n1]] _ (Hfailed & Hsum & Hperm & Hok & Hn).
    cbn [fst snd] in *. unfold wp. rewrite buildAll_step_run.
    destruct (buildRule_outcome (type config) (source config)
                (output config) s1) as (r & s2 & -> & Hr).
    destruct r as [a|]; cbn [fst snd success failed skipped summary].
    - destruct Hr as (Ht & Hs & Ho & rules & built_at & _ & Hrules & Hne & _).
      split_and!; try done.
      + rewrite fmap_app, <-Hperm. cbn [fmap list_fmap].
        replace (config_of a) with config
          by (unfold config_of; rewrite Ht, Hs, Ho; by destruct config).
        rewrite <-!app_assoc. apply Permutation_app_head.
        apply Permutation_app_comm.
      + apply Forall_app. split; [done|]. apply Forall_singleton.
        split; [done|]. rewrite Hrules, Ht.
        apply FilterFacts.filter_idempotent.
      + rewrite sum_list_with_app. simpl. lia.
    - split_and!; try done. by rewrite app_assoc, Hperm. }
  intros [s1 [r1 n1]] (Hfailed & Hsum & Hperm & Hok & Hn).
  cbn [fst snd] in *. do 5 wp_step.
  apply wp_lift. unfold wp at 1.
  lazymatch goal with
  | |- context [generateBuildReport ?results s1] =>
      destruct (generateBuildReport results s1) as [[[]|e] s2] eqn:Hrep;
      cbn [fst snd]; [wp_step|]; exists results, s1; rewrite Hrep;
      (split; [done|]); cbn [success failed skipped summary];
      split_and!; try done
  end.
  all: apply Permutation_length in Hperm;
       rewrite length_app, length_fmap in Hperm;
       rewrite Hfailed, Hn; do 2 f_equal.
Qed.

End BuildAllOutcome.

(** ** The two builders of [SrsBuilder] *)

Section SrsBuilderExtras.
Context {W : Type} `{NodeEnv W}.
Import SrsBuilder.



(** X16: a failing [sing-box] never makes [buildWithSingBox] throw:
    if the temporary directory cannot be made, that exception is the
    outcome; otherwise the build itself always comes to [true] or
    [false], the temporary directory is cleaned, and only the cleaning
    can still throw.  And [true] is returned only if [sing-box] exited
    normally and left an output file that is not empty. *)
Theorem X16_buildWithSingBox_outcome ruleData outputFile (s : state W) :
  match ensureTempDir s with
  | (Throw e, s0) => buildWithSingBox ruleData outputFile s = (Throw e, s0)
  | (Ret _, s0) =>
      ∃ (built : bool) s1,
        buildWithSingBox ruleData outputFile s
        = match cleanTempDir s1 with
          | (Ret _, s2) => (Ret built, s2)
          | (Throw e, s2) => (Throw e, s2)
          end
        ∧ (built = true →
           ∃ w tempJsonFile w' size,
             child_process_execSync w
               (compile_command outputFile tempJsonFile)
             = (Ret tt, w')
             ∧ fs_existsSync w' outputFile = true
             ∧ fs_statSync_size w' outputFile = Ret size
             ∧ (0 < size)%Z)
  end.
Proof.
  destruct (ensureTempDir s) as [[[]|e] s0] eqn:Hensure.
  2:{ unfold buildWithSingBox. by rewrite bind_run, Hensure. }
  unfold buildWithSingBox. rewrite bind_run, Hensure.
  unfold try_finally.
  lazymatch goal with
  | |- context [try_catch ?body ?handler s0] =>
      assert (never_throws (try_catch body handler)) as Hnever
  end.
  { apply never_throws_try_catch. intros e.
    apply never_throws_bind; [apply never_throws_print|].
    intros _. apply never_throws_ret. }
  destruct (Hnever s0) as (built & s1 & Hbody).
  exists built, s1. split.
  { rewrite Hbody. by destruct (cleanTempDir s1) as [[[]|e] s2]. }
  intros ->. revert Hbody.
  lazymatch goal with
  | |- ?m s0 = _ → ?P =>
      enough (wp m (λ r _, r = Ret true → P) s0) as Hwp
  end.
  { intros Hbody. unfold wp in Hwp. rewrite Hbody in Hwp. by apply Hwp. }
  wp_step.
  apply wp_bind_any; [intros ruleType s2|by intros; repeat wp_step].
  apply wp_bind_any; [intros rules s3|by intros; repeat wp_step].
  apply wp_bind_any; [intros t s4|by intros; repeat wp_step].
  apply wp_bind_any; [intros _ s5|by intros; repeat wp_step].
  do 3 wp_step. apply wp_effect. intros r w' Hexec.
  destruct r as [[]|e]; [|by repeat wp_step].
  do 2 wp_step.
  destruct (fs_existsSync w' outputFile) eqn:Hex; [|by repeat wp_step].
  wp_step. apply wp_observe. cbn [world].
  destruct (fs_statSync_size w' outputFile) as [size|e] eqn:Hsize;
    [|by repeat wp_step].
  destruct (0 <? size)%Z eqn:Hpos; [|by repeat wp_step].
  repeat wp_step. intros _. eexists _, _, w', size.
  split; [exact Hexec|]. split_and!; try done. by apply Z.ltb_lt.
Qed.

End SrsBuilderExtras.

(** ** The name of the fallback file *)

Module ReplaceFacts.
Import JsString.

Lemma is_prefix_app p : ∀ l1 l2,
  length p ≤ length l1 → is_prefix p (l1 ++ l2) = is_prefix p l1.
Proof.
  induction p as [|a p IH]; intros [|b l1] l2 Hlen; simpl in *;
    try done; try lia.
  rewrite IH by lia. done.
Qed.

Lemma is_prefix_refl p l : is_prefix p (p ++ l) = true.
Proof.
  induction p as [|a p IH]; simpl; [done|].
  by rewrite IH, bool_decide_eq_true_2.
Qed.

Lemma replace_first_absent pat rep l :
  occurs_in pat l = false → replace_first pat rep l = l.
Proof.
  induction l as [|c l IH]; simpl.
  - rewrite orb_false_r. by intros ->.
  - intros [-> Hl]%orb_false_iff. by rewrite IH.
Qed.

Lemma replace_first_unfold pat rep l :
  replace_first pat rep l
  = if is_prefix pat l then rep ++ drop (length pat) l
    else match l with
         | [] => []
         | c :: l' => c :: replace_first pat rep l'
         end.
Proof. by destruct l. Qed.

(** The occurrence that is replaced is the first one. *)
Lemma replace_first_at pat rep pre post :
  pat ≠ [] →
  occurs_in pat (pre ++ removelast pat) = false →
  replace_first pat rep (pre ++ pat ++ post) = pre ++ rep ++ post.
Proof.
  intros Hpat. induction pre as [|c pre IH]; intros Hocc.
  - simpl app. rewrite replace_first_unfold, is_prefix_refl.
    by rewrite drop_app_length.
  - rewrite <-!app_comm_cons in *. simpl in Hocc.
    apply orb_false_iff in Hocc as [Hhere Hocc].
    rewrite replace_first_unfold.
    assert (is_prefix pat (c :: pre ++ pat ++ post) = false) as ->.
    { rewrite (app_removelast_last "000"%char Hpat) at 2.
      rewrite <-(app_assoc (removelast pat)), (app_assoc pre).
      rewrite (app_comm_cons (pre ++ removelast pat)).
      rewrite is_prefix_app; [|].
      - destruct pat; [done|]. exact Hhere.
      - pose proof (f_equal length (app_removelast_last "000"%char Hpat))
          as Hlen.
        rewrite length_app in Hlen. simpl in *.
        rewrite length_app. lia. }
    by rewrite IH.
Qed.

End ReplaceFacts.

Section FallbackNameExtras.
Import SrsBuilder.

(** X17: the fallback file takes the place of the first [.srs] of the
    output path, wherever it stands, and not of its extension: a path
    in which [.srs] first occurs after [pre] gets [.json] there and
    keeps the rest; and a path without [.srs] is its own fallback
    file. *)
Theorem X17_jsonFile_of_first_occurrence :
  (∀ outputFile : string,
     occurs_in (JsString.chars ".srs") (JsString.chars outputFile) = false →
     jsonFile_of outputFile = outputFile)
  ∧ (∀ pre post : string,
       occurs_in (JsString.chars ".srs") (JsString.chars (pre +:+ ".sr"))
       = false →
       jsonFile_of (pre +:+ ".srs" +:+ post) = pre +:+ ".json" +:+ post).
Proof.
  split.
  - intros outputFile Hocc. unfold jsonFile_of, JsString.replace.
    rewrite ReplaceFacts.replace_first_absent by done.
    apply DomainFacts.of_chars_chars.
  - intros pre post Hocc. unfold jsonFile_of, JsString.replace.
    rewrite !CidrFacts.chars_app in *.
    rewrite (ReplaceFacts.replace_first_at _ _ (JsString.chars pre)
               (JsString.chars post)); [|done|exact Hocc].
    rewrite !CidrInversion.of_chars_app.
    by rewrite !DomainFacts.of_chars_chars.
Qed.

Lemma X17_witness :
  jsonFile_of "/repo/dist/a.srs.d/x.srs" = "/repo/dist/a.json.d/x.srs"
  ∧ jsonFile_of "/repo/dist/x.bin" = "/repo/dist/x.bin".
Proof.
  destruct X17_jsonFile_of_first_occurrence as [Habsent Hfirst]. split.
  - apply (Hfirst "/repo/dist/a" ".d/x.srs"). reflexivity.
  - apply Habsent. reflexivity.
Defined.

End FallbackNameExtras.

(** ** The hash of [MetadataGenerator] *)

Module HashFacts.
Import MetadataGenerator.
Local Open Scope Z_scope.

Lemma to_int32_range n : - 2 ^ 31 ≤ to_int32 n < 2 ^ 31.
Proof.
  unfold to_int32.
  pose proof (Z.mod_pos_bound (n + 2 ^ 31) (2 ^ 32) eq_refl). lia.
Qed.

Lemma to_int32_spec n : ∃ k, to_int32 n = n + k * 2 ^ 32.
Proof.
  exists (- ((n + 2 ^ 31) / 2 ^ 32)). unfold to_int32.
  rewrite Z.mod_eq by done. lia.
Qed.

Lemma to_int32_add_mul n k : to_int32 (n + k * 2 ^ 32) = to_int32 n.
Proof.
  unfold to_int32.
  replace (n + k * 2 ^ 32 + 2 ^ 31) with (n + 2 ^ 31 + k * 2 ^ 32) by lia.
  by rewrite Z_mod_plus_full.
Qed.

Lemma to_int32_idempotent n : to_int32 (to_int32 n) = to_int32 n.
Proof.
  destruct (to_int32_spec n) as (k & Hk). rewrite Hk at 1.
  apply to_int32_add_mul.
Qed.

Lemma bit_and_diag h : bit_and h h = to_int32 h.
Proof. unfold bit_and. by rewrite Z.land_diag, to_int32_idempotent. Qed.

(** One turn of the loop, modulo [2^32]. *)
Lemma simpleHash_step_to_int32 h c :
  simpleHash_step (to_int32 h) c = to_int32 (31 * h + charCodeAt c).
Proof.
  unfold simpleHash_step. cbv zeta. rewrite bit_and_diag.
  unfold shift_left. rewrite to_int32_idempotent.
  rewrite Z.shiftl_mul_pow2 by done.
  destruct (to_int32_spec h) as (k1 & ->).
  destruct (to_int32_spec ((h + k1 * 2 ^ 32) * 2 ^ 5)) as (k2 & ->).
  rewrite <-(to_int32_add_mul (31 * h + charCodeAt c) (31 * k1 + k2)).
  f_equal. ring.
Qed.

Lemma simpleHash_loop_to_int32 l : ∀ h,
  foldl simpleHash_step (to_int32 h) l
  = to_int32 (foldl (λ h c, 31 * h + charCodeAt c) h l).
Proof.
  induction l as [|c l IH]; intros h; [done|].
  cbn [foldl]. by rewrite simpleHash_step_to_int32, IH.
Qed.

End HashFacts.

Section HashExtras.
Import MetadataGenerator.
Local Open Scope Z_scope.

(** X18: the number that [simpleHash] prints in base 16 is the absolute
    value of [ToInt32] of the polynomial of the character codes at
    [31]: wrapping to 32 bits on every turn is wrapping once at the
    end.  It lies between [0] and [2^31], and the early return for the
    empty string gives what the loop would. *)
Theorem X18_simpleHash_polynomial (str : string) :
  simpleHash str
  = toString16 (Z.abs (to_int32 (polynomial31 (JsString.chars str))))
  ∧ 0 ≤ Z.abs (to_int32 (polynomial31 (JsString.chars str))) ≤ 2 ^ 31.
Proof.
  split.
  - unfold simpleHash, polynomial31. case_bool_decide as Hempty.
    + apply length_zero_iff_nil in Hempty. by rewrite Hempty.
    + by rewrite <-HashFacts.simpleHash_loop_to_int32.
  - pose proof (HashFacts.to_int32_range
                  (polynomial31 (JsString.chars str))). lia.
Qed.

End HashExtras.

(** ** A build without a template *)

Section MissingTemplate.
Context {W : Type} `{NodeEnv W}.
Import RuleBuilder.


End MissingTemplate.

